(** * Dataset preparation lifecycle: download, verify, extract, manifest

    A shallow embedding of [src/dataset/dataset.py] (class [Dataset]) and of
    the library behaviour it relies on: [hashlib.md5], [pathlib.Path],
    [str.lower], [int], [json.dump], [datetime.isoformat] and the file
    system; what [requests.get] answers and what [tarfile] does to the
    file system belong to the environment.  The first half of the file
    holds the definitions, the second half the lemmas and the theorems
    about [prepare]. *)

From Stdlib Require Import ZArith Lia List Ascii String.
From Stdlib.Strings Require Import Byte.
From stdpp Require Import base option list gmap strings.

Local Open Scope Z_scope.

(* ===================================================================== *)
(** ** MD5 (RFC 1321), the digest behind [hashlib.md5]                    *)
(* ===================================================================== *)

Module MD5.

(** 32-bit words are integers in [0, 2^32); every operation that can
    leave the range wraps around explicitly. *)
Definition wrap32 (x : Z) : Z := x mod 2 ^ 32.
Definition add32 (x y : Z) : Z := wrap32 (x + y).
Definition not32 (x : Z) : Z := Z.lxor x 0xffffffff.
Definition rotl32 (x : Z) (s : Z) : Z :=
  Z.lor (wrap32 (Z.shiftl x s)) (Z.shiftr x (32 - s)).

(** The four chaining registers A, B, C, D. *)
Record regs : Type := Regs { rA : Z; rB : Z; rC : Z; rD : Z }.

Definition regs0 : regs :=
  Regs 0x67452301 0xefcdab89 0x98badcfe 0x10325476.

(** Per-round additive constants, [floor (2^32 * |sin (i + 1)|)]. *)
Definition K : list Z :=
  [ 0xd76aa478; 0xe8c7b756; 0x242070db; 0xc1bdceee;
    0xf57c0faf; 0x4787c62a; 0xa8304613; 0xfd469501;
    0x698098d8; 0x8b44f7af; 0xffff5bb1; 0x895cd7be;
    0x6b901122; 0xfd987193; 0xa679438e; 0x49b40821;
    0xf61e2562; 0xc040b340; 0x265e5a51; 0xe9b6c7aa;
    0xd62f105d; 0x02441453; 0xd8a1e681; 0xe7d3fbc8;
    0x21e1cde6; 0xc33707d6; 0xf4d50d87; 0x455a14ed;
    0xa9e3e905; 0xfcefa3f8; 0x676f02d9; 0x8d2a4c8a;
    0xfffa3942; 0x8771f681; 0x6d9d6122; 0xfde5380c;
    0xa4beea44; 0x4bdecfa9; 0xf6bb4b60; 0xbebfbc70;
    0x289b7ec6; 0xeaa127fa; 0xd4ef3085; 0x04881d05;
    0xd9d4d039; 0xe6db99e5; 0x1fa27cf8; 0xc4ac5665;
    0xf4292244; 0x432aff97; 0xab9423a7; 0xfc93a039;
    0x655b59c3; 0x8f0ccc92; 0xffeff47d; 0x85845dd1;
    0x6fa87e4f; 0xfe2ce6e0; 0xa3014314; 0x4e0811a1;
    0xf7537e82; 0xbd3af235; 0x2ad7d2bb; 0xeb86d391 ].

(** Per-round left-rotation amounts. *)
Definition shifts : list Z :=
  [ 7; 12; 17; 22; 7; 12; 17; 22; 7; 12; 17; 22; 7; 12; 17; 22;
    5;  9; 14; 20; 5;  9; 14; 20; 5;  9; 14; 20; 5;  9; 14; 20;
    4; 11; 16; 23; 4; 11; 16; 23; 4; 11; 16; 23; 4; 11; 16; 23;
    6; 10; 15; 21; 6; 10; 15; 21; 6; 10; 15; 21; 6; 10; 15; 21 ].

Definition byteZ (b : byte) : Z := Z.of_N (Byte.to_N b).

(** Little-endian decoding of a run of bytes into one integer. *)
Fixpoint le_decode (bs : list byte) : Z :=
  match bs with
  | [] => 0
  | b :: bs' => byteZ b + 256 * le_decode bs'
  end.

(** Little-endian encoding of [x] on [n] bytes. *)
Fixpoint le_encode (n : nat) (x : Z) : list byte :=
  match n with
  | O => []
  | S n' =>
      match Byte.of_N (Z.to_N (x mod 256)) with
      | Some b => b :: le_encode n' (x / 256)
      | None => []
      end
  end.

(** The sixteen message words of a 64-byte block. *)
Fixpoint words (n : nat) (block : list byte) : list Z :=
  match n with
  | O => []
  | S n' => le_decode (firstn 4 block) :: words n' (skipn 4 block)
  end.

(** One of the 64 steps of the compression function. *)
Definition step (M : list Z) (i : nat) (r : regs) : regs :=
  let '(Regs a b c d) := r in
  let iz := Z.of_nat i in
  let '(f, g) :=
    if iz <? 16 then (Z.lor (Z.land b c) (Z.land (not32 b) d), iz)
    else if iz <? 32 then
      (Z.lor (Z.land d b) (Z.land (not32 d) c), (5 * iz + 1) mod 16)
    else if iz <? 48 then (Z.lxor b (Z.lxor c d), (3 * iz + 5) mod 16)
    else (Z.lxor c (Z.lor b (not32 d)), (7 * iz) mod 16) in
  let f' := add32 (add32 (add32 f a) (nth i K 0)) (nth (Z.to_nat g) M 0) in
  Regs d (add32 b (rotl32 f' (nth i shifts 0))) b c.

(** Compression of one 64-byte block into the chaining registers. *)
Definition compress (r : regs) (block : list byte) : regs :=
  let M := words 16 block in
  let r' := fold_left (fun acc i => step M i acc) (seq 0 64) r in
  Regs (add32 (rA r) (rA r')) (add32 (rB r) (rB r'))
       (add32 (rC r) (rC r')) (add32 (rD r) (rD r')).

(** Consume every complete 64-byte block at the front of [data]; what is
    left (fewer than 64 bytes) stays buffered. *)
Fixpoint absorb_fuel (fuel : nat) (r : regs) (data : list byte)
  : regs * list byte :=
  match fuel with
  | O => (r, data)
  | S fuel' =>
      if (64 <=? length data)%nat
      then absorb_fuel fuel' (compress r (firstn 64 data)) (skipn 64 data)
      else (r, data)
  end.

Definition absorb (r : regs) (data : list byte) : regs * list byte :=
  absorb_fuel (length data) r data.

(** The padding appended to a message of [n] bytes: a single 1 bit, zeros
    up to 56 modulo 64, then the bit length on 64 bits, little-endian. *)
Definition padding (n : Z) : list byte :=
  x80 :: repeat x00 (Z.to_nat ((55 - n) mod 64))
      ++ le_encode 8 ((8 * n) mod 2 ^ 64).

(** *** The hash object of [hashlib]: [md5()], [update], [hexdigest] *)

Record state : Type := State
  { st_regs : regs;          (* chaining value after the full blocks *)
    st_count : Z;            (* number of bytes fed so far *)
    st_buffer : list byte }. (* bytes of the incomplete last block *)

Definition new : state := State regs0 0 [].

Definition update (s : state) (data : list byte) : state :=
  let '(r, rest) := absorb (st_regs s) (st_buffer s ++ data) in
  State r (st_count s + Z.of_nat (length data)) rest.

Definition digest (s : state) : list byte :=
  let '(r, _) := absorb (st_regs s) (st_buffer s ++ padding (st_count s)) in
  le_encode 4 (rA r) ++ le_encode 4 (rB r)
    ++ le_encode 4 (rC r) ++ le_encode 4 (rD r).

Definition hex_digit (n : Z) : ascii :=
  nth (Z.to_nat n)
      (list_ascii_of_string "0123456789abcdef") "0"%char.

Definition hex_of_byte (b : byte) : string :=
  String (hex_digit (byteZ b / 16))
         (String (hex_digit (byteZ b mod 16)) EmptyString).

Definition hex (bs : list byte) : string :=
  fold_right (fun b acc => hex_of_byte b ++ acc)%string EmptyString bs.

(** [hexdigest]: thirty-two lowercase hexadecimal digits. *)
Definition hexdigest (s : state) : string := hex (digest s).

(** The buffer of a hash object holds an incomplete block. *)
Definition wf (s : state) : Prop := (length (st_buffer s) < 64)%nat.

(** The digest of a whole message fed in one call. *)
Definition md5_hex (data : list byte) : string :=
  hexdigest (update new data).

End MD5.

Local Open Scope string_scope.
Local Open Scope list_scope.
Local Open Scope nat_scope.

(* ===================================================================== *)
(** ** Strings: [str.lower], [str.replace], decimal and hex rendering     *)
(* ===================================================================== *)

(** A [string] stands for a Python [str] whose code points are all below
    256, one [ascii] for each code point. *)

Module Str.

(** [c.lower()]: the capital letters of this range are [A] to [Z] and the
    code points 192 to 222 without the multiplication sign (215); each has
    its small letter 32 places further.  No other code point below 256
    changes, and lowering a string of such code points is lowering each of
    them: the rules that look at the neighbours of a character concern
    code points above 255 only. *)
Definition lower_char (c : ascii) : ascii :=
  let n := nat_of_ascii c in
  if ((65 <=? n) && (n <=? 90))
     || ((192 <=? n) && (n <=? 222) && negb (n =? 215))
  then ascii_of_nat (n + 32) else c.

Fixpoint map_chars (f : ascii → ascii) (s : string) : string :=
  match s with
  | EmptyString => EmptyString
  | String c s' => String (f c) (map_chars f s')
  end.

(** [s.lower()] *)
Definition lower (s : string) : string := map_chars lower_char s.

(** [s.replace(a, b)] for one-character [a] and [b]. *)
Definition replace_char (a b : ascii) (s : string) : string :=
  map_chars (fun c => if Ascii.eqb c a then b else c) s.

(** [sep.join(ws)] *)
Fixpoint join (sep : string) (ws : list string) : string :=
  match ws with
  | [] => EmptyString
  | [w] => w
  | w :: ws' => w +:+ sep +:+ join sep ws'
  end.

(** [s.split(sep)] for a one-character separator. *)
Fixpoint split_on (sep : ascii) (s : string) : list string :=
  match s with
  | EmptyString => [EmptyString]
  | String c s' =>
      if Ascii.eqb c sep then EmptyString :: split_on sep s'
      else match split_on sep s' with
           | [] => [String c EmptyString]
           | w :: ws => String c w :: ws
           end
  end.

Definition digit (n : nat) : ascii := ascii_of_nat (48 + n mod 10).

(** [n] in decimal on exactly [w] digits, zero padded (["%0wd"]). *)
Fixpoint dec (w : nat) (n : nat) : string :=
  match w with
  | O => EmptyString
  | S w' => dec w' (n / 10) +:+ String (digit n) EmptyString
  end.

Definition hex_digit (n : nat) : ascii :=
  nth (n mod 16) (list_ascii_of_string "0123456789abcdef") "0"%char.

(** [n] in lowercase hexadecimal on exactly [w] digits (["%0wx"]). *)
Fixpoint hex (w : nat) (n : nat) : string :=
  match w with
  | O => EmptyString
  | S w' => hex w' (n / 16) +:+ String (hex_digit n) EmptyString
  end.

Definition starts_with_slash (s : string) : bool :=
  match s with
  | String "/" _ => true
  | _ => false
  end.

(** *** [int(s)] for a [str]

    White space, an optional sign, decimal digits with single underscores
    between them, white space.  The white space of [int] is the tab, the
    line feed, the vertical tab, the form feed, the carriage return and
    the space, and of the code points above 126 the next-line control
    (133) and the no-break space (160). *)

Definition is_int_space (c : ascii) : bool :=
  let n := nat_of_ascii c in
  ((9 <=? n) && (n <=? 13)) || (n =? 32) || (n =? 133) || (n =? 160).

Definition is_digit (c : ascii) : bool :=
  let n := nat_of_ascii c in (48 <=? n) && (n <=? 57).

Fixpoint skip_spaces (s : string) : string :=
  match s with
  | String c s' => if is_int_space c then skip_spaces s' else s
  | EmptyString => EmptyString
  end.

(** The digits of the literal: [acc] is their value so far, [count] their
    number, [after_digit] whether the character before was a digit; an
    underscore is accepted after a digit and must be followed by one.
    Returns the value, the number of digits and the text after them. *)
Fixpoint scan_digits (s : string) (after_digit : bool) (acc : Z) (count : nat)
  : option (Z * nat * string) :=
  match s with
  | String c s' =>
      if is_digit c then
        scan_digits s' true (acc * 10 + Z.of_nat (nat_of_ascii c - 48)) (S count)
      else if Ascii.eqb c "_" then
        if after_digit then scan_digits s' false acc count else None
      else if after_digit then Some (acc, count, s) else None
  | EmptyString => if after_digit then Some (acc, count, EmptyString) else None
  end.

(** [int(s)]; [None] stands for [ValueError].  [max_digits] is
    [sys.get_int_max_str_digits()]: a literal of more digits than that is
    refused, unless it is 0 (no limit, as in interpreters without the
    setting); literals of up to 640 digits are never refused. *)
Definition to_int (max_digits : nat) (s : string) : option Z :=
  let s1 := skip_spaces s in
  let '(negative, s2) :=
    match s1 with
    | String "+" t => (false, t)
    | String "-" t => (true, t)
    | _ => (false, s1)
    end in
  match scan_digits s2 false 0%Z 0 with
  | Some (v, count, rest) =>
      match skip_spaces rest with
      | EmptyString =>
          if (640 <? count) && (0 <? max_digits) && (max_digits <? count)
          then None
          else Some (if negative then (- v)%Z else v)
      | _ => None
      end
  | None => None
  end.

End Str.

(* ===================================================================== *)
(** ** [pathlib.Path] (POSIX flavour)                                     *)
(* ===================================================================== *)

Module Pathlib.

(** A path is its anchor (absolute or not) and its components.  Parsing
    drops empty components and single dots, as [PurePosixPath] does. *)
Record Path : Type := MkPath { anchored : bool; parts : list string }.

Definition keep_part (w : string) : bool :=
  negb (String.eqb w EmptyString || String.eqb w ".").

(** [Path(s)] *)
Definition of_str (s : string) : Path :=
  MkPath (Str.starts_with_slash s) (List.filter keep_part (Str.split_on "/" s)).

(** [p / s]: an absolute right operand replaces the left one. *)
Definition joinpath (p : Path) (s : string) : Path :=
  let q := of_str s in
  if anchored q then q else MkPath (anchored p) (parts p ++ parts q).

(** [str(p)] *)
Definition to_str (p : Path) : string :=
  if anchored p then "/" +:+ Str.join "/" (parts p)
  else match parts p with
       | [] => "."
       | _ => Str.join "/" (parts p)
       end.

(** Collapse [..] components against the components before them; at the
    root, [..] stays at the root.  [acc] is the reversed prefix. *)
Fixpoint collapse (acc : list string) (ps : list string) : list string :=
  match ps with
  | [] => rev acc
  | p :: ps' =>
      if String.eqb p ".." then collapse (tl acc) ps'
      else collapse (p :: acc) ps'
  end.

(** [p.resolve()] in a process whose working directory is [cwd]
    (components of an absolute path).  Symbolic links are not modelled. *)
Definition resolve (cwd : list string) (p : Path) : Path :=
  MkPath true
         (collapse [] (if anchored p then parts p else cwd ++ parts p)).

(** [p.is_absolute()] *)
Definition is_absolute (p : Path) : bool := anchored p.

End Pathlib.

Abbreviation Path := Pathlib.Path.
Infix "//" := Pathlib.joinpath (at level 40, left associativity).

(* ===================================================================== *)
(** ** [datetime.isoformat] for an aware UTC time                         *)
(* ===================================================================== *)

Record datetime : Type := Datetime
  { year : nat; month : nat; day : nat;
    hour : nat; minute : nat; second : nat; microsecond : nat }.

(** [d.isoformat()] for [d = datetime.now(timezone.utc)]: the microseconds
    are printed only when they are not zero; the offset is [+00:00]. *)
Definition isoformat (d : datetime) : string :=
  Str.dec 4 (year d) +:+ "-" +:+ Str.dec 2 (month d) +:+ "-" +:+ Str.dec 2 (day d)
  +:+ "T" +:+ Str.dec 2 (hour d) +:+ ":" +:+ Str.dec 2 (minute d)
  +:+ ":" +:+ Str.dec 2 (second d)
  +:+ (if microsecond d =? 0 then EmptyString else "." +:+ Str.dec 6 (microsecond d))
  +:+ "+00:00".

(* ===================================================================== *)
(** ** [json.dump] of a flat dictionary of strings, and its reader        *)
(* ===================================================================== *)

Module Json.

(** A Python [dict] of [str] to [str]; insertion order is kept. *)
Definition dict : Type := list (string * string).

Definition dquote : ascii := ascii_of_nat 34.
Definition backslash : ascii := ascii_of_nat 92.

(** [ensure_ascii] escaping of one character: the two-character escapes,
    [\u00XX] for the other characters outside [' ' .. '~']. *)
Definition escape_char (c : ascii) : string :=
  let n := nat_of_ascii c in
  if n =? 34 then String backslash (String dquote EmptyString)
  else if n =? 92 then String backslash (String backslash EmptyString)
  else if n =? 10 then String backslash "n"
  else if n =? 13 then String backslash "r"
  else if n =? 9 then String backslash "t"
  else if n =? 8 then String backslash "b"
  else if n =? 12 then String backslash "f"
  else if (32 <=? n) && (n <=? 126) then String c EmptyString
  else String backslash ("u" +:+ Str.hex 4 n).

Fixpoint escape (s : string) : string :=
  match s with
  | EmptyString => EmptyString
  | String c s' => escape_char c +:+ escape s'
  end.

(** [json.dumps(s)] for a string: the escaped text between quotes. *)
Definition quote (s : string) : string :=
  String dquote (escape s +:+ String dquote EmptyString).

Definition newline : string := String (ascii_of_nat 10) EmptyString.

Definition member (kv : string * string) : string :=
  quote (fst kv) +:+ ": " +:+ quote (snd kv).

(** The members of an object at indentation 2, separated by [",\n  "]. *)
Fixpoint members (d : dict) : string :=
  match d with
  | [] => EmptyString
  | [kv] => member kv
  | kv :: d' => member kv +:+ "," +:+ newline +:+ "  " +:+ members d'
  end.

(** [json.dumps(d, indent=2)] *)
Definition dumps (d : dict) : string :=
  match d with
  | [] => "{}"
  | _ => "{" +:+ newline +:+ "  " +:+ members d +:+ newline +:+ "}"
  end.

(** [d.get(k)] *)
Fixpoint get (k : string) (d : dict) : option string :=
  match d with
  | [] => None
  | (k', v) :: d' => if String.eqb k k' then Some v else get k d'
  end.

(** *** The reader: [json.loads] on an object whose values are strings

    This is the consumer's side of the manifest file.  It accepts what
    [json.loads] accepts for such objects (any JSON white space between
    tokens, every escape sequence); code points above 255 have no
    counterpart in [string] and are refused. *)

Definition hex_val (c : ascii) : option nat :=
  let n := nat_of_ascii c in
  if (48 <=? n) && (n <=? 57) then Some (n - 48)
  else if (97 <=? n) && (n <=? 102) then Some (n - 87)
  else if (65 <=? n) && (n <=? 70) then Some (n - 55)
  else None.

Definition hex4 (a b c d : ascii) : option nat :=
  x3 ← hex_val a; x2 ← hex_val b; x1 ← hex_val c; x0 ← hex_val d;
  Some (((x3 * 16 + x2) * 16 + x1) * 16 + x0).

(** The character denoted by a two-character escape [\e]. *)
Definition unescape (e : ascii) : option ascii :=
  let n := nat_of_ascii e in
  if n =? 34 then Some dquote
  else if n =? 92 then Some backslash
  else if n =? 47 then Some "/"%char
  else if n =? 110 then Some (ascii_of_nat 10)
  else if n =? 114 then Some (ascii_of_nat 13)
  else if n =? 116 then Some (ascii_of_nat 9)
  else if n =? 98 then Some (ascii_of_nat 8)
  else if n =? 102 then Some (ascii_of_nat 12)
  else None.

Definition push (c : ascii) (r : option (string * string))
  : option (string * string) :=
  match r with
  | Some (s, rest) => Some (String c s, rest)
  | None => None
  end.

(** Read a string literal whose opening quote has been consumed; returns
    the decoded string and the text after the closing quote. *)
Fixpoint read_string (s : string) : option (string * string) :=
  match s with
  | EmptyString => None
  | String c s1 =>
      if Ascii.eqb c dquote then Some (EmptyString, s1)
      else if Ascii.eqb c backslash then
        match s1 with
        | EmptyString => None
        | String e s2 =>
            if Ascii.eqb e "u" then
              match s2 with
              | String h3 (String h2 (String h1 (String h0 s3))) =>
                  match hex4 h3 h2 h1 h0 with
                  | Some n =>
                      if n <? 256 then push (ascii_of_nat n) (read_string s3)
                      else None
                  | None => None
                  end
              | _ => None
              end
            else
              match unescape e with
              | Some c' => push c' (read_string s2)
              | None => None
              end
        end
      else if nat_of_ascii c <? 32 then None
      else push c (read_string s1)
  end.

Definition is_ws (c : ascii) : bool :=
  let n := nat_of_ascii c in
  (n =? 32) || (n =? 10) || (n =? 13) || (n =? 9).

Fixpoint skip_ws (s : string) : string :=
  match s with
  | String c s' => if is_ws c then skip_ws s' else s
  | EmptyString => EmptyString
  end.

(** Expect the character [c] after optional white space. *)
Definition expect (c : ascii) (s : string) : option string :=
  match skip_ws s with
  | String c' s' => if Ascii.eqb c c' then Some s' else None
  | EmptyString => None
  end.

(** One ["key": "value"] member. *)
Definition read_member (s : string) : option ((string * string) * string) :=
  s1 ← expect dquote s;
  '(k, s2) ← read_string s1;
  s3 ← expect ":" s2;
  s4 ← expect dquote s3;
  '(v, s5) ← read_string s4;
  Some ((k, v), s5).

(** The members of a non-empty object up to its closing brace. *)
Fixpoint read_members (fuel : nat) (s : string) : option (dict * string) :=
  match fuel with
  | O => None
  | S fuel' =>
      '(kv, s1) ← read_member s;
      match skip_ws s1 with
      | String c s2 =>
          if Ascii.eqb c "," then
            '(d, s3) ← read_members fuel' s2;
            Some (kv :: d, s3)
          else if Ascii.eqb c "}" then Some ([kv], s2)
          else None
      | EmptyString => None
      end
  end.

(** [json.loads(s)] for an object of strings; nothing but white space
    may follow the closing brace. *)
Definition loads (s : string) : option dict :=
  s1 ← expect "{" s;
  '(d, s2) ←
    match skip_ws s1 with
    | String c s' =>
        if Ascii.eqb c "}" then Some ([], s')
        else read_members (String.length s1) s1
    | EmptyString => None
    end;
  match skip_ws s2 with
  | EmptyString => Some d
  | _ => None
  end.

End Json.

(* ===================================================================== *)
(** ** The world around the program                                       *)
(* ===================================================================== *)

(** *** File system

    A file system maps the components of an absolute path to a node.  The
    root directory (no component) always exists. *)

Inductive node : Type :=
| File (data : list byte)
| Dir.

Abbreviation filesystem := (gmap (list string) node).

Definition lookup_node (fs : filesystem) (k : list string) : option node :=
  match k with
  | [] => Some Dir
  | _ => fs !! k
  end.

Definition node_exists (fs : filesystem) (k : list string) : bool :=
  match lookup_node fs k with
  | Some _ => true
  | None => false
  end.

(** *** Exceptions

    [RuntimeError] is the exception the program raises itself, at the end
    of [_verify].  The others are raised by the interpreter, the operating
    system and the libraries; the model takes it that none of these raises
    a bare [RuntimeError]. *)

Inductive library_exn : Type :=
| FileNotFoundError
| IsADirectoryError
| NotADirectoryError
| FileExistsError
| OSError             (* any other [OSError], such as a full device *)
| ValueError          (* [int]: not an integer literal *)
| RequestException    (* [requests]: connection or stream failure *)
| ReadError           (* [tarfile]: not a gzip-compressed tar archive *)
| TarError            (* [tarfile]: any other of its errors *)
| EOFError.           (* [gzip]: the compressed stream ends early *)

Inductive exn : Type :=
| RuntimeError (msg : string)
| Library (e : library_exn).

Coercion Library : library_exn >-> exn.

(** *** Collaborators

    The answer of [requests.get(url, stream=True)]: either the call
    raises, or a response arrives with its [content-length] header, if it
    has one, and a body that is a sequence of chunks; an incomplete body
    raises after its last chunk was delivered. *)
Inductive http_result : Type :=
| ConnectionFailed
| Response (content_length : option string) (chunks : list (list byte))
           (complete : bool).

(** What a call can observe of its environment, and what the program does
    not control:
    - [cwd]: the working directory, components of an absolute path;
    - [http_get]: the remote side;
    - [int_max_str_digits]: [sys.get_int_max_str_digits()], 0 where there
      is no limit;
    - [utcnow]: the clock reading of [datetime.now(timezone.utc)];
    - [tar_extractall]: what [tarfile] does with the bytes of an archive
      opened with mode [r:gz] and extracted with [extractall] into the
      directory with the given key: the exception it raises, if any, and
      the file system it leaves.  Archives hold links and names that leave
      the destination, and the library's answer to them differs between
      versions; nothing is assumed about this function beyond the type
      of its exceptions;
    - [quota]: the size the device lets the file at a key grow to
      ([None]: no limit) when the program writes to it. *)
Record Env : Type := MkEnv
  { cwd : list string;
    http_get : string → http_result;
    int_max_str_digits : nat;
    utcnow : datetime;
    tar_extractall :
      list byte → list string → filesystem → option library_exn * filesystem;
    quota : list string → option nat }.

(** *** State, call log and the monad of the methods

    The call log records which private methods a call to [prepare] entered,
    oldest first; it is instrumentation and has no counterpart in the
    source.  The progress bar and the two progress messages are not
    modelled. *)

Inductive event : Type :=
| Download
| Verify
| Extract
| WriteManifest.

Global Instance event_eq_dec : EqDecision event.
Proof. solve_decision. Defined.

Record world : Type := World { w_fs : filesystem; w_log : list event }.

(** How a computation ends: a value, an exception, or [Fuel] when a loop
    of the model used up its fuel (shown below never to happen). *)
Inductive result (A : Type) : Type :=
| Ok (a : A)
| Raise (e : exn)
| Fuel.
Arguments Ok {A} a.
Arguments Raise {A} e.
Arguments Fuel {A}.

Definition M (A : Type) : Type := world → result A * world.

Definition ret {A} (a : A) : M A := fun w => (Ok a, w).

Definition bind {A B} (m : M A) (k : A → M B) : M B :=
  fun w =>
    match m w with
    | (Ok a, w') => k a w'
    | (Raise e, w') => (Raise e, w')
    | (Fuel, w') => (Fuel, w')
    end.

Definition raise {A} (e : exn) : M A := fun w => (Raise e, w).

Definition get_fs : M filesystem := fun w => (Ok (w_fs w), w).

Definition put_fs (fs : filesystem) : M unit :=
  fun w => (Ok tt, World fs (w_log w)).

Definition log (e : event) : M unit :=
  fun w => (Ok tt, World (w_fs w) (w_log w ++ [e])).

Notation "'let*' x ':=' c1 'in' c2" := (bind c1 (fun x => c2))
  (at level 10, x name, c1 at level 100, c2 at level 200).
Notation "c1 ;; c2" := (bind c1 (fun _ => c2))
  (at level 100, c2 at level 200, right associativity).

(** [for x in xs: body x] *)
Fixpoint for_each {A} (xs : list A) (body : A → M unit) : M unit :=
  match xs with
  | [] => ret tt
  | x :: xs' => body x ;; for_each xs' body
  end.

(** *** File operations *)

Section FileOps.

Variable env : Env.

(** The key of a path: its components once made absolute. *)
Definition key (p : Path) : list string :=
  Pathlib.parts (Pathlib.resolve (cwd env) p).

(** [p.exists()] *)
Definition path_exists (p : Path) : M bool :=
  let* fs := get_fs in
  ret (node_exists fs (key p)).

(** The directory a new entry goes into must be there. *)
Definition check_parent (k : list string) : M unit :=
  let* fs := get_fs in
  match lookup_node fs (removelast k) with
  | Some Dir => ret tt
  | Some (File _) => raise NotADirectoryError
  | None => raise FileNotFoundError
  end.

(** [open(p, "w")] and [open(p, "wb")]: create the file or truncate it;
    the handle is the key. *)
Definition open_w (p : Path) : M (list string) :=
  let k := key p in
  let* fs := get_fs in
  match lookup_node fs k with
  | Some Dir => raise IsADirectoryError
  | _ => check_parent k ;; put_fs (<[k := File []]> fs) ;; ret k
  end.

(** [f.write(data)]: append at the end of the file; when the device has
    no room for all of [data], the part that fits is written and the
    write fails. *)
Definition write (k : list string) (data : list byte) : M unit :=
  let* fs := get_fs in
  match fs !! k with
  | Some (File old) =>
      let room := match quota env k with
                  | None => length data
                  | Some q => q - length old
                  end in
      if length data <=? room
      then put_fs (<[k := File (old ++ data)]> fs)
      else put_fs (<[k := File (old ++ firstn room data)]> fs) ;;
           raise OSError
  | _ => raise OSError
  end.

(** [open(p, "rb")] followed by reads: the bytes of a regular file. *)
Definition open_rb (p : Path) : M (list byte) :=
  let* fs := get_fs in
  match lookup_node fs (key p) with
  | Some (File data) => ret data
  | Some Dir => raise IsADirectoryError
  | None => raise FileNotFoundError
  end.

(** [p.unlink(missing_ok=True)] *)
Definition unlink_missing_ok (p : Path) : M unit :=
  let* fs := get_fs in
  match lookup_node fs (key p) with
  | None => ret tt
  | Some (File _) => put_fs (delete (key p) fs)
  | Some Dir => raise IsADirectoryError
  end.

(** [os.makedirs(exist_ok=True)] below the existing directory [pre]:
    create the directories of [ks] that are missing. *)
Fixpoint makedirs (pre ks : list string) : M unit :=
  match ks with
  | [] => ret tt
  | c :: ks' =>
      let k := pre ++ [c] in
      let* fs := get_fs in
      match fs !! k with
      | Some (File _) =>
          raise (match ks' with
                 | [] => FileExistsError
                 | _ => NotADirectoryError
                 end)
      | Some Dir => makedirs k ks'
      | None => put_fs (<[k := Dir]> fs) ;; makedirs k ks'
      end
  end.

(** [p.mkdir(parents=True, exist_ok=True)] *)
Definition mkdir_parents (p : Path) : M unit := makedirs [] (key p).

(** [tarfile.open(p, "r:gz")] on a file of bytes [data], followed by
    [tar.extractall(dst)]: the library's doing. *)
Definition extractall (data : list byte) (dst : list string) : M unit :=
  let* fs := get_fs in
  let '(failure, fs') := tar_extractall env data dst fs in
  put_fs fs' ;;
  match failure with
  | None => ret tt
  | Some e => raise e
  end.

End FileOps.

(* ===================================================================== *)
(** ** class [Dataset]                                                    *)
(* ===================================================================== *)

(** The class attributes a subclass defines. *)
Record DatasetClass : Type := MkDatasetClass
  { name : string;
    url : string;
    checksum : string;
    archive_name : string;
    extracted_dir : string }.

(** The instance attributes set by [__init__]. *)
Record Dataset : Type := MkDataset
  { cls : DatasetClass;
    root : Path;
    manifest_path : Path }.

(** The file name of the manifest:
    [f"{self.name.lower().replace(' ', '_')}.manifest.json"] *)
Definition manifest_name (c : DatasetClass) : string :=
  Str.replace_char " " "_" (Str.lower (name c)) +:+ ".manifest.json".

(** [self.archive_path] *)
Definition archive_path (self : Dataset) : Path :=
  root self // archive_name (cls self).

(** [self.extracted_path] *)
Definition extracted_path (self : Dataset) : Path :=
  root self // extracted_dir (cls self).

#[local] Set Warnings "-abstract-large-number".

(** The default value of the parameter [root] of [__init__]. *)
Definition default_root : string := "datasets/data".

(** [CHUNK_SIZE] of [_md5]. *)
Definition CHUNK_SIZE : nat := 8192.

(** An open binary file: its bytes and the read position. *)
Record reader : Type := Reader { r_data : list byte; r_pos : nat }.

(** [f.read(n)]: at most [n] bytes from the position, which advances. *)
Definition read (f : reader) (n : nat) : list byte * reader :=
  let chunk := firstn n (skipn (r_pos f) (r_data f)) in
  (chunk, Reader (r_data f) (r_pos f + length chunk)).

(** [for chunk in iter(lambda: f.read(n), b""): h.update(chunk)] *)
Fixpoint md5_loop (fuel : nat) (n : nat) (f : reader) (h : MD5.state)
  : option MD5.state :=
  match fuel with
  | O => None
  | S fuel' =>
      let '(chunk, f') := read f n in
      match chunk with
      | [] => Some h
      | _ => md5_loop fuel' n f' (MD5.update h chunk)
      end
  end.

(** The manifest dictionary of [_write_manifest]. *)
Definition manifest (env : Env) (self : Dataset) : Json.dict :=
  [ ("name", name (cls self));
    ("source_url", url (cls self));
    ("archive_name", archive_name (cls self));
    ("checksum", checksum (cls self));
    ("prepared_at", isoformat (utcnow env));
    ("dataset_path",
      Pathlib.to_str (Pathlib.resolve (cwd env) (extracted_path self)));
    ("archive_path",
      Pathlib.to_str (Pathlib.resolve (cwd env) (archive_path self))) ].

(** The bytes of a text written with [encoding="utf-8"]; the output of
    [json.dump] is ASCII. *)
Definition encode (s : string) : list byte := list_byte_of_string s.

Section Methods.

Variable env : Env.

(** [Dataset.__init__(self, root)] for the subclass [c]; [default_root] is
    the default of [root]. *)
Definition __init__ (c : DatasetClass) (root_arg : string) : M Dataset :=
  let r := Pathlib.of_str root_arg in
  mkdir_parents env r ;;
  ret (MkDataset c r (r // manifest_name c)).

(** [Dataset._md5(path)] *)
Definition _md5 (path : Path) : M string :=
  let* data := open_rb env path in
  match md5_loop (S (length data)) CHUNK_SIZE (Reader data 0) MD5.new with
  | Some h => ret (MD5.hexdigest h)
  | None => fun w => (Fuel, w)
  end.

(** [int(response.headers.get("content-length", 0))]: the declared size,
    0 when the header is missing. *)
Definition declared_total (content_length : option string) : M Z :=
  match content_length with
  | None => ret 0%Z
  | Some s =>
      match Str.to_int (int_max_str_digits env) s with
      | Some n => ret n
      | None => raise ValueError
      end
  end.

(** [Dataset._download(self)]; [total] goes to the progress bar only. *)
Definition _download (self : Dataset) : M unit :=
  log Download ;;
  match http_get env (url (cls self)) with
  | ConnectionFailed => raise RequestException
  | Response content_length chunks complete =>
      let* total := declared_total content_length in
      let* f := open_w env (archive_path self) in
      for_each chunks (fun chunk => write env f chunk) ;;
      if complete then ret tt else raise RequestException
  end.

(** [Dataset._verify(self)] *)
Definition _verify (self : Dataset) : M unit :=
  log Verify ;;
  let* d := _md5 (archive_path self) in
  if negb (String.eqb d (checksum (cls self))) then
    unlink_missing_ok env (archive_path self) ;;
    raise (RuntimeError (name (cls self) +:+ " archive checksum mismatch."))
  else ret tt.

(** [Dataset._extract(self)] *)
Definition _extract (self : Dataset) : M unit :=
  log Extract ;;
  let* data := open_rb env (archive_path self) in
  extractall env data (key env (root self)).

(** [Dataset._write_manifest(self)] *)
Definition _write_manifest (self : Dataset) : M unit :=
  log WriteManifest ;;
  let text := Json.dumps (manifest env self) in
  let* f := open_w env (manifest_path self) in
  write env f (encode text).

(** [Dataset.prepare(self)] *)
Definition prepare (self : Dataset) : M Path :=
  let* extracted := path_exists env (extracted_path self) in
  let* recorded := path_exists env (manifest_path self) in
  if extracted && recorded then ret (extracted_path self)
  else
    let* archived := path_exists env (archive_path self) in
    (if negb archived then _download self else ret tt) ;;
    _verify self ;;
    _extract self ;;
    _write_manifest self ;;
    ret (extracted_path self).

End Methods.

(** *** The phases of [prepare], named for the statements below *)

Section Phases.

Variable env : Env.

(** The test of step 1: the extracted directory and the manifest are
    both there. *)
Definition prepared (self : Dataset) (fs : filesystem) : bool :=
  node_exists fs (key env (extracted_path self))
  && node_exists fs (key env (manifest_path self)).

(** Step 2: [if not self.archive_path.exists(): self._download()] *)
Definition fetch_if_missing (self : Dataset) : M unit :=
  let* archived := path_exists env (archive_path self) in
  if negb archived then _download env self else ret tt.

(** Steps 3 to 6: verify, extract, write the manifest, return. *)
Definition verify_onwards (self : Dataset) : M Path :=
  _verify env self ;;
  _extract env self ;;
  _write_manifest env self ;;
  ret (extracted_path self).

(** Steps 2 to 6, what [prepare] does past the short-circuit. *)
Definition pipeline (self : Dataset) : M Path :=
  fetch_if_missing self ;; verify_onwards self.

End Phases.

(** The message of the integrity error. *)
Definition mismatch_message (self : Dataset) : string :=
  name (cls self) +:+ " archive checksum mismatch.".

(** The bytes [_write_manifest] sets out to write. *)
Definition manifest_bytes (env : Env) (self : Dataset) : list byte :=
  encode (Json.dumps (manifest env self)).

(** *** What a computation may touch

    [touches P fs fs']: every key of [fs'] holds what it held in [fs], or
    satisfies [P] and holds something.  Nothing is removed, and nothing
    outside [P] changes. *)

Definition touches (P : list string → Prop) (fs fs' : filesystem) : Prop :=
  ∀ k, fs' !! k = fs !! k ∨ (P k ∧ is_Some (fs' !! k)).

(** A computation is tame for [P] when it leaves the call log alone,
    touches the file system within [P] only, never raises [RuntimeError]
    and never runs out of fuel. *)
Definition tame_at {A} (P : list string → Prop) (m : M A) (w : world) : Prop :=
  ∀ r w',
    m w = (r, w') →
    w_log w' = w_log w
    ∧ touches P (w_fs w) (w_fs w')
    ∧ (∀ msg, r ≠ Raise (RuntimeError msg))
    ∧ r ≠ Fuel.

Definition tame {A} (P : list string → Prop) (m : M A) : Prop :=
  ∀ w, tame_at P m w.

(** Two digests that differ at most in the case of their hex letters. *)
Definition same_hex_up_to_case (a b : string) : Prop :=
  Str.lower a = Str.lower b.

(** The seven field names of a manifest, in the order they are written. *)
Definition manifest_fields : list string :=
  [ "name"; "source_url"; "archive_name"; "checksum"; "prepared_at";
    "dataset_path"; "archive_path" ].

(* ===================================================================== *)
(** ** Notions used in the further properties                             *)
(* ===================================================================== *)

(** The string has a slash in it. *)
Fixpoint has_slash (s : string) : bool :=
  match s with
  | EmptyString => false
  | String c s' => Ascii.eqb c "/" || has_slash s'
  end.

(** A plain file name: one path component that names an entry, so no
    slash, and not empty, [.] or [..]. *)
Definition plain_name (s : string) : bool :=
  negb (has_slash s) && Pathlib.keep_part s && negb (String.eqb s "..").

(** A lowercase hexadecimal digit. *)
Definition is_hex_lower (c : ascii) : bool :=
  let n := nat_of_ascii c in
  ((48 <=? n) && (n <=? 57)) || ((97 <=? n) && (n <=? 102)).

(** A character [json.dump] may write as it is: printable ASCII, or the
    newline of the indentation. *)
Definition is_plain_ascii (c : ascii) : bool :=
  let n := nat_of_ascii c in
  ((32 <=? n) && (n <=? 126)) || (n =? 10).

Fixpoint all_chars (f : ascii → bool) (s : string) : bool :=
  match s with
  | EmptyString => true
  | String c s' => f c && all_chars f s'
  end.

(** Whether a device limit leaves room for [n] bytes, and what it keeps of
    the bytes written to a file. *)
Definition fits (limit : option nat) (n : nat) : bool :=
  match limit with
  | None => true
  | Some q => n <=? q
  end.

Definition kept (limit : option nat) (data : list byte) : list byte :=
  match limit with
  | None => data
  | Some q => firstn q data
  end.

(** No component of the path is [..]: the path names the same entry
    whether or not the directories on the way exist. *)
Definition dotdot_free (p : Path) : bool :=
  forallb (fun c => negb (String.eqb c "..")) (Pathlib.parts p).

(** The [content-length] header is missing, or [int] reads it. *)
Definition length_readable (env : Env) (content_length : option string) : bool :=
  match content_length with
  | None => true
  | Some s =>
      match Str.to_int (int_max_str_digits env) s with
      | Some _ => true
      | None => false
      end
  end.

(** How [_download] ends once the archive file is open, for a body of
    [chunks] that is [complete] or cut short. *)
Definition download_result (limit : option nat) (chunks : list (list byte))
    (complete : bool) : result unit :=
  if fits limit (length (concat chunks))
  then (if complete then Ok tt else Raise RequestException)
  else Raise OSError.

(* ===================================================================== *)
(** ** A small data set, used in the examples                             *)
(* ===================================================================== *)

Module Toy.

(** The archive: three bytes; its MD5 digest is the checksum below. *)
Definition archive : list byte := encode "toy".

Definition toy_class : DatasetClass :=
  {| name := "Toy Set";
     url := "http://example.org/toy.tar.gz";
     checksum := "10016b6ed5a5b09be08133fa2d282636";
     archive_name := "toy.tar.gz";
     extracted_dir := "toy" |}.

(** The instance [__init__] builds for the root ["data"]. *)
Definition toy : Dataset :=
  {| cls := toy_class;
     root := Pathlib.of_str "data";
     manifest_path := Pathlib.of_str "data" // manifest_name toy_class |}.

(** The same data set with its checksum written in capitals. *)
Definition toy_upper : Dataset :=
  {| cls := {| name := "Toy Set";
               url := "http://example.org/toy.tar.gz";
               checksum := "10016B6ED5A5B09BE08133FA2D282636";
               archive_name := "toy.tar.gz";
               extracted_dir := "toy" |};
     root := Pathlib.of_str "data";
     manifest_path := Pathlib.of_str "data" // manifest_name toy_class |}.

(** *** The library of the examples

    What [tarfile] (as of Python 3.11) does with two small archives of
    regular members.  Missing directories above the destination are
    created, as by [os.makedirs]. *)

Fixpoint mkdirs (fs : filesystem) (pre ks : list string)
  : option library_exn * filesystem :=
  match ks with
  | [] => (None, fs)
  | c :: ks' =>
      let k := pre ++ [c] in
      match fs !! k with
      | Some (File _) => (Some NotADirectoryError, fs)
      | Some Dir => mkdirs fs k ks'
      | None => mkdirs (<[k := Dir]> fs) k ks'
      end
  end.

(** A regular member written at [k], whose directory is there; [room] is
    what the device takes for the file. *)
Definition put_file (room : option nat) (fs : filesystem) (k : list string)
    (data : list byte) : option library_exn * filesystem :=
  match lookup_node fs k with
  | Some Dir => (Some IsADirectoryError, fs)
  | _ =>
      (if fits room (length data) then None else Some OSError,
       <[k := File (kept room data)]> fs)
  end.

(** [archive] unpacks to a directory [toy] with the file [toy/a.txt] in
    it; any other file is not an archive. *)
Definition unpack (room : option nat) (data : list byte) (dst : list string)
    (fs : filesystem) : option library_exn * filesystem :=
  if negb (String.eqb (string_of_list_byte data) "toy") then (Some ReadError, fs)
  else
    match mkdirs fs [] dst with
    | (Some e, fs0) => (Some e, fs0)
    | (None, fs0) =>
        match lookup_node fs0 (dst ++ ["toy"]) with
        | Some (File _) => (Some NotADirectoryError, fs0)
        | Some Dir =>
            put_file room fs0 (dst ++ ["toy"; "a.txt"]) (encode "hello")
        | None =>
            put_file room (<[dst ++ ["toy"] := Dir]> fs0)
                     (dst ++ ["toy"; "a.txt"]) (encode "hello")
        end
    end.

(** Another archive with the same bytes in another world: it unpacks to
    a single file [readme], without the directory [toy]. *)
Definition unpack_flat (data : list byte) (dst : list string)
    (fs : filesystem) : option library_exn * filesystem :=
  if negb (String.eqb (string_of_list_byte data) "toy") then (Some ReadError, fs)
  else
    match mkdirs fs [] dst with
    | (Some e, fs0) => (Some e, fs0)
    | (None, fs0) => put_file None fs0 (dst ++ ["readme"]) (encode "hello")
    end.

(** The file is no archive at all. *)
Definition unreadable (data : list byte) (dst : list string)
    (fs : filesystem) : option library_exn * filesystem :=
  (Some ReadError, fs).

Definition clock : datetime := Datetime 2026 11 4 9 5 3 120.

Definition home : list string := ["home"; "u"].

(** The server declares three bytes and delivers the archive in two
    chunks. *)
Definition env_online : Env :=
  MkEnv home (λ _, Response (Some "3") [encode "to"; encode "y"] true) 4300
        clock (unpack None) (λ _, None).

(** No connection. *)
Definition env_offline : Env :=
  MkEnv home (λ _, ConnectionFailed) 4300 clock (unpack None) (λ _, None).

(** The device takes no more than twenty bytes for a file. *)
Definition env_full : Env :=
  MkEnv home (λ _, ConnectionFailed) 4300 clock (unpack (Some 20))
        (λ _, Some 20).

Definition env_flat : Env :=
  MkEnv home (λ _, ConnectionFailed) 4300 clock unpack_flat (λ _, None).

(** The device takes no more than three bytes for a file. *)
Definition env_small : Env :=
  MkEnv home (λ _, ConnectionFailed) 4300 clock (unpack (Some 3))
        (λ _, Some 3).

(** The archive reader finds no archive in the file. *)
Definition env_unreadable : Env :=
  MkEnv home (λ _, ConnectionFailed) 4300 clock unreadable (λ _, None).

(** The server sends a [content-length] that is no number. *)
Definition env_bad_length : Env :=
  MkEnv home (λ _, Response (Some "3 bytes") [encode "to"; encode "y"] true)
        4300 clock (unpack None) (λ _, None).

Definition root_key : list string := ["home"; "u"; "data"].

(** The file system right after [__init__]: the root directory. *)
Definition fs_fresh : filesystem :=
  list_to_map [ (["home"], Dir); (["home"; "u"], Dir); (root_key, Dir) ].

(** The archive is there. *)
Definition fs_archived : filesystem :=
  <[root_key ++ ["toy.tar.gz"] := File archive]> fs_fresh.

(** A wrong archive is there. *)
Definition fs_corrupt : filesystem :=
  <[root_key ++ ["toy.tar.gz"] := File (encode "tox")]> fs_fresh.

(** The extracted directory and a manifest are there, the archive is
    not. *)
Definition fs_prepared : filesystem :=
  <[root_key ++ ["toy"] := Dir]>
    (<[root_key ++ ["toy_set.manifest.json"] := File (encode "{}")]>
       fs_fresh).

(** The archive and a manifest left by an earlier run are there, the
    extracted directory is not. *)
Definition fs_stale : filesystem :=
  <[root_key ++ ["toy_set.manifest.json"] := File (encode "{}")]> fs_archived.

(** The world before a manifest is written on a full device, and the
    world after: the manifest path holds twenty bytes of the record. *)
Definition w_prepared : world := World fs_prepared [].

Definition w_truncated : world :=
  World (<[root_key ++ ["toy_set.manifest.json"] :=
             File (firstn 20 (manifest_bytes env_full toy))]> fs_prepared)
        [WriteManifest].

(** The world an extraction leaves that created [toy] and then ran out
    of room three bytes into [toy/a.txt]. *)
Definition w_half : world :=
  World (<[root_key ++ ["toy"; "a.txt"] := File (encode "hel")]>
           (<[root_key ++ ["toy"] := Dir]> fs_stale))
        [Verify; Extract].

(** A file of two chunks and five bytes. *)
Definition big_file : list byte := repeat x00 (2 * CHUNK_SIZE + 5).

Definition fs_big : filesystem :=
  <[root_key ++ ["toy.tar.gz"] := File big_file]> fs_fresh.

(** What [_md5] returns for a file of [n] zero bytes. *)
Definition md5_of_zeros (n : nat) : result string :=
  fst (_md5 env_offline (archive_path toy)
         (World (<[root_key ++ ["toy.tar.gz"] := File (repeat x00 n)]>
                   fs_fresh) [])).

End Toy.

(** Further situations of the toy data set. *)

Module Edge.

(** The working directory is there, the root directory [data] is not. *)
Definition fs_home : filesystem :=
  list_to_map [ (["home"], Dir); (["home"; "u"], Dir) ].

(** A regular file is where the root directory should be. *)
Definition fs_root_is_file : filesystem :=
  list_to_map [ (["home"], Dir); (["home"; "u"], Dir);
                (Toy.root_key, File (encode "x")) ].

(** A directory is where the archive should be. *)
Definition fs_archive_is_dir : filesystem :=
  <[Toy.root_key ++ ["toy.tar.gz"] := Dir]> Toy.fs_fresh.

(** The server delivers other bytes than the archive. *)
Definition env_corrupt : Env :=
  MkEnv Toy.home (λ _, Response None [encode "tox"] true) 4300 Toy.clock
        (Toy.unpack None) (λ _, None).

(** The world after a first, successful run with a connection. *)
Definition w_done : world :=
  snd (prepare Toy.env_online Toy.toy (World Toy.fs_fresh [])).

(** The world the extraction of that run left. *)
Definition w_extracted : world :=
  snd (_extract Toy.env_online Toy.toy
         (World Toy.fs_archived [Download; Verify])).

(** The world after a run without a connection that found the archive on
    the disk. *)
Definition w_done_offline : world :=
  snd (prepare Toy.env_offline Toy.toy (World Toy.fs_archived [])).

(** The archive unpacks to a single file: the world its extraction
    leaves, and the world after the call. *)
Definition w_flat_extracted : world :=
  snd (_extract Toy.env_flat Toy.toy (World Toy.fs_archived [Verify])).

Definition w_flat_done : world :=
  snd (prepare Toy.env_flat Toy.toy (World Toy.fs_archived [])).

End Edge.

(* ===================================================================== *)
(** * Lemmas and theorems                                                 *)
(* ===================================================================== *)

(** ** MD5: feeding a message in pieces *)

Module MD5Facts.
Import MD5.

Lemma absorb_fuel_enough (fuel1 fuel2 : nat) (r : regs) (l : list byte) :
  length l ≤ fuel1 → length l ≤ fuel2 →
  absorb_fuel fuel1 r l = absorb_fuel fuel2 r l.
Proof.
  revert fuel2 r l.
  induction fuel1 as [|fuel1 IH]; intros fuel2 r l H1 H2.
  - destruct l; [|simpl in H1; lia].
    destruct fuel2; reflexivity.
  - destruct fuel2 as [|fuel2].
    + destruct l; [reflexivity | simpl in H2; lia].
    + cbn [absorb_fuel].
      destruct (64 <=? length l) eqn:E; [|reflexivity].
      apply Nat.leb_le in E.
      apply IH; rewrite length_skipn; lia.
Qed.

Lemma absorb_unfold (r : regs) (l : list byte) :
  absorb r l =
  if 64 <=? length l
  then absorb (compress r (firstn 64 l)) (skipn 64 l)
  else (r, l).
Proof.
  unfold absorb.
  destruct (length l) as [|n] eqn:E.
  - reflexivity.
  - cbn [absorb_fuel]. rewrite E.
    destruct (64 <=? S n) eqn:E'; [|reflexivity].
    apply Nat.leb_le in E'.
    apply absorb_fuel_enough; rewrite length_skipn; lia.
Qed.

Lemma absorb_short (r : regs) (l : list byte) :
  length l < 64 → absorb r l = (r, l).
Proof.
  intros H. rewrite absorb_unfold.
  destruct (64 <=? length l) eqn:E; [|reflexivity].
  apply Nat.leb_le in E. lia.
Qed.

(** Absorbing [l1 ++ l2] is absorbing [l1], then what it left over
    followed by [l2]. *)
Lemma absorb_app (l1 l2 : list byte) (r : regs) :
  absorb r (l1 ++ l2) =
  let '(r', rest) := absorb r l1 in absorb r' (rest ++ l2).
Proof.
  remember (length l1) as n eqn:Hn.
  revert l1 r Hn.
  induction n as [n IH] using lt_wf_ind; intros l1 r Hn.
  rewrite (absorb_unfold r l1).
  destruct (64 <=? length l1) eqn:E.
  - apply Nat.leb_le in E.
    rewrite (absorb_unfold r (l1 ++ l2)).
    replace (64 <=? length (l1 ++ l2)) with true
      by (symmetry; apply Nat.leb_le; rewrite length_app; lia).
    rewrite firstn_app, skipn_app.
    replace (64 - length l1) with 0 by lia.
    rewrite firstn_O, skipn_O, app_nil_r.
    apply (IH (length (skipn 64 l1))); [rewrite length_skipn; lia | reflexivity].
  - reflexivity.
Qed.

Lemma absorb_rest_short (l : list byte) (r : regs) :
  length (snd (absorb r l)) < 64.
Proof.
  remember (length l) as n eqn:Hn.
  revert l r Hn.
  induction n as [n IH] using lt_wf_ind; intros l r Hn.
  rewrite absorb_unfold.
  destruct (64 <=? length l) eqn:E.
  - apply Nat.leb_le in E.
    apply (IH (length (skipn 64 l))); [rewrite length_skipn; lia | reflexivity].
  - apply Nat.leb_gt in E. exact E.
Qed.

Lemma wf_new : wf new.
Proof. unfold wf, new; simpl; lia. Qed.

Lemma wf_update (s : state) (data : list byte) : wf (update s data).
Proof.
  unfold wf, update.
  pose proof (absorb_rest_short (st_buffer s ++ data) (st_regs s)) as H.
  destruct (absorb (st_regs s) (st_buffer s ++ data)); exact H.
Qed.

(** [h.update(a); h.update(b)] is [h.update(a + b)]. *)
Lemma update_app (s : state) (a b : list byte) :
  update (update s a) b = update s (a ++ b).
Proof.
  unfold update at 1 3.
  rewrite app_assoc, (absorb_app (st_buffer s ++ a) b).
  unfold update.
  destruct (absorb (st_regs s) (st_buffer s ++ a)) as [r rest]; simpl.
  destruct (absorb r (rest ++ b)) as [r' rest'].
  f_equal. rewrite length_app. lia.
Qed.

Lemma update_nil (s : state) : wf s → update s [] = s.
Proof.
  intros H. unfold update.
  rewrite app_nil_r, absorb_short by exact H.
  destruct s; simpl. f_equal. lia.
Qed.

(** Feeding the chunks of a message one by one gives the state of
    feeding their concatenation at once. *)
Lemma update_chunks (chunks : list (list byte)) (s : state) :
  wf s → fold_left update chunks s = update s (concat chunks).
Proof.
  revert s. induction chunks as [|c cs IH]; intros s H; simpl.
  - symmetry. apply update_nil, H.
  - rewrite IH by apply wf_update. apply update_app.
Qed.

End MD5Facts.

(** ** The monad *)

Section MonadFacts.

Context {A B : Type}.

Lemma bind_ok (m : M A) (k : A → M B) (w w1 : world) (a : A) :
  m w = (Ok a, w1) → bind m k w = k a w1.
Proof. intros H. unfold bind. rewrite H. reflexivity. Qed.

Lemma bind_raise (m : M A) (k : A → M B) (w w1 : world) (e : exn) :
  m w = (Raise e, w1) → bind m k w = (Raise e, w1).
Proof. intros H. unfold bind. rewrite H. reflexivity. Qed.

(** How a sequence ended tells how its first part ended. *)
Lemma bind_inv (m : M A) (k : A → M B) (w w' : world) (r : result B) :
  bind m k w = (r, w') →
  (∃ a w1, m w = (Ok a, w1) ∧ k a w1 = (r, w'))
  ∨ (∃ e, m w = (Raise e, w') ∧ r = Raise e)
  ∨ (m w = (Fuel, w') ∧ r = Fuel).
Proof.
  unfold bind. destruct (m w) as [[a|e|] w1]; intros H.
  - left. eauto.
  - right. left. inversion H; subst. eauto.
  - right. right. inversion H; subst. eauto.
Qed.

End MonadFacts.

(** ** Reading a file in chunks *)

Section ChunkedRead.

Import MD5 MD5Facts.

(** A chunk followed by what is left after it is what was left before. *)
Lemma read_rest (n pos : nat) (data : list byte) :
  let chunk := firstn n (skipn pos data) in
  chunk ++ skipn (pos + length chunk) data = skipn pos data.
Proof.
  cbn zeta. rewrite Nat.add_comm, <- skipn_skipn.
  generalize (skipn pos data) as rest. intros rest.
  destruct (le_lt_dec n (length rest)) as [Hle|Hlt].
  - rewrite length_firstn, Nat.min_l by exact Hle. apply firstn_skipn.
  - rewrite firstn_all2 by lia. rewrite skipn_all. apply app_nil_r.
Qed.

(** With fuel for every byte left, the read loop ends, and the hash
    object has been fed exactly the bytes from the position on. *)
Lemma md5_loop_spec (n : nat) (data : list byte) :
  0 < n →
  ∀ (fuel pos : nat) (h : state),
    wf h →
    length data - pos < fuel →
    md5_loop fuel n (Reader data pos) h = Some (update h (skipn pos data)).
Proof.
  intros Hn fuel.
  induction fuel as [|fuel IH]; intros pos h Hwf Hfuel; [lia|].
  cbn [md5_loop read r_data r_pos].
  pose proof (read_rest n pos data) as Hrest. cbn zeta in Hrest.
  destruct (firstn n (skipn pos data)) as [|b chunk] eqn:E.
  - assert (skipn pos data = []) as ->.
    { destruct (skipn pos data); [reflexivity|].
      destruct n; [lia | discriminate]. }
    rewrite update_nil by exact Hwf. reflexivity.
  - rewrite IH.
    + rewrite update_app, Hrest. reflexivity.
    + apply wf_update.
    + assert (length (b :: chunk) ≤ length (skipn pos data)) as Hlen.
      { rewrite <- E, length_firstn. lia. }
      rewrite length_skipn in Hlen. simpl in Hlen. simpl. lia.
Qed.

Lemma md5_loop_total (data : list byte) :
  md5_loop (S (length data)) CHUNK_SIZE (Reader data 0) new
  = Some (update new data).
Proof.
  rewrite (md5_loop_spec CHUNK_SIZE data).
  - reflexivity.
  - apply Nat.ltb_lt. vm_compute. reflexivity.
  - apply wf_new.
  - lia.
Qed.

End ChunkedRead.

(** ** The methods, one by one *)

Section MethodFacts.

Variable env : Env.

Lemma open_rb_file (p : Path) (w : world) (data : list byte) :
  lookup_node (w_fs w) (key env p) = Some (File data) →
  open_rb env p w = (Ok data, w).
Proof.
  intros H. unfold open_rb, bind, get_fs. rewrite H. reflexivity.
Qed.

(** [_md5] on a regular file: the digest of its content, the world as it
    was. *)
Lemma _md5_file (p : Path) (w : world) (data : list byte) :
  lookup_node (w_fs w) (key env p) = Some (File data) →
  _md5 env p w = (Ok (MD5.md5_hex data), w).
Proof.
  intros H. unfold _md5.
  rewrite (bind_ok _ _ _ _ _ (open_rb_file p w data H)).
  rewrite md5_loop_total. reflexivity.
Qed.

End MethodFacts.

(** C6.  For every byte sequence stored in a file, [_md5], which feeds the
    file to the hash object in chunks of [CHUNK_SIZE] bytes, returns the
    digest of the whole content fed in a single call; the file system is
    left as it was.  Empty files, files shorter than a chunk, of exactly one
    chunk and of several chunks plus a remainder are all covered. *)
Theorem chunked_md5_is_one_pass_md5
  (env : Env) (path : Path) (w : world) (data : list byte) :
  lookup_node (w_fs w) (key env path) = Some (File data) →
  _md5 env path w = (Ok (MD5.hexdigest (MD5.update MD5.new data)), w).
Proof. apply _md5_file. Qed.

(** A file of two chunks and five bytes. *)
Lemma chunked_md5_witness :
  _md5 Toy.env_offline (archive_path Toy.toy) (World Toy.fs_big [])
  = (Ok (MD5.hexdigest (MD5.update MD5.new Toy.big_file)), World Toy.fs_big []).
Proof.
  apply (chunked_md5_is_one_pass_md5 Toy.env_offline (archive_path Toy.toy)
           (World Toy.fs_big []) Toy.big_file).
  vm_compute. reflexivity.
Defined.

(** ** What a computation may touch *)

Lemma lookup_node_cons (fs : filesystem) (k : list string) :
  k ≠ [] → lookup_node fs k = fs !! k.
Proof. destruct k; [congruence | reflexivity]. Qed.

(** A regular file is never at the root. *)
Lemma file_key_nonempty (fs : filesystem) (k : list string) (data : list byte) :
  lookup_node fs k = Some (File data) → k ≠ [].
Proof. intros H ->. discriminate. Qed.

Section Touches.

Implicit Types (P Q : list string → Prop) (fs : filesystem).

Lemma touches_refl P fs : touches P fs fs.
Proof. intros k. left. reflexivity. Qed.

Lemma touches_trans P fs1 fs2 fs3 :
  touches P fs1 fs2 → touches P fs2 fs3 → touches P fs1 fs3.
Proof.
  intros H12 H23 k.
  destruct (H23 k) as [E23|[HP S3]]; [|right; split; assumption].
  rewrite E23. apply H12.
Qed.

Lemma touches_insert P fs (k : list string) (v : node) :
  P k → touches P fs (<[k := v]> fs).
Proof.
  intros HP k'. destruct (decide (k = k')) as [<-|Hne].
  - right. split; [exact HP|]. rewrite lookup_insert_eq. eauto.
  - left. apply lookup_insert_ne, Hne.
Qed.

(** Outside [P] nothing changes. *)
Lemma touches_frame P fs fs' (k : list string) :
  touches P fs fs' → ¬ P k → fs' !! k = fs !! k.
Proof. intros H HnP. destruct (H k) as [E|[HP _]]; [exact E | tauto]. Qed.

End Touches.

Section Tame.

Context {A B : Type}.
Implicit Types (P Q : list string → Prop).

Lemma tame_ret P (a : A) : tame P (ret a).
Proof.
  intros w r w' H. inversion H; subst.
  repeat split; [apply touches_refl | discriminate | discriminate].
Qed.

Lemma tame_raise P (e : exn) :
  (∀ msg, e ≠ RuntimeError msg) → tame P (raise e : M A).
Proof.
  intros He w r w' H. inversion H; subst.
  repeat split; [apply touches_refl | | discriminate].
  intros msg [= E]. exact (He msg E).
Qed.

Lemma tame_bind P (m : M A) (k : A → M B) :
  tame P m → (∀ a, tame P (k a)) → tame P (bind m k).
Proof.
  intros Hm Hk w r w' H.
  apply bind_inv in H as [(a & w1 & H1 & H2)|[(e & H1 & ->)|[H1 ->]]].
  - destruct (Hm _ _ _ H1) as (L1 & T1 & _ & _).
    destruct (Hk a _ _ _ H2) as (L2 & T2 & R2 & F2).
    repeat split; [congruence | eapply touches_trans; eassumption | exact R2 | exact F2].
  - destruct (Hm _ _ _ H1) as (L1 & T1 & R1 & _).
    repeat split; [exact L1 | exact T1 | | discriminate].
    intros msg [= ->]. exact (R1 msg eq_refl).
  - destruct (Hm _ _ _ H1) as (_ & _ & _ & F1). congruence.
Qed.

Lemma tame_at_bind P (m : M A) (k : A → M B) (w : world) :
  (∀ r w1, m w = (r, w1) →
     (∀ msg, r ≠ Raise (RuntimeError msg)) ∧ r ≠ Fuel
     ∧ w_log w1 = w_log w ∧ touches P (w_fs w) (w_fs w1)
     ∧ ∀ a, r = Ok a → tame_at P (k a) w1) →
  tame_at P (bind m k) w.
Proof.
  intros Hm r w' H.
  apply bind_inv in H as [(a & w1 & H1 & H2)|[(e & H1 & ->)|[H1 ->]]].
  - destruct (Hm _ _ H1) as (_ & _ & L1 & T1 & K).
    destruct (K a eq_refl _ _ H2) as (L2 & T2 & R2 & F2).
    repeat split; [congruence | eapply touches_trans; eassumption | exact R2 | exact F2].
  - destruct (Hm _ _ H1) as (R1 & _ & L1 & T1 & _).
    repeat split; [exact L1 | exact T1 | | discriminate].
    intros msg [= ->]. exact (R1 msg eq_refl).
  - destruct (Hm _ _ H1) as (_ & F1 & _). congruence.
Qed.

End Tame.

Lemma tame_for_each {X} (P : list string → Prop) (xs : list X)
    (body : X → M unit) :
  (∀ x, x ∈ xs → tame P (body x)) → tame P (for_each xs body).
Proof.
  induction xs as [|x xs IH]; intros H; cbn [for_each].
  - apply tame_ret.
  - apply tame_bind.
    + apply H. left.
    + intros _. apply IH. intros y Hy. apply H. right. exact Hy.
Qed.

(** ** The file operations are tame *)

(** Unfold a primitive at a world, split on what it looks up, and settle
    the four parts of [tame]. *)
Ltac prim_cases H :=
  repeat match type of H with
         | context [lookup_node ?fs ?k] =>
             let E := fresh "E" in
             destruct (lookup_node fs k) as [[?|]|] eqn:E; simpl in H
         | context [@lookup _ _ _ _ ?k ?fs] =>
             let E := fresh "E" in
             destruct (@lookup _ _ _ _ k fs) as [[?|]|] eqn:E; simpl in H
         | context [if ?x then _ else _] =>
             let E := fresh "E" in destruct x eqn:E; simpl in H
         end.

Ltac tame_done :=
  simpl; repeat split;
  first [ reflexivity | discriminate | apply touches_refl
        | apply touches_insert; solve [auto]
        | (eapply touches_trans; apply touches_insert; solve [auto])
        | idtac ].

Section FileOpsTame.

Variable env : Env.
Implicit Types (P : list string → Prop) (k : list string).

Lemma tame_write P k (data : list byte) : P k → tame P (write env k data).
Proof.
  intros HP w r w' H.
  unfold write, bind, get_fs, put_fs, ret, raise in H.
  prim_cases H; inversion H; subst; tame_done.
Qed.

Lemma tame_open_w P (p : Path) : P (key env p) → tame P (open_w env p).
Proof.
  intros HP w r w' H.
  unfold open_w, check_parent, bind, get_fs, put_fs, ret, raise in H.
  prim_cases H; inversion H; subst; tame_done.
Qed.

(** A successful [open_w] hands back the key of its path, which now
    holds an empty file. *)
Lemma open_w_ok (p : Path) (w w1 : world) k :
  open_w env p w = (Ok k, w1) →
  k = key env p ∧ k ≠ []
  ∧ w_fs w1 = <[k := File []]> (w_fs w) ∧ w_log w1 = w_log w.
Proof.
  intros H.
  unfold open_w, check_parent, bind, get_fs, put_fs, ret, raise in H.
  destruct (lookup_node (w_fs w) (key env p)) as [[old|]|] eqn:E;
    simpl in H;
    try discriminate;
    (destruct (lookup_node (w_fs w) (removelast (key env p))) as [[?|]|];
     simpl in H; inversion H; subst; simpl;
     repeat split; try reflexivity;
     intros Hnil; rewrite Hnil in E; discriminate).
Qed.

(** Open for writing, then go on with the handle. *)
Lemma tame_open_w_then {A} P (p : Path) (cont : list string → M A) :
  P (key env p) →
  tame P (cont (key env p)) →
  tame P (bind (open_w env p) cont).
Proof.
  intros HP Hc w. apply tame_at_bind. intros r w1 H1.
  destruct (tame_open_w P p HP _ _ _ H1) as (L & T & R & F).
  refine (conj R (conj F (conj L (conj T _)))).
  intros a ->. apply open_w_ok in H1 as (-> & _). apply Hc.
Qed.

End FileOpsTame.

(** ** The methods of [Dataset], one by one *)

Ltac events_ok :=
  repeat (apply List.Forall_cons;
          [first [left; reflexivity | right; reflexivity]|]);
  apply List.Forall_nil.

Section MethodSpecs.

Variable env : Env.
Variable self : Dataset.

Let ka := key env (archive_path self).
Let ke := key env (extracted_path self).
Let km := key env (manifest_path self).

(** Logging first: the rest runs in the world with the longer log. *)
Lemma log_then {A} (e : event) (m : M A) (w : world) :
  (log e ;; m) w = m (World (w_fs w) (w_log w ++ [e])).
Proof. reflexivity. Qed.

(** [prepare] is the test of step 1 followed by the pipeline. *)
Lemma prepare_eq (w : world) :
  prepare env self w =
  if prepared env self (w_fs w)
  then (Ok (extracted_path self), w)
  else pipeline env self w.
Proof.
  unfold prepare, prepared, pipeline, verify_onwards, fetch_if_missing,
    path_exists, bind, get_fs, ret.
  destruct (node_exists (w_fs w) (key env (extracted_path self))
            && node_exists (w_fs w) (key env (manifest_path self)));
    reflexivity.
Qed.

Lemma fetch_if_missing_eq (w : world) :
  fetch_if_missing env self w =
  if node_exists (w_fs w) ka then (Ok tt, w) else _download env self w.
Proof.
  unfold fetch_if_missing, path_exists, bind, get_fs, ret. fold ka.
  destruct (node_exists (w_fs w) ka); reflexivity.
Qed.

(** [_download] logs itself, touches the archive only, and fails with
    transport or file-system errors only. *)
Lemma _download_spec (w w' : world) (r : result unit) :
  _download env self w = (r, w') →
  w_log w' = w_log w ++ [Download]
  ∧ touches (eq ka) (w_fs w) (w_fs w')
  ∧ (∀ msg, r ≠ Raise (RuntimeError msg))
  ∧ r ≠ Fuel.
Proof.
  unfold _download. rewrite log_then. intros H.
  assert (tame (eq ka)
            (match http_get env (url (cls self)) with
             | ConnectionFailed => raise RequestException
             | Response content_length chunks complete =>
                 let* total := declared_total env content_length in
                 let* f := open_w env (archive_path self) in
                 for_each chunks (λ chunk, write env f chunk) ;;
                 (if complete then ret tt else raise RequestException)
             end)) as T.
  { destruct (http_get env (url (cls self))) as [|header chunks complete].
    - apply tame_raise. discriminate.
    - apply tame_bind.
      + unfold declared_total. destruct header as [s|]; [|apply tame_ret].
        destruct (Str.to_int _ s); [apply tame_ret|].
        apply tame_raise. discriminate.
      + intros _. apply tame_open_w_then; [reflexivity|].
        apply tame_bind.
        * apply tame_for_each. intros chunk _. apply tame_write. reflexivity.
        * intros _. destruct complete;
            [apply tame_ret | apply tame_raise; discriminate]. }
  destruct (T _ _ _ H) as (L & T' & R & F).
  simpl in L, T'. auto.
Qed.

(** [_md5] where there is no regular file. *)
Lemma _md5_dir (p : Path) (w : world) :
  lookup_node (w_fs w) (key env p) = Some Dir →
  _md5 env p w = (Raise IsADirectoryError, w).
Proof.
  intros H. unfold _md5, open_rb, bind, get_fs. rewrite H. reflexivity.
Qed.

Lemma _md5_missing (p : Path) (w : world) :
  lookup_node (w_fs w) (key env p) = None →
  _md5 env p w = (Raise FileNotFoundError, w).
Proof.
  intros H. unfold _md5, open_rb, bind, get_fs. rewrite H. reflexivity.
Qed.

(** [_verify] on a regular file: pass on equal strings; otherwise the
    archive is removed and the integrity error raised. *)
Lemma _verify_file (w : world) (data : list byte) :
  lookup_node (w_fs w) ka = Some (File data) →
  _verify env self w =
  if String.eqb (MD5.md5_hex data) (checksum (cls self))
  then (Ok tt, World (w_fs w) (w_log w ++ [Verify]))
  else (Raise (RuntimeError (mismatch_message self)),
        World (delete ka (w_fs w)) (w_log w ++ [Verify])).
Proof.
  intros H. unfold _verify. rewrite log_then.
  rewrite (bind_ok _ _ _ _ _ (_md5_file env _ (World _ _) data H)).
  destruct (String.eqb (MD5.md5_hex data) (checksum (cls self)));
    [reflexivity|].
  cbn [negb]. unfold unlink_missing_ok, bind, get_fs, put_fs, raise.
  fold ka. cbn [w_fs]. rewrite H. reflexivity.
Qed.

Lemma _verify_dir (w : world) :
  lookup_node (w_fs w) ka = Some Dir →
  _verify env self w =
  (Raise IsADirectoryError, World (w_fs w) (w_log w ++ [Verify])).
Proof.
  intros H. unfold _verify. rewrite log_then.
  rewrite (bind_raise _ _ _ _ _ (_md5_dir _ (World _ _) H)). reflexivity.
Qed.

Lemma _verify_missing (w : world) :
  lookup_node (w_fs w) ka = None →
  _verify env self w =
  (Raise FileNotFoundError, World (w_fs w) (w_log w ++ [Verify])).
Proof.
  intros H. unfold _verify. rewrite log_then.
  rewrite (bind_raise _ _ _ _ _ (_md5_missing _ (World _ _) H)). reflexivity.
Qed.

(** All the ways [_verify] can end. *)
Lemma _verify_spec (w w' : world) (r : result unit) :
  _verify env self w = (r, w') →
  w_log w' = w_log w ++ [Verify]
  ∧ ((∃ data, lookup_node (w_fs w) ka = Some (File data)
             ∧ MD5.md5_hex data = checksum (cls self)
             ∧ r = Ok tt ∧ w_fs w' = w_fs w)
     ∨ (∃ data, lookup_node (w_fs w) ka = Some (File data)
               ∧ MD5.md5_hex data ≠ checksum (cls self)
               ∧ r = Raise (RuntimeError (mismatch_message self))
               ∧ w_fs w' = delete ka (w_fs w))
     ∨ (∃ e, (∀ data, lookup_node (w_fs w) ka ≠ Some (File data))
             ∧ r = Raise e ∧ (∀ msg, e ≠ RuntimeError msg)
             ∧ w_fs w' = w_fs w)).
Proof.
  destruct (lookup_node (w_fs w) ka) as [[data|]|] eqn:E.
  - rewrite (_verify_file w data E).
    destruct (String.eqb_spec (MD5.md5_hex data) (checksum (cls self)));
      intros [= <- <-]; (split; [reflexivity|]).
    + left. eauto.
    + right. left. eauto.
  - rewrite (_verify_dir w E). intros [= <- <-].
    split; [reflexivity|]. right. right.
    exists IsADirectoryError. repeat split; discriminate.
  - rewrite (_verify_missing w E). intros [= <- <-].
    split; [reflexivity|]. right. right.
    exists FileNotFoundError. repeat split; discriminate.
Qed.

(** [_extract] on a regular file: the library is handed its bytes and
    the root directory; the outcome and the file system left are the
    library's. *)
Lemma _extract_file (w : world) (data : list byte) :
  lookup_node (w_fs w) ka = Some (File data) →
  _extract env self w =
  (match fst (tar_extractall env data (key env (root self)) (w_fs w)) with
   | None => Ok tt
   | Some e => Raise e
   end,
   World (snd (tar_extractall env data (key env (root self)) (w_fs w)))
         (w_log w ++ [Extract])).
Proof.
  intros H. unfold _extract. rewrite log_then.
  rewrite (bind_ok _ _ _ _ _ (open_rb_file env _ (World _ _) data H)).
  unfold extractall, bind, get_fs, put_fs, ret, raise. cbn [w_fs w_log].
  destruct (tar_extractall env data (key env (root self)) (w_fs w))
    as [[e|] fs']; reflexivity.
Qed.

(** All the ways [_extract] can end: it logs itself; where the archive
    path holds no regular file it raises without calling the library;
    otherwise what happens is the library's doing, which is no
    [RuntimeError]. *)
Lemma _extract_spec (w w' : world) (r : result unit) :
  _extract env self w = (r, w') →
  w_log w' = w_log w ++ [Extract]
  ∧ (∀ msg, r ≠ Raise (RuntimeError msg))
  ∧ r ≠ Fuel
  ∧ ((∃ data, lookup_node (w_fs w) ka = Some (File data)
              ∧ w_fs w'
                = snd (tar_extractall env data (key env (root self)) (w_fs w))
              ∧ r = match fst (tar_extractall env data (key env (root self))
                                (w_fs w)) with
                    | None => Ok tt
                    | Some e => Raise e
                    end)
     ∨ ((∀ data, lookup_node (w_fs w) ka ≠ Some (File data))
        ∧ w_fs w' = w_fs w ∧ ∃ e, r = Raise e)).
Proof.
  destruct (lookup_node (w_fs w) ka) as [[data|]|] eqn:E.
  - rewrite (_extract_file w data E). intros [= <- <-].
    split; [reflexivity|].
    destruct (tar_extractall env data (key env (root self)) (w_fs w))
      as [[e|] fs'] eqn:T; cbn [fst snd];
      (split; [discriminate|]); (split; [discriminate|]);
      left; exists data; rewrite T; auto.
  - unfold _extract. rewrite log_then.
    unfold open_rb, bind, get_fs, raise. cbn [w_fs]. fold ka. rewrite E.
    intros [= <- <-].
    split; [reflexivity|]. split; [discriminate|]. split; [discriminate|].
    right. split; [discriminate|]. split; [reflexivity|]. eauto.
  - unfold _extract. rewrite log_then.
    unfold open_rb, bind, get_fs, raise. cbn [w_fs]. fold ka. rewrite E.
    intros [= <- <-].
    split; [reflexivity|]. split; [discriminate|]. split; [discriminate|].
    right. split; [discriminate|]. split; [reflexivity|]. eauto.
Qed.

(** All the ways [_write_manifest] can end: the complete record, a
    truncated one when the device has no room for it, or nothing written
    when the file cannot be opened. *)
Lemma _write_manifest_spec (w w' : world) (r : result unit) :
  _write_manifest env self w = (r, w') →
  w_log w' = w_log w ++ [WriteManifest]
  ∧ ((r = Ok tt ∧ km ≠ []
      ∧ w_fs w' = <[km := File (manifest_bytes env self)]> (w_fs w))
     ∨ (∃ q, quota env km = Some q
             ∧ q < length (manifest_bytes env self)
             ∧ r = Raise OSError ∧ km ≠ []
             ∧ w_fs w' =
               <[km := File (firstn q (manifest_bytes env self))]> (w_fs w))
     ∨ (∃ e, r = Raise e ∧ (∀ msg, e ≠ RuntimeError msg)
             ∧ w_fs w' = w_fs w)).
Proof.
  unfold _write_manifest. rewrite log_then. cbn zeta.
  fold (manifest_bytes env self).
  intros H.
  apply bind_inv in H as [(k & w1 & H1 & H2)|[(e & H1 & ->)|[H1 ->]]].
  - apply open_w_ok in H1 as (-> & Hk & Hfs & Hlog).
    fold km in Hk, Hfs, H2. cbn [w_fs w_log] in Hfs, Hlog.
    unfold write, bind, get_fs, put_fs, raise in H2.
    rewrite Hfs, lookup_insert_eq in H2. cbn [length app] in H2.
    rewrite insert_insert_eq in H2.
    destruct (quota env km) as [q|] eqn:Q.
    + rewrite Nat.sub_0_r in H2.
      destruct (length (manifest_bytes env self) <=? q) eqn:Hq;
        inversion H2; subst; cbn [w_log w_fs]; rewrite Hlog;
        (split; [reflexivity|]).
      * left. auto.
      * right. left. exists q. apply Nat.leb_gt in Hq.
        rewrite insert_insert_eq. auto.
    + rewrite Nat.leb_refl in H2. inversion H2; subst.
      cbn [w_log w_fs]. rewrite Hlog. split; [reflexivity|]. left. auto.
  - destruct (tame_open_w env (eq km) (manifest_path self) eq_refl _ _ _ H1)
      as (L & T & R & F).
    cbn [w_log w_fs] in L. split; [exact L|].
    right. right. exists e. split; [reflexivity|]. split.
    + intros msg ->. exact (R msg eq_refl).
    + unfold open_w, check_parent, bind, get_fs, put_fs, ret, raise in H1.
      cbn [w_fs] in H1.
      destruct (lookup_node (w_fs w) (key env (manifest_path self)))
        as [[?|]|]; simpl in H1;
        try (destruct (lookup_node (w_fs w)
               (removelast (key env (manifest_path self)))) as [[?|]|];
             simpl in H1);
        inversion H1; reflexivity.
  - destruct (tame_open_w env (eq km) (manifest_path self) eq_refl _ _ _ H1)
      as (_ & _ & _ & F). congruence.
Qed.

(** Past the download step, [prepare] logs [Verify] first, then at most
    [Extract] and [WriteManifest]; it never runs out of fuel. *)
Lemma verify_onwards_log (w w' : world) (r : result Path) :
  verify_onwards env self w = (r, w') →
  ∃ l, w_log w' = w_log w ++ Verify :: l
       ∧ Forall (λ e, e = Extract ∨ e = WriteManifest) l
       ∧ r ≠ Fuel.
Proof.
  unfold verify_onwards. intros H.
  apply bind_inv in H as [(a & w1 & H1 & H2)|[(e & H1 & ->)|[H1 ->]]];
    apply _verify_spec in H1 as (L1 & C1);
    [ | exists []; rewrite L1; repeat split; [constructor | discriminate]
      | destruct C1 as [(? & ? & ? & ? & ?)|[(? & ? & ? & ? & ?)|(? & ? & ? & ?)]];
        discriminate ].
  apply bind_inv in H2 as [(a2 & w2 & H2 & H3)|[(e & H2 & ->)|[H2 ->]]];
    apply _extract_spec in H2 as (L2 & _ & F2 & _);
    [ | exists [Extract]; rewrite L2, L1, <- app_assoc;
        repeat split; [events_ok | discriminate]
      | congruence ].
  apply bind_inv in H3 as [(a3 & w3 & H3 & H4)|[(e & H3 & ->)|[H3 ->]]];
    apply _write_manifest_spec in H3 as (L3 & C3);
    [ inversion H4; subst
    | | destruct C3 as [(? & ?)|[(? & ? & ? & ? & ?)|(? & ? & ?)]];
        discriminate ].
  all: exists [Extract; WriteManifest]; rewrite L3, L2, L1, <- !app_assoc;
    repeat split; [events_ok | discriminate].
Qed.

End MethodSpecs.

(** Paths are resolved against the working directory only. *)
Lemma key_cwd (env1 env2 : Env) (p : Path) :
  cwd env1 = cwd env2 → key env1 p = key env2 p.
Proof. intros H. unfold key. rewrite H. reflexivity. Qed.

Lemma prepared_cwd (env1 env2 : Env) (self : Dataset) (fs : filesystem) :
  cwd env1 = cwd env2 → prepared env1 self fs = prepared env2 self fs.
Proof.
  intros H. unfold prepared. rewrite !(key_cwd env1 env2) by exact H.
  reflexivity.
Qed.

Lemma prefix_append (s t : string) : String.prefix s (s +:+ t) = true.
Proof.
  induction s as [|c s IH]; [destruct t; reflexivity|].
  simpl. destruct (ascii_dec c c); [exact IH | congruence].
Qed.
(** ** [_download]: what reaches the disk *)

Section DownloadFacts.

Variable env : Env.

(** Writing chunks one after the other is writing their concatenation,
    cut where the device has no more room. *)
Lemma for_each_write_spec (k : list string) (chunks : list (list byte)) :
  ∀ (w : world) (old : list byte),
    w_fs w !! k = Some (File old) →
    fits (quota env k) (length old) = true →
    for_each chunks (write env k) w =
    (if fits (quota env k) (length (old ++ concat chunks))
     then Ok tt else Raise OSError,
     World (<[k := File (kept (quota env k) (old ++ concat chunks))]> (w_fs w))
           (w_log w)).
Proof.
  induction chunks as [|c cs IH]; intros w old Hold Hfit.
  - cbn [for_each concat]. rewrite app_nil_r, Hfit. unfold ret.
    assert (kept (quota env k) old = old) as ->.
    { unfold kept, fits in *. destruct (quota env k); [|reflexivity].
      apply Nat.leb_le in Hfit. apply firstn_all2. exact Hfit. }
    rewrite insert_id by exact Hold. destruct w; reflexivity.
  - cbn [for_each concat].
    unfold bind at 1, write at 1, bind at 1, get_fs. rewrite Hold.
    unfold fits, kept in *.
    destruct (quota env k) as [q|] eqn:Q.
    + apply Nat.leb_le in Hfit.
      destruct (length c <=? q - length old) eqn:Hc.
      * apply Nat.leb_le in Hc. cbn [put_fs].
        rewrite (IH _ (old ++ c)); cbn [w_fs w_log].
        -- rewrite insert_insert_eq, <- app_assoc. reflexivity.
        -- apply lookup_insert_eq.
        -- apply Nat.leb_le. rewrite length_app. lia.
      * apply Nat.leb_gt in Hc. cbn [bind put_fs raise].
        replace (length (old ++ c ++ concat cs) <=? q) with false
          by (symmetry; apply Nat.leb_gt; rewrite !length_app; lia).
        unfold bind, put_fs, raise. cbn [w_fs w_log].
        do 3 f_equal.
        rewrite firstn_app, (firstn_all2 old) by exact Hfit.
        rewrite firstn_app.
        replace (q - length old - length c) with 0 by lia.
        rewrite firstn_O, app_nil_r. reflexivity.
    + rewrite Nat.leb_refl. cbn [put_fs].
      rewrite (IH _ (old ++ c)); cbn [w_fs w_log].
      * rewrite insert_insert_eq, <- app_assoc. reflexivity.
      * apply lookup_insert_eq.
      * reflexivity.
Qed.

Variable self : Dataset.

(** [int] on the header, by [length_readable]. *)
Lemma declared_total_spec (header : option string) (w : world) :
  ∃ n, declared_total env header w
       = (if length_readable env header then Ok n else Raise ValueError, w).
Proof.
  unfold declared_total, length_readable.
  destruct header as [s|]; [|exists 0%Z; reflexivity].
  destruct (Str.to_int (int_max_str_digits env) s) as [n|];
    [exists n | exists 0%Z]; reflexivity.
Qed.

(** Where nothing is at the archive path and the directory it goes into
    is there, [_download] in closed form. *)
Lemma _download_closed_form (w : world) :
  lookup_node (w_fs w) (key env (archive_path self)) = None →
  lookup_node (w_fs w) (removelast (key env (archive_path self))) = Some Dir →
  _download env self w =
  match http_get env (url (cls self)) with
  | ConnectionFailed =>
      (Raise RequestException, World (w_fs w) (w_log w ++ [Download]))
  | Response content_length chunks complete =>
      if length_readable env content_length
      then (download_result (quota env (key env (archive_path self)))
              chunks complete,
            World (<[key env (archive_path self) :=
                       File (kept (quota env (key env (archive_path self)))
                               (concat chunks))]> (w_fs w))
                  (w_log w ++ [Download]))
      else (Raise ValueError, World (w_fs w) (w_log w ++ [Download]))
  end.
Proof.
  intros Hnone Hparent. unfold _download. rewrite log_then.
  destruct (http_get env (url (cls self))) as [|header chunks complete];
    [reflexivity|].
  destruct (declared_total_spec header (World (w_fs w) (w_log w ++ [Download])))
    as [n Hn].
  unfold bind at 1. rewrite Hn.
  destruct (length_readable env header); [|reflexivity].
  unfold bind at 1, open_w, bind at 1, get_fs. cbn [w_fs].
  rewrite Hnone.
  unfold bind at 1, check_parent, bind at 1, get_fs. cbn [w_fs].
  rewrite Hparent. cbn [ret put_fs bind].
  unfold bind at 1.
  rewrite (for_each_write_spec _ chunks _ []);
    [ | apply lookup_insert_eq
      | unfold fits; destruct (quota env _); reflexivity ].
  cbn [w_fs w_log app]. rewrite insert_insert_eq.
  unfold download_result.
  destruct (fits (quota env (key env (archive_path self)))
              (length (concat chunks))); [|reflexivity].
  destruct complete; reflexivity.
Qed.

(** A download that returns normally: the header was readable, the body
    complete, and the archive path holds the chunks of the body. *)
Lemma _download_ok_inv (w w' : world) :
  _download env self w = (Ok tt, w') →
  ∃ header chunks,
    http_get env (url (cls self)) = Response header chunks true
    ∧ length_readable env header = true
    ∧ lookup_node (w_fs w') (key env (archive_path self))
      = Some (File (concat chunks))
    ∧ (∀ k, k ≠ key env (archive_path self) → w_fs w' !! k = w_fs w !! k).
Proof.
  intros H.
  pose proof (_download_spec _ _ _ _ _ H) as (_ & T & _).
  unfold _download in H. rewrite log_then in H.
  destruct (http_get env (url (cls self))) as [|header chunks complete];
    [discriminate|].
  destruct (declared_total_spec header (World (w_fs w) (w_log w ++ [Download])))
    as [n Hn].
  unfold bind at 1 in H. rewrite Hn in H.
  destruct (length_readable env header) eqn:Hh; [|discriminate].
  apply bind_inv in H as [(k & w1 & H1 & H2)|[(e & _ & [=])|[_ [=]]]].
  apply open_w_ok in H1 as (-> & Hk & Hfs & _).
  apply bind_inv in H2 as [([] & w2 & H2 & H3)|[(e & _ & [=])|[_ [=]]]].
  rewrite (for_each_write_spec _ chunks w1 []) in H2;
    [ | rewrite Hfs; apply lookup_insert_eq
      | unfold fits; destruct (quota env _); reflexivity ].
  cbn [app] in H2.
  destruct (fits (quota env (key env (archive_path self)))
              (length (concat chunks))) eqn:Hfit; [|discriminate].
  destruct complete; [|discriminate].
  inversion H2; subst w2. inversion H3; subst w'.
  exists header, chunks. split; [reflexivity|]. split; [exact Hh|]. split.
  - rewrite lookup_node_cons by exact Hk. cbn [w_fs].
    rewrite lookup_insert_eq. do 2 f_equal.
    unfold kept, fits in *. destruct (quota env _); [|reflexivity].
    apply Nat.leb_le in Hfit. apply firstn_all2, Hfit.
  - intros k Hne. apply (touches_frame _ _ _ _ T). congruence.
Qed.

End DownloadFacts.


(* ===================================================================== *)
(** * The claims                                                          *)
(* ===================================================================== *)

(** C1.  In every file system where the extracted path and the manifest
    path both exist, [prepare] returns the extracted path and leaves the
    world exactly as it was: nothing is downloaded, verified or extracted
    (the call log is unchanged) and no file is touched.  Whether the
    archive is there plays no part. *)
Theorem prepare_short_circuit (env : Env) (self : Dataset) (w : world) :
  node_exists (w_fs w) (key env (extracted_path self)) = true →
  node_exists (w_fs w) (key env (manifest_path self)) = true →
  prepare env self w = (Ok (extracted_path self), w).
Proof.
  intros He Hm. rewrite prepare_eq. unfold prepared. rewrite He, Hm.
  reflexivity.
Qed.

(** The extracted directory and a manifest are there, the archive is not,
    and no server can be reached: [prepare] succeeds. *)
Lemma prepare_short_circuit_witness :
  node_exists Toy.fs_prepared (key Toy.env_offline (archive_path Toy.toy))
  = false
  ∧ prepare Toy.env_offline Toy.toy (World Toy.fs_prepared [])
    = (Ok (extracted_path Toy.toy), World Toy.fs_prepared []).
Proof.
  split; [vm_compute; reflexivity|].
  apply (prepare_short_circuit Toy.env_offline Toy.toy
           (World Toy.fs_prepared [])); vm_compute; reflexivity.
Defined.

(** C2.  When [prepare] gets past step 1 and the download step (if it ran)
    succeeded, and the digest of the file at the archive path is not the
    expected checksum, [prepare] raises the integrity error, whose message
    starts with the name of the data set; afterwards nothing exists at the
    archive path, every other path holds what it held before the call, and
    [_write_manifest] was not entered.  Removing the archive with
    [unlink(missing_ok=True)] succeeds as well when nothing is there. *)
Theorem integrity_failure_removes_archive
  (env : Env) (self : Dataset) (w w1 : world) (data : list byte) :
  prepared env self (w_fs w) = false →
  fetch_if_missing env self w = (Ok tt, w1) →
  lookup_node (w_fs w1) (key env (archive_path self)) = Some (File data) →
  MD5.md5_hex data ≠ checksum (cls self) →
  ∃ w',
    prepare env self w = (Raise (RuntimeError (mismatch_message self)), w')
    ∧ String.prefix (name (cls self)) (mismatch_message self) = true
    ∧ node_exists (w_fs w') (key env (archive_path self)) = false
    ∧ (∀ k, k ≠ key env (archive_path self) → w_fs w' !! k = w_fs w !! k)
    ∧ (∃ l, w_log w' = w_log w ++ l ∧ WriteManifest ∉ l)
    ∧ (∀ w0, lookup_node (w_fs w0) (key env (archive_path self)) = None →
             unlink_missing_ok env (archive_path self) w0 = (Ok tt, w0)).
Proof.
  intros Hprep Hfetch Hfile Hne.
  set (ka := key env (archive_path self)) in *.
  exists (World (delete ka (w_fs w1)) (w_log w1 ++ [Verify])).
  pose proof (file_key_nonempty _ _ _ Hfile) as Hka.
  split; [|split; [|split; [|split; [|split]]]].
  - rewrite prepare_eq, Hprep. unfold pipeline, verify_onwards.
    rewrite (bind_ok _ _ _ _ _ Hfetch).
    apply bind_raise. rewrite (_verify_file env self w1 data Hfile).
    destruct (String.eqb_spec (MD5.md5_hex data) (checksum (cls self)));
      [contradiction | reflexivity].
  - apply prefix_append.
  - unfold node_exists. rewrite lookup_node_cons by exact Hka.
    cbn [w_fs]. rewrite lookup_delete_eq. reflexivity.
  - intros k Hk. cbn [w_fs]. rewrite lookup_delete_ne by congruence.
    rewrite fetch_if_missing_eq in Hfetch. fold ka in Hfetch.
    destruct (node_exists (w_fs w) ka).
    + inversion Hfetch; subst. reflexivity.
    + apply _download_spec in Hfetch as (_ & T & _).
      apply (touches_frame _ _ _ _ T). intros E. exact (Hk (eq_sym E)).
  - rewrite fetch_if_missing_eq in Hfetch. fold ka in Hfetch. cbn [w_log].
    destruct (node_exists (w_fs w) ka).
    + inversion Hfetch; subst. exists [Verify]. split; [reflexivity|].
      intros Hin. apply list_elem_of_In in Hin. simpl in Hin.
      destruct Hin as [?|[]]; discriminate.
    + apply _download_spec in Hfetch as (L & _). rewrite L, <- app_assoc.
      exists [Download; Verify]. split; [reflexivity|].
      intros Hin. apply list_elem_of_In in Hin. simpl in Hin.
      destruct Hin as [?|[?|[]]]; discriminate.
  - intros w0 H0. unfold unlink_missing_ok, bind, get_fs, ret.
    fold ka. rewrite H0. reflexivity.
Qed.

(** A wrong archive is on the disk: the call fails and removes it. *)
Lemma integrity_failure_witness :
  ∃ w',
    prepare Toy.env_offline Toy.toy (World Toy.fs_corrupt [])
    = (Raise (RuntimeError (mismatch_message Toy.toy)), w')
    ∧ String.prefix (name (cls Toy.toy)) (mismatch_message Toy.toy) = true
    ∧ node_exists (w_fs w') (key Toy.env_offline (archive_path Toy.toy))
      = false
    ∧ (∀ k, k ≠ key Toy.env_offline (archive_path Toy.toy) →
            w_fs w' !! k = Toy.fs_corrupt !! k)
    ∧ (∃ l, w_log w' = [] ++ l ∧ WriteManifest ∉ l)
    ∧ (∀ w0, lookup_node (w_fs w0)
               (key Toy.env_offline (archive_path Toy.toy)) = None →
             unlink_missing_ok Toy.env_offline (archive_path Toy.toy) w0
             = (Ok tt, w0)).
Proof.
  apply (integrity_failure_removes_archive Toy.env_offline Toy.toy
           (World Toy.fs_corrupt []) (World Toy.fs_corrupt [])
           (encode "tox")).
  - vm_compute. reflexivity.
  - vm_compute. reflexivity.
  - vm_compute. reflexivity.
  - vm_compute. discriminate.
Defined.

(** ** Getting to the verify step, and what an integrity failure leaves *)

Section Inversions.

Variable env : Env.
Variable self : Dataset.

Let ka := key env (archive_path self).

(** The download step touches nothing but the archive. *)
Lemma fetch_if_missing_spec (w w0 : world) (r : result unit) :
  fetch_if_missing env self w = (r, w0) →
  touches (eq ka) (w_fs w) (w_fs w0)
  ∧ (∀ msg, r ≠ Raise (RuntimeError msg))
  ∧ r ≠ Fuel
  ∧ (w_log w0 = w_log w ∨ w_log w0 = w_log w ++ [Download]).
Proof.
  rewrite fetch_if_missing_eq. fold ka.
  destruct (node_exists (w_fs w) ka).
  - intros [= <- <-].
    repeat split; [apply touches_refl | discriminate | discriminate | auto].
  - intros H. apply _download_spec in H as (L & T & R & F). auto.
Qed.

(** Past the verify step nothing raises [RuntimeError]. *)
Lemma after_verify_quiet (w w' : world) (r : result Path) :
  (_extract env self ;; _write_manifest env self ;;
   ret (extracted_path self)) w = (r, w') →
  ∀ msg, r ≠ Raise (RuntimeError msg).
Proof.
  intros H msg.
  apply bind_inv in H as [(a & w1 & H1 & H2)|[(e & H1 & ->)|[H1 ->]]];
    [ | apply _extract_spec in H1 as (_ & R & _);
        intros [= ->]; exact (R msg eq_refl)
      | discriminate ].
  apply bind_inv in H2 as [(a2 & w2 & H2 & H3)|[(e & H2 & ->)|[H2 ->]]];
    [ inversion H3; discriminate | | discriminate ].
  apply _write_manifest_spec in H2
    as (_ & [(? & _)|[(q & _ & _ & ? & _)|(e' & ? & R & _)]]);
    try discriminate.
  all: intros E; inversion E; subst; inversion H; subst.
  exact (R msg eq_refl).
Qed.

(** A [RuntimeError] out of [prepare] is the integrity error of
    [_verify]: the archive was a regular file with another digest, and
    it has been removed. *)
Lemma integrity_failure_inv (w w1 : world) (msg : string) :
  prepare env self w = (Raise (RuntimeError msg), w1) →
  prepared env self (w_fs w) = false
  ∧ ∃ w0 data,
      fetch_if_missing env self w = (Ok tt, w0)
      ∧ lookup_node (w_fs w0) ka = Some (File data)
      ∧ MD5.md5_hex data ≠ checksum (cls self)
      ∧ msg = mismatch_message self
      ∧ w_fs w1 = delete ka (w_fs w0)
      ∧ w_log w1 = w_log w0 ++ [Verify].
Proof.
  rewrite prepare_eq.
  destruct (prepared env self (w_fs w)); [discriminate|].
  intros H. split; [reflexivity|].
  unfold pipeline in H.
  apply bind_inv in H as [([] & w0 & H1 & H2)|[(e & H1 & [= <-])|[H1 ?]]];
    [ | apply fetch_if_missing_spec in H1 as (_ & R & _);
        destruct (R msg eq_refl)
      | discriminate ].
  exists w0. unfold verify_onwards in H2.
  apply bind_inv in H2 as [(a & w2 & H2 & H3)|[(e & H2 & [= <-])|[H2 ?]]];
    [ destruct (after_verify_quiet _ _ _ H3 msg eq_refl) | | discriminate ].
  apply _verify_spec in H2
    as (L & [(data & _ & _ & ? & _)|[(data & F & Hne & [= ->] & D)
                                    |(e & _ & [= <-] & R & _)]]);
    [ discriminate | | destruct (R msg eq_refl) ].
  exists data. repeat split; assumption.
Qed.

(** What exists once the archive is removed after the download step
    existed before the call. *)
Lemma exists_after_removal (fs fs0 : filesystem) (k : list string) :
  touches (eq ka) fs fs0 →
  node_exists (delete ka fs0) k = true → node_exists fs k = true.
Proof.
  intros T. unfold node_exists, lookup_node.
  destruct k as [|c k]; [tauto|].
  destruct (decide (ka = c :: k)) as [E|Hne].
  - rewrite <- E, lookup_delete_eq. discriminate.
  - rewrite lookup_delete_ne by exact Hne.
    rewrite (touches_frame _ _ _ _ T Hne). tauto.
Qed.

End Inversions.

(** The loops of the model always have fuel enough: [prepare] ends with a
    value or an exception. *)
Lemma prepare_total (env : Env) (self : Dataset) (w : world) :
  fst (prepare env self w) ≠ Fuel.
Proof.
  rewrite prepare_eq.
  destruct (prepared env self (w_fs w)); [discriminate|].
  destruct (pipeline env self w) as [r w'] eqn:E. cbn [fst].
  unfold pipeline in E.
  apply bind_inv in E as [([] & w1 & H1 & H2)|[(e & H1 & ->)|[H1 ->]]].
  - apply verify_onwards_log in H2 as (_ & _ & _ & F). exact F.
  - discriminate.
  - apply fetch_if_missing_spec in H1 as (_ & _ & F & _).
    destruct (F eq_refl).
Qed.

(** With no connection the download step raises; the error propagates
    and the verify step is not entered: the call log holds [Download]
    only. *)
Example download_failure_propagates :
  prepared Toy.env_offline Toy.toy Toy.fs_fresh = false
  ∧ prepare Toy.env_offline Toy.toy (World Toy.fs_fresh [])
    = (Raise RequestException, World Toy.fs_fresh [Download]).
Proof. split; vm_compute; reflexivity. Qed.

(** C3.  Whenever [prepare] gets past step 1, the verify step comes right
    after the download step.  An archive that existed before the call
    makes the download step a no-op that cannot fail, so [_verify] is
    always entered then; after a download that returned, the archive path
    holds a regular file and [_verify] is entered as well.  On a regular
    file [_verify] computes the digest and compares it with the expected
    checksum: equal, the step passes, otherwise the archive is removed and
    the integrity error raised.  The one way past step 1 that does not
    reach [_verify] is an exception out of [_download], which propagates
    as the transport or file-system error it is. *)
Theorem verify_runs_after_fetch
  (env : Env) (self : Dataset) (w w' : world) (r : result Path) :
  prepared env self (w_fs w) = false →
  prepare env self w = (r, w') →
  ∃ r1 w1,
    fetch_if_missing env self w = (r1, w1)
    ∧ (node_exists (w_fs w) (key env (archive_path self)) = true →
       r1 = Ok tt ∧ w1 = w)
    ∧ (r1 = Ok tt →
       (∃ l, w_log w' = w_log w1 ++ Verify :: l)
       ∧ (node_exists (w_fs w) (key env (archive_path self)) = false →
          ∃ data, lookup_node (w_fs w1) (key env (archive_path self))
                  = Some (File data))
       ∧ ∀ data,
           lookup_node (w_fs w1) (key env (archive_path self))
           = Some (File data) →
           _verify env self w1 =
           if String.eqb (MD5.md5_hex data) (checksum (cls self))
           then (Ok tt, World (w_fs w1) (w_log w1 ++ [Verify]))
           else (Raise (RuntimeError (mismatch_message self)),
                 World (delete (key env (archive_path self)) (w_fs w1))
                       (w_log w1 ++ [Verify])))
    ∧ (∀ e, r1 = Raise e →
            node_exists (w_fs w) (key env (archive_path self)) = false
            ∧ r = Raise e ∧ w' = w1
            ∧ w_log w' = w_log w ++ [Download]).
Proof.
  intros Hprep H. rewrite prepare_eq, Hprep in H. unfold pipeline in H.
  destruct (fetch_if_missing env self w) as [r1 w1] eqn:Hfetch.
  exists r1, w1. split; [reflexivity|].
  split; [|split].
  - intros Hex. rewrite fetch_if_missing_eq, Hex in Hfetch.
    inversion Hfetch. auto.
  - intros ->. rewrite (bind_ok _ _ _ _ _ Hfetch) in H.
    split; [|split].
    + destruct (verify_onwards_log env self _ _ _ H) as (l & L & _). eauto.
    + intros Hno. rewrite fetch_if_missing_eq, Hno in Hfetch.
      apply _download_ok_inv in Hfetch as (h & chunks & _ & _ & Hf & _).
      eauto.
    + intros data. apply _verify_file.
  - intros e ->. rewrite (bind_raise _ _ _ _ _ Hfetch) in H.
    inversion H; subst.
    rewrite fetch_if_missing_eq in Hfetch.
    destruct (node_exists (w_fs w) (key env (archive_path self)));
      [discriminate|].
    apply _download_spec in Hfetch as (L & _). auto.
Qed.

(** The archive is on the disk and no server can be reached: the archive
    is verified. *)
Lemma verify_runs_after_fetch_witness :
  ∃ r1 w1,
    fetch_if_missing Toy.env_offline Toy.toy (World Toy.fs_archived [])
    = (r1, w1)
    ∧ (node_exists (w_fs (World Toy.fs_archived []))
         (key Toy.env_offline (archive_path Toy.toy)) = true →
       r1 = Ok tt ∧ w1 = World Toy.fs_archived [])
    ∧ (r1 = Ok tt →
       (∃ l, w_log Edge.w_done_offline = w_log w1 ++ Verify :: l)
       ∧ (node_exists (w_fs (World Toy.fs_archived []))
            (key Toy.env_offline (archive_path Toy.toy)) = false →
          ∃ data, lookup_node (w_fs w1)
                    (key Toy.env_offline (archive_path Toy.toy))
                  = Some (File data))
       ∧ ∀ data,
           lookup_node (w_fs w1) (key Toy.env_offline (archive_path Toy.toy))
           = Some (File data) →
           _verify Toy.env_offline Toy.toy w1 =
           if String.eqb (MD5.md5_hex data) (checksum (cls Toy.toy))
           then (Ok tt, World (w_fs w1) (w_log w1 ++ [Verify]))
           else (Raise (RuntimeError (mismatch_message Toy.toy)),
                 World (delete (key Toy.env_offline (archive_path Toy.toy))
                               (w_fs w1))
                       (w_log w1 ++ [Verify])))
    ∧ (∀ e, r1 = Raise e →
            node_exists (w_fs (World Toy.fs_archived []))
              (key Toy.env_offline (archive_path Toy.toy)) = false
            ∧ Ok (extracted_path Toy.toy) = Raise e
            ∧ Edge.w_done_offline = w1
            ∧ w_log Edge.w_done_offline
              = w_log (World Toy.fs_archived []) ++ [Download]).
Proof.
  refine (verify_runs_after_fetch Toy.env_offline Toy.toy
            (World Toy.fs_archived []) Edge.w_done_offline
            (Ok (extracted_path Toy.toy)) _ _);
    vm_compute; reflexivity.
Defined.

(** C4.  After a call to [prepare] that failed with the integrity error,
    nothing exists at the archive path; a second call in the file system
    the first one left (same working directory, any network, clock and
    archive reader) therefore enters [_download] first. *)
Theorem retry_after_integrity_failure
  (env1 env2 : Env) (self : Dataset) (w w1 : world) (msg : string) :
  cwd env2 = cwd env1 →
  prepare env1 self w = (Raise (RuntimeError msg), w1) →
  node_exists (w_fs w1) (key env2 (archive_path self)) = false
  ∧ ∃ r w2 l, prepare env2 self w1 = (r, w2)
              ∧ w_log w2 = w_log w1 ++ Download :: l.
Proof.
  intros Hcwd H.
  apply integrity_failure_inv in H
    as (Hprep & w0 & data & Hfetch & Hfile & _ & _ & Hfs & _).
  pose proof (file_key_nonempty _ _ _ Hfile) as Hka.
  apply fetch_if_missing_spec in Hfetch as (T & _).
  rewrite !(key_cwd env2 env1) by exact Hcwd.
  assert (node_exists (w_fs w1) (key env1 (archive_path self)) = false) as Hgone.
  { unfold node_exists. rewrite lookup_node_cons by exact Hka.
    rewrite Hfs, lookup_delete_eq. reflexivity. }
  split; [exact Hgone|].
  rewrite prepare_eq.
  assert (prepared env2 self (w_fs w1) = false) as ->.
  { rewrite (prepared_cwd env2 env1) by exact Hcwd.
    destruct (prepared env1 self (w_fs w1)) eqn:P; [|reflexivity].
    unfold prepared in P. apply andb_prop in P as [P1 P2].
    rewrite Hfs in P1, P2.
    apply (exists_after_removal env1 self _ _ _ T) in P1, P2.
    unfold prepared in Hprep. rewrite P1, P2 in Hprep. discriminate. }
  unfold pipeline, bind at 1.
  rewrite fetch_if_missing_eq, (key_cwd env2 env1) by exact Hcwd.
  rewrite Hgone.
  destruct (_download env2 self w1) as [[[]|e|] w'] eqn:D;
    pose proof (_download_spec _ _ _ _ _ D) as (L & _).
  - destruct (verify_onwards env2 self w') as [r w2] eqn:V.
    destruct (verify_onwards_log _ _ _ _ _ V) as (l & L2 & _).
    exists r, w2, (Verify :: l). split; [reflexivity|].
    rewrite L2, L, <- app_assoc. reflexivity.
  - exists (Raise e), w', []. auto.
  - exists Fuel, w', []. auto.
Qed.

(** A wrong archive is on the disk; the first call removes it, the second
    one, now with a connection, downloads. *)
Lemma retry_after_integrity_failure_witness :
  node_exists Toy.fs_fresh (key Toy.env_online (archive_path Toy.toy)) = false
  ∧ ∃ r w2 l, prepare Toy.env_online Toy.toy (World Toy.fs_fresh [Verify])
              = (r, w2)
              ∧ w_log w2 = [Verify] ++ Download :: l.
Proof.
  apply (retry_after_integrity_failure Toy.env_offline Toy.env_online Toy.toy
           (World Toy.fs_corrupt []) (World Toy.fs_fresh [Verify])
           "Toy Set archive checksum mismatch.").
  - reflexivity.
  - vm_compute. reflexivity.
Defined.

(** ** The digest is written in lowercase *)

Section Lowercase.

Lemma lower_append (a b : string) :
  Str.lower (a +:+ b) = Str.lower a +:+ Str.lower b.
Proof.
  unfold Str.lower. induction a as [|c a IH]; [reflexivity|].
  simpl. rewrite IH. reflexivity.
Qed.

Lemma lower_hex_digit (n : Z) :
  Str.lower_char (MD5.hex_digit n) = MD5.hex_digit n.
Proof.
  unfold MD5.hex_digit. generalize (Z.to_nat n) as i. intros i.
  do 16 (destruct i as [|i]; [reflexivity|]).
  destruct i; reflexivity.
Qed.

Lemma lower_hex (bs : list byte) : Str.lower (MD5.hex bs) = MD5.hex bs.
Proof.
  induction bs as [|b bs IH]; [reflexivity|].
  cbn [MD5.hex fold_right]. fold (MD5.hex bs).
  rewrite lower_append, IH. f_equal.
  unfold MD5.hex_of_byte, Str.lower. cbn [Str.map_chars].
  rewrite !lower_hex_digit. reflexivity.
Qed.

Lemma lower_md5_hex (data : list byte) :
  Str.lower (MD5.md5_hex data) = MD5.md5_hex data.
Proof. apply lower_hex. Qed.

End Lowercase.

(** C7, as stated, fails: the checksum of this data set is the digest of
    the archive on the disk written in capitals; the two are equal up to
    the case of the hex letters, yet [_verify] removes the archive and
    raises the integrity error. *)
Lemma uppercase_checksum_rejected :
  lookup_node Toy.fs_archived (key Toy.env_offline (archive_path Toy.toy_upper))
  = Some (File Toy.archive)
  ∧ same_hex_up_to_case (MD5.md5_hex Toy.archive)
                        (checksum (cls Toy.toy_upper))
  ∧ _verify Toy.env_offline Toy.toy_upper (World Toy.fs_archived [])
    = (Raise (RuntimeError "Toy Set archive checksum mismatch."),
       World Toy.fs_fresh [Verify]).
Proof.
  split; [vm_compute; reflexivity|].
  split; vm_compute; reflexivity.
Qed.

(** C7, amended.  [_verify] compares the digest computed by [_md5], thirty
    two lowercase hex digits, with the expected checksum by exact,
    case-sensitive string equality.  For an archive that is a regular
    file: verification passes if and only if the checksum is that very
    string; with any other checksum [_verify] removes the archive and
    raises the integrity error; so a checksum that equals the digest up to
    the case of its hex letters passes if and only if it is written in
    lowercase, and otherwise costs the archive. *)
Theorem verify_compares_exactly
  (env : Env) (self : Dataset) (w : world) (data : list byte) :
  lookup_node (w_fs w) (key env (archive_path self)) = Some (File data) →
  ((∃ w', _verify env self w = (Ok tt, w'))
   ↔ checksum (cls self) = MD5.md5_hex data)
  ∧ Str.lower (MD5.md5_hex data) = MD5.md5_hex data
  ∧ (checksum (cls self) ≠ MD5.md5_hex data →
     _verify env self w
     = (Raise (RuntimeError (mismatch_message self)),
        World (delete (key env (archive_path self)) (w_fs w))
              (w_log w ++ [Verify]))
     ∧ node_exists (delete (key env (archive_path self)) (w_fs w))
         (key env (archive_path self)) = false)
  ∧ (same_hex_up_to_case (MD5.md5_hex data) (checksum (cls self)) →
     ((∃ w', _verify env self w = (Ok tt, w'))
      ↔ Str.lower (checksum (cls self)) = checksum (cls self))).
Proof.
  intros Hfile.
  pose proof (file_key_nonempty _ _ _ Hfile) as Hk.
  assert ((∃ w', _verify env self w = (Ok tt, w'))
          ↔ checksum (cls self) = MD5.md5_hex data) as Hiff.
  { rewrite (_verify_file env self w data Hfile).
    destruct (String.eqb_spec (MD5.md5_hex data) (checksum (cls self)))
      as [E|Hne].
    - split; [auto | eauto].
    - split; [intros [w' H]; discriminate | intros E; congruence]. }
  split; [exact Hiff|]. split; [apply lower_md5_hex|]. split.
  - intros Hne. split.
    + rewrite (_verify_file env self w data Hfile).
      destruct (String.eqb_spec (MD5.md5_hex data) (checksum (cls self)))
        as [E|_]; [congruence | reflexivity].
    + unfold node_exists. rewrite lookup_node_cons by exact Hk.
      rewrite lookup_delete_eq. reflexivity.
  - unfold same_hex_up_to_case. rewrite lower_md5_hex. intros Hsame.
    rewrite Hiff. split; intros E.
    + rewrite E. apply lower_md5_hex.
    + rewrite <- E. symmetry. exact Hsame.
Qed.

(** The archive with its checksum in lowercase passes. *)
Lemma verify_compares_exactly_witness :
  ((∃ w', _verify Toy.env_offline Toy.toy (World Toy.fs_archived [])
          = (Ok tt, w'))
   ↔ checksum (cls Toy.toy) = MD5.md5_hex Toy.archive)
  ∧ Str.lower (MD5.md5_hex Toy.archive) = MD5.md5_hex Toy.archive
  ∧ (checksum (cls Toy.toy) ≠ MD5.md5_hex Toy.archive →
     _verify Toy.env_offline Toy.toy (World Toy.fs_archived [])
     = (Raise (RuntimeError (mismatch_message Toy.toy)),
        World (delete (key Toy.env_offline (archive_path Toy.toy))
                      (w_fs (World Toy.fs_archived [])))
              (w_log (World Toy.fs_archived []) ++ [Verify]))
     ∧ node_exists (delete (key Toy.env_offline (archive_path Toy.toy))
                           (w_fs (World Toy.fs_archived [])))
         (key Toy.env_offline (archive_path Toy.toy)) = false)
  ∧ (same_hex_up_to_case (MD5.md5_hex Toy.archive) (checksum (cls Toy.toy)) →
     ((∃ w', _verify Toy.env_offline Toy.toy (World Toy.fs_archived [])
             = (Ok tt, w'))
      ↔ Str.lower (checksum (cls Toy.toy)) = checksum (cls Toy.toy))).
Proof.
  refine (verify_compares_exactly Toy.env_offline Toy.toy
            (World Toy.fs_archived []) Toy.archive _).
  vm_compute. reflexivity.
Defined.

(** ** Reading back what [json.dump] wrote *)

Module JsonFacts.
Import Json.

Lemma append_nil (b : string) : EmptyString +:+ b = b.
Proof. reflexivity. Qed.

Lemma append_cons (x : ascii) (a b : string) :
  String x a +:+ b = String x (a +:+ b).
Proof. reflexivity. Qed.

Lemma append_assoc (a b c : string) : (a +:+ b) +:+ c = a +:+ (b +:+ c).
Proof.
  induction a as [|x a IH]; [reflexivity|].
  rewrite !append_cons. f_equal. exact IH.
Qed.

Lemma length_append (a b : string) :
  String.length (a +:+ b) = String.length a + String.length b.
Proof.
  induction a as [|x a IH]; [reflexivity|].
  rewrite append_cons. cbn [String.length]. rewrite IH. reflexivity.
Qed.

(** Push the appends of a text inwards, down to its variable parts. *)
Ltac norm_app :=
  repeat (rewrite append_cons || rewrite append_nil || rewrite append_assoc).

(** Whatever the character, the reader undoes its escape. *)
Lemma read_escape_char (c : ascii) (k : string) :
  read_string (escape_char c +:+ k) = push c (read_string k).
Proof.
  destruct c as [[] [] [] [] [] [] [] []]; reflexivity.
Qed.

Lemma read_escape (s rest : string) :
  read_string (escape s +:+ String dquote rest) = Some (s, rest).
Proof.
  induction s as [|c s IH]; [reflexivity|].
  cbn [escape]. rewrite append_assoc, read_escape_char, IH. reflexivity.
Qed.

Lemma quote_append (s rest : string) :
  quote s +:+ rest = String dquote (escape s +:+ String dquote rest).
Proof. unfold quote. norm_app. reflexivity. Qed.

Lemma expect_hit (c : ascii) (s : string) :
  is_ws c = false → expect c (String c s) = Some s.
Proof.
  intros H. unfold expect. cbn [skip_ws]. rewrite H, Ascii.eqb_refl.
  reflexivity.
Qed.

Lemma expect_ws (c c' : ascii) (s : string) :
  is_ws c' = true → expect c (String c' s) = expect c s.
Proof. intros H. unfold expect. cbn [skip_ws]. rewrite H. reflexivity. Qed.

Lemma read_member_member (kv : string * string) (rest : string) :
  read_member (member kv +:+ rest) = Some (kv, rest).
Proof.
  destruct kv as [k v]. unfold member. cbn [fst snd].
  rewrite !append_assoc, !quote_append. norm_app.
  unfold read_member.
  rewrite expect_hit by reflexivity. cbn [mbind option_bind].
  rewrite read_escape. cbn [mbind option_bind].
  rewrite expect_hit by reflexivity. cbn [mbind option_bind].
  rewrite expect_ws, expect_hit by reflexivity. cbn [mbind option_bind].
  rewrite read_escape. reflexivity.
Qed.

Lemma read_member_ws (c : ascii) (s : string) :
  is_ws c = true → read_member (String c s) = read_member s.
Proof. intros H. unfold read_member. rewrite expect_ws by exact H. reflexivity. Qed.

Lemma read_members_ws (fuel : nat) (c : ascii) (s : string) :
  is_ws c = true → read_members fuel (String c s) = read_members fuel s.
Proof.
  intros Hc. destruct fuel; [reflexivity|].
  cbn [read_members]. rewrite read_member_ws by exact Hc. reflexivity.
Qed.

Lemma members_cons (kv kv' : string * string) (d : dict) :
  members (kv :: kv' :: d)
  = member kv +:+ "," +:+ newline +:+ "  " +:+ members (kv' :: d).
Proof. reflexivity. Qed.

Lemma read_members_more (fuel : nat) (s s2 : string)
    (kv : string * string) :
  read_member s = Some (kv, String "," s2) →
  read_members (S fuel) s =
  match read_members fuel s2 with
  | Some (d, s3) => Some (kv :: d, s3)
  | None => None
  end.
Proof.
  intros H. cbn [read_members]. rewrite H.
  destruct (read_members fuel s2) as [[d s3]|] eqn:E;
    cbn [mbind option_bind]; change (skip_ws (String "," s2)) with (String "," s2);
    change (Ascii.eqb "," ",") with true; cbv iota; rewrite E; reflexivity.
Qed.

Lemma read_members_last (fuel : nat) (s rest : string)
    (kv : string * string) :
  read_member s = Some (kv, newline +:+ String "}" rest) →
  read_members (S fuel) s = Some ([kv], rest).
Proof. intros H. cbn [read_members]. rewrite H. reflexivity. Qed.

Lemma read_members_members (d : dict) :
  d ≠ [] →
  ∀ (fuel : nat) (rest : string),
    length d ≤ fuel →
    read_members fuel (members d +:+ newline +:+ String "}" rest)
    = Some (d, rest).
Proof.
  induction d as [|kv d IH]; [congruence|]. intros _ fuel rest Hfuel.
  destruct fuel as [|fuel]; [simpl in Hfuel; lia|].
  destruct d as [|kv' d].
  - apply read_members_last. cbn [members]. apply read_member_member.
  - rewrite members_cons, !append_assoc.
    rewrite (read_members_more fuel _
               (newline +:+ "  " +:+ members (kv' :: d)
                +:+ newline +:+ String "}" rest) kv)
      by (rewrite read_member_member; reflexivity).
    unfold newline at 1. norm_app.
    rewrite !read_members_ws by reflexivity.
    rewrite IH; [reflexivity | discriminate | simpl in *; lia].
Qed.

Lemma length_members (d : dict) (t : string) :
  length d ≤ String.length (members d +:+ t).
Proof.
  induction d as [|kv d IH]; [simpl; lia|].
  destruct d as [|kv' d].
  - cbn [members length]. unfold member, quote. norm_app.
    cbn [String.length]. lia.
  - rewrite members_cons, !append_assoc, length_append. unfold newline.
    norm_app. cbn [String.length length] in *. lia.
Qed.

Lemma skip_ws_ws (c : ascii) (s : string) :
  is_ws c = true → skip_ws (String c s) = skip_ws s.
Proof. intros H. cbn [skip_ws]. rewrite H. reflexivity. Qed.

Lemma skip_ws_stop (c : ascii) (s : string) :
  is_ws c = false → skip_ws (String c s) = String c s.
Proof. intros H. cbn [skip_ws]. rewrite H. reflexivity. Qed.

(** [json.loads(json.dumps(d, indent=2)) == d] *)
Theorem loads_dumps (d : dict) : loads (dumps d) = Some d.
Proof.
  destruct d as [|kv d]; [reflexivity|].
  set (d' := kv :: d).
  set (body := members d' +:+ newline +:+ String "}" EmptyString).
  assert (∃ rest, body = String dquote rest) as [rest Hrest].
  { unfold body, d'. destruct d; [cbn [members]|rewrite members_cons];
      unfold member at 1; rewrite !append_assoc, quote_append; eauto. }
  change (dumps d')
    with (String "{" (String (ascii_of_nat 10) (String " " (String " " body)))).
  unfold loads.
  rewrite expect_hit by reflexivity. cbn [mbind option_bind].
  rewrite !skip_ws_ws by reflexivity.
  rewrite Hrest at 1. rewrite skip_ws_stop by reflexivity.
  change (Ascii.eqb dquote "}") with false. cbv iota.
  rewrite !read_members_ws by reflexivity.
  unfold body at 2. rewrite read_members_members; [reflexivity | discriminate |].
  pose proof (length_members d' (newline +:+ String "}" EmptyString)) as H.
  fold body in H. cbn [String.length]. lia.
Qed.

End JsonFacts.

(** ** A successful run, step by step *)

Lemma pipeline_ok_inv (env : Env) (self : Dataset) (w w' : world) (p : Path) :
  pipeline env self w = (Ok p, w') →
  ∃ w1 w2 w3,
    fetch_if_missing env self w = (Ok tt, w1)
    ∧ _verify env self w1 = (Ok tt, w2)
    ∧ _extract env self w2 = (Ok tt, w3)
    ∧ _write_manifest env self w3 = (Ok tt, w')
    ∧ p = extracted_path self.
Proof.
  unfold pipeline, verify_onwards. intros H.
  apply bind_inv in H as [([] & w1 & H1 & H)|[(e & _ & [=])|[_ [=]]]].
  apply bind_inv in H as [([] & w2 & H2 & H)|[(e & _ & [=])|[_ [=]]]].
  apply bind_inv in H as [([] & w3 & H3 & H)|[(e & _ & [=])|[_ [=]]]].
  apply bind_inv in H as [([] & w4 & H4 & H)|[(e & _ & [=])|[_ [=]]]].
  inversion H; subst. exists w1, w2, w3. auto.
Qed.

(** ** The fields of the manifest *)

Section ManifestFields.

Import JsonFacts.

Lemma nonempty_by_length (s : string) : 0 < String.length s → s ≠ EmptyString.
Proof. intros H ->. simpl in H. lia. Qed.

Lemma isoformat_nonempty (d : datetime) : isoformat d ≠ EmptyString.
Proof.
  apply nonempty_by_length. unfold isoformat.
  rewrite (length_append (Str.dec 4 (year d))), append_cons.
  cbn [String.length]. lia.
Qed.

(** [str(p.resolve())] starts with a slash. *)
Lemma resolved_is_absolute (cwd : list string) (p : Path) :
  Pathlib.is_absolute (Pathlib.resolve cwd p) = true
  ∧ Str.starts_with_slash (Pathlib.to_str (Pathlib.resolve cwd p)) = true.
Proof. split; reflexivity. Qed.

Lemma slash_nonempty (s : string) :
  Str.starts_with_slash s = true → s ≠ EmptyString.
Proof. intros H ->. discriminate. Qed.

End ManifestFields.

(** C5.  After a successful call to [prepare] that went past step 1, the
    file at the manifest path holds text that [json.loads] reads as an
    object with exactly the seven fields [name], [source_url],
    [archive_name], [checksum], [prepared_at], [dataset_path] and
    [archive_path], in this order; given a non-empty name, URL, archive
    name and checksum, no value is empty; [checksum] is the expected
    checksum of the class, and the two paths start with a slash. *)
Theorem manifest_complete
  (env : Env) (self : Dataset) (w w' : world) (p : Path) :
  prepared env self (w_fs w) = false →
  prepare env self w = (Ok p, w') →
  name (cls self) ≠ EmptyString →
  url (cls self) ≠ EmptyString →
  archive_name (cls self) ≠ EmptyString →
  checksum (cls self) ≠ EmptyString →
  ∃ content d,
    lookup_node (w_fs w') (key env (manifest_path self)) = Some (File content)
    ∧ Json.loads (string_of_list_byte content) = Some d
    ∧ map fst d = manifest_fields
    ∧ Forall (λ kv, snd kv ≠ EmptyString) d
    ∧ Json.get "checksum" d = Some (checksum (cls self))
    ∧ (∃ v, Json.get "dataset_path" d = Some v
            ∧ Str.starts_with_slash v = true)
    ∧ (∃ v, Json.get "archive_path" d = Some v
            ∧ Str.starts_with_slash v = true).
Proof.
  intros Hprep Hrun Hname Hurl Harch Hsum.
  rewrite prepare_eq, Hprep in Hrun.
  apply pipeline_ok_inv in Hrun as (w1 & w2 & w3 & _ & _ & _ & Hw & _).
  apply _write_manifest_spec in Hw
    as (_ & [(_ & Hk & Hfs)|[(q & _ & _ & [=] & _)|(e & [=] & _)]]).
  exists (manifest_bytes env self), (manifest env self).
  split; [|split; [|split; [|split; [|split; [|split]]]]].
  - rewrite lookup_node_cons, Hfs by exact Hk. apply lookup_insert_eq.
  - unfold manifest_bytes, encode.
    rewrite string_of_list_byte_of_string. apply JsonFacts.loads_dumps.
  - reflexivity.
  - unfold manifest.
    repeat (apply List.Forall_cons; [cbn [snd]|]); try apply List.Forall_nil;
      try assumption.
    + apply isoformat_nonempty.
    + apply slash_nonempty, resolved_is_absolute.
    + apply slash_nonempty, resolved_is_absolute.
  - reflexivity.
  - eexists. split; [reflexivity | apply resolved_is_absolute].
  - eexists. split; [reflexivity | apply resolved_is_absolute].
Qed.

(** A first run with a connection: download, verify, extract, manifest. *)
Lemma manifest_complete_witness :
  ∃ content d,
    lookup_node
      (w_fs (snd (prepare Toy.env_online Toy.toy (World Toy.fs_fresh []))))
      (key Toy.env_online (manifest_path Toy.toy)) = Some (File content)
    ∧ Json.loads (string_of_list_byte content) = Some d
    ∧ map fst d = manifest_fields
    ∧ Forall (λ kv, snd kv ≠ EmptyString) d
    ∧ Json.get "checksum" d = Some (checksum (cls Toy.toy))
    ∧ (∃ v, Json.get "dataset_path" d = Some v
            ∧ Str.starts_with_slash v = true)
    ∧ (∃ v, Json.get "archive_path" d = Some v
            ∧ Str.starts_with_slash v = true).
Proof.
  apply (manifest_complete Toy.env_online Toy.toy (World Toy.fs_fresh [])
           (snd (prepare Toy.env_online Toy.toy (World Toy.fs_fresh [])))
           (extracted_path Toy.toy));
    solve [vm_compute; reflexivity | discriminate].
Defined.

(** C9, as stated, fails: on a device that takes twenty bytes for the
    file, the write of the manifest raises and leaves at the manifest path
    the first twenty bytes of the record, which is neither what was there
    before the call nor the complete record. *)
Lemma manifest_left_truncated :
  lookup_node Toy.fs_prepared (key Toy.env_full (manifest_path Toy.toy))
  = Some (File (encode "{}"))
  ∧ fst (_write_manifest Toy.env_full Toy.toy (World Toy.fs_prepared []))
    = Raise OSError
  ∧ lookup_node
      (w_fs (snd (_write_manifest Toy.env_full Toy.toy
                    (World Toy.fs_prepared []))))
      (key Toy.env_full (manifest_path Toy.toy))
    = Some (File (firstn 20 (manifest_bytes Toy.env_full Toy.toy)))
  ∧ firstn 20 (manifest_bytes Toy.env_full Toy.toy) ≠ encode "{}"
  ∧ firstn 20 (manifest_bytes Toy.env_full Toy.toy)
    ≠ manifest_bytes Toy.env_full Toy.toy.
Proof.
  split; [vm_compute; reflexivity|].
  split; [vm_compute; reflexivity|].
  split; [vm_compute; reflexivity|].
  split; vm_compute; discriminate.
Qed.

(** C9, amended.  [_write_manifest] opens the manifest path for writing,
    which truncates the file, and then writes the record; it is not atomic.
    A call ends in one of three ways: the file holds the complete record;
    or the device had no room for all of it, the call raises and the file
    holds a truncated prefix of the record; or the file could not be
    opened, the call raises and the file system is as it was.  No other
    path is touched. *)
Theorem manifest_write_outcomes
  (env : Env) (self : Dataset) (w w' : world) (r : result unit) :
  _write_manifest env self w = (r, w') →
  ((r = Ok tt
    ∧ lookup_node (w_fs w') (key env (manifest_path self))
      = Some (File (manifest_bytes env self)))
   ∨ (∃ q, quota env (key env (manifest_path self)) = Some q
           ∧ q < length (manifest_bytes env self)
           ∧ r = Raise OSError
           ∧ lookup_node (w_fs w') (key env (manifest_path self))
             = Some (File (firstn q (manifest_bytes env self))))
   ∨ (∃ e, r = Raise e ∧ w_fs w' = w_fs w))
  ∧ (∀ k, k ≠ key env (manifest_path self) → w_fs w' !! k = w_fs w !! k).
Proof.
  intros H.
  apply _write_manifest_spec in H
    as (_ & [(-> & Hk & Hfs)|[(q & Hq & Hlt & -> & Hk & Hfs)|(e & -> & _ & Hfs)]]).
  - split.
    + left. split; [reflexivity|].
      rewrite lookup_node_cons, Hfs by exact Hk. apply lookup_insert_eq.
    + intros k Hne. rewrite Hfs. apply lookup_insert_ne. congruence.
  - split.
    + right. left. exists q. repeat split; try assumption.
      rewrite lookup_node_cons, Hfs by exact Hk. apply lookup_insert_eq.
    + intros k Hne. rewrite Hfs. apply lookup_insert_ne. congruence.
  - split.
    + right. right. exists e. auto.
    + intros k _. rewrite Hfs. reflexivity.
Qed.

(** The device is full after twenty bytes: the call raises and leaves a
    manifest behind. *)
Lemma manifest_write_outcomes_witness :
  ((@Raise unit OSError = Ok tt
    ∧ lookup_node (w_fs Toy.w_truncated)
        (key Toy.env_full (manifest_path Toy.toy))
      = Some (File (manifest_bytes Toy.env_full Toy.toy)))
   ∨ (∃ q, quota Toy.env_full (key Toy.env_full (manifest_path Toy.toy))
           = Some q
           ∧ q < length (manifest_bytes Toy.env_full Toy.toy)
           ∧ @Raise unit OSError = Raise OSError
           ∧ lookup_node (w_fs Toy.w_truncated)
               (key Toy.env_full (manifest_path Toy.toy))
             = Some (File (firstn q (manifest_bytes Toy.env_full Toy.toy))))
   ∨ (∃ e, @Raise unit OSError = Raise e
           ∧ w_fs Toy.w_truncated = w_fs Toy.w_prepared))
  ∧ (∀ k, k ≠ key Toy.env_full (manifest_path Toy.toy) →
          w_fs Toy.w_truncated !! k = w_fs Toy.w_prepared !! k).
Proof.
  refine (manifest_write_outcomes Toy.env_full Toy.toy
            Toy.w_prepared Toy.w_truncated (Raise OSError) _).
  vm_compute. reflexivity.
Defined.
(** ** When extraction fails, and when it creates no directory *)

(** C8, as stated, fails.  A manifest left by an earlier run is there, the
    extracted directory is not; the archive passes verification, its first
    member creates the directory [toy], and the device runs out of room
    while its second member is written.  The second call finds the
    extracted path and the manifest path, short-circuits and returns:
    nothing is verified or extracted again. *)
Lemma retry_short_circuits_after_partial_extraction :
  prepared Toy.env_small Toy.toy Toy.fs_stale = false
  ∧ _extract Toy.env_small Toy.toy (World Toy.fs_stale [Verify])
    = (Raise OSError, Toy.w_half)
  ∧ prepare Toy.env_small Toy.toy (World Toy.fs_stale [])
    = (Raise OSError, Toy.w_half)
  ∧ prepare Toy.env_small Toy.toy Toy.w_half
    = (Ok (extracted_path Toy.toy), Toy.w_half).
Proof.
  split; [vm_compute; reflexivity|].
  split; [vm_compute; reflexivity|].
  split; vm_compute; reflexivity.
Qed.

(** C8, amended.  When the extract step raises, the error propagates out
    of [prepare] and [_write_manifest] is not entered.  [prepare] does
    nothing after the failure: the file system is the one the library
    left when it was handed the verified bytes of the archive and the root
    directory; the program itself removes nothing.  What a later call
    (same working directory) does is settled by three existence tests in
    that file system: it short-circuits when the extracted path and the
    manifest path both exist by then; otherwise, when the archive path
    still exists, it enters [_verify] first and never [_download]; and
    when the archive path exists no more, it enters [_download] first. *)
Theorem extract_failure_then_retry
  (env1 env2 : Env) (self : Dataset) (w w1 w2 w3 : world) (e : exn) :
  prepared env1 self (w_fs w) = false →
  fetch_if_missing env1 self w = (Ok tt, w1) →
  _verify env1 self w1 = (Ok tt, w2) →
  _extract env1 self w2 = (Raise e, w3) →
  cwd env2 = cwd env1 →
  prepare env1 self w = (Raise e, w3)
  ∧ (∃ l, w_log w3 = w_log w ++ l ∧ WriteManifest ∉ l)
  ∧ (∃ data,
       lookup_node (w_fs w1) (key env1 (archive_path self)) = Some (File data)
       ∧ MD5.md5_hex data = checksum (cls self)
       ∧ w_fs w3
         = snd (tar_extractall env1 data (key env1 (root self)) (w_fs w1)))
  ∧ (prepared env2 self (w_fs w3) = true →
     prepare env2 self w3 = (Ok (extracted_path self), w3))
  ∧ (prepared env2 self (w_fs w3) = false →
     node_exists (w_fs w3) (key env1 (archive_path self)) = true →
     prepare env2 self w3 = verify_onwards env2 self w3
     ∧ ∀ r w4, prepare env2 self w3 = (r, w4) →
               ∃ l, w_log w4 = w_log w3 ++ Verify :: l ∧ Download ∉ l)
  ∧ (prepared env2 self (w_fs w3) = false →
     node_exists (w_fs w3) (key env1 (archive_path self)) = false →
     ∀ r w4, prepare env2 self w3 = (r, w4) →
             ∃ l, w_log w4 = w_log w3 ++ Download :: l).
Proof.
  intros Hprep Hfetch Hverify Hextract Hcwd.
  pose proof (fetch_if_missing_spec _ _ _ _ _ Hfetch) as (_ & _ & _ & L1).
  pose proof (_verify_spec _ _ _ _ _ Hverify)
    as (L2 & [(data & Hfile & Hsum & _ & Hfs2)
             |[(? & _ & _ & [=] & _)|(? & _ & [=] & _)]]).
  pose proof (_extract_spec _ _ _ _ _ Hextract) as (L3 & _ & _ & C3).
  split; [|split; [|split; [|split; [|split]]]].
  - rewrite prepare_eq, Hprep. unfold pipeline, verify_onwards.
    rewrite (bind_ok _ _ _ _ _ Hfetch), (bind_ok _ _ _ _ _ Hverify).
    apply bind_raise, Hextract.
  - rewrite L3, L2.
    destruct L1 as [-> | ->]; rewrite <- ?app_assoc; eexists;
      (split; [reflexivity|]);
      intros Hin; apply list_elem_of_In in Hin; simpl in Hin;
      repeat (destruct Hin as [Hin|Hin]; [discriminate|]); exact Hin.
  - exists data. split; [exact Hfile|]. split; [exact Hsum|].
    rewrite Hfs2 in C3.
    destruct C3 as [(data' & Hfile' & Hfs3 & _)|(Hnone & _)].
    + rewrite Hfile in Hfile'. injection Hfile' as <-. exact Hfs3.
    + destruct (Hnone data Hfile).
  - intros P. rewrite prepare_eq, P. reflexivity.
  - intros P Hthere.
    assert (prepare env2 self w3 = verify_onwards env2 self w3) as Hretry.
    { rewrite prepare_eq, P. unfold pipeline, bind at 1.
      rewrite fetch_if_missing_eq, (key_cwd env2 env1), Hthere by exact Hcwd.
      reflexivity. }
    split; [exact Hretry|].
    intros r w4. rewrite Hretry. intros H.
    apply verify_onwards_log in H as (l & L & Hl & _).
    exists l. split; [exact L|].
    intros Hin. apply list_elem_of_In in Hin.
    rewrite List.Forall_forall in Hl.
    destruct (Hl _ Hin); discriminate.
  - intros P Hgone r w4. rewrite prepare_eq, P. unfold pipeline. intros H.
    apply bind_inv in H as [([] & w5 & H1 & H2)|[(e' & H1 & ->)|[H1 ->]]];
      rewrite fetch_if_missing_eq, (key_cwd env2 env1), Hgone in H1
        by exact Hcwd;
      apply _download_spec in H1 as (L & _).
    + apply verify_onwards_log in H2 as (l & L' & _).
      exists (Verify :: l). rewrite L', L, <- app_assoc. reflexivity.
    + exists []. exact L.
    + exists []. exact L.
Qed.

(** The file at the archive path passes verification but is no archive:
    extraction raises at once; the next call verifies again. *)
Lemma extract_failure_then_retry_witness :
  prepare Toy.env_unreadable Toy.toy (World Toy.fs_archived [])
  = (Raise ReadError, World Toy.fs_archived [Verify; Extract])
  ∧ (∃ l, w_log (World Toy.fs_archived [Verify; Extract])
          = w_log (World Toy.fs_archived []) ++ l
          ∧ WriteManifest ∉ l)
  ∧ (∃ data,
       lookup_node (w_fs (World Toy.fs_archived []))
         (key Toy.env_unreadable (archive_path Toy.toy)) = Some (File data)
       ∧ MD5.md5_hex data = checksum (cls Toy.toy)
       ∧ w_fs (World Toy.fs_archived [Verify; Extract])
         = snd (tar_extractall Toy.env_unreadable data
                  (key Toy.env_unreadable (root Toy.toy))
                  (w_fs (World Toy.fs_archived []))))
  ∧ (prepared Toy.env_online Toy.toy
       (w_fs (World Toy.fs_archived [Verify; Extract])) = true →
     prepare Toy.env_online Toy.toy (World Toy.fs_archived [Verify; Extract])
     = (Ok (extracted_path Toy.toy), World Toy.fs_archived [Verify; Extract]))
  ∧ (prepared Toy.env_online Toy.toy
       (w_fs (World Toy.fs_archived [Verify; Extract])) = false →
     node_exists (w_fs (World Toy.fs_archived [Verify; Extract]))
       (key Toy.env_unreadable (archive_path Toy.toy)) = true →
     prepare Toy.env_online Toy.toy (World Toy.fs_archived [Verify; Extract])
     = verify_onwards Toy.env_online Toy.toy
         (World Toy.fs_archived [Verify; Extract])
     ∧ ∀ r w4,
         prepare Toy.env_online Toy.toy
           (World Toy.fs_archived [Verify; Extract]) = (r, w4) →
         ∃ l, w_log w4
              = w_log (World Toy.fs_archived [Verify; Extract]) ++ Verify :: l
              ∧ Download ∉ l)
  ∧ (prepared Toy.env_online Toy.toy
       (w_fs (World Toy.fs_archived [Verify; Extract])) = false →
     node_exists (w_fs (World Toy.fs_archived [Verify; Extract]))
       (key Toy.env_unreadable (archive_path Toy.toy)) = false →
     ∀ r w4,
       prepare Toy.env_online Toy.toy
         (World Toy.fs_archived [Verify; Extract]) = (r, w4) →
       ∃ l, w_log w4
            = w_log (World Toy.fs_archived [Verify; Extract]) ++ Download :: l).
Proof.
  refine (extract_failure_then_retry Toy.env_unreadable Toy.env_online Toy.toy
            (World Toy.fs_archived []) (World Toy.fs_archived [])
            (World Toy.fs_archived [Verify])
            (World Toy.fs_archived [Verify; Extract]) ReadError _ _ _ _ _);
    vm_compute; reflexivity.
Defined.

(** C10.  [prepare] does not look at what the extraction created.  When
    the download (if any), the verification, the extraction and the write
    of the manifest succeed, it returns the extracted path, and the
    manifest path holds the complete record; between the end of the
    extraction and the return nothing but the manifest is written.  So
    when the extraction left nothing at the extracted path, nothing is at
    the returned path after the call either, although the manifest is
    there; the next call (same working directory) fails the test of step 1
    and runs the pipeline again. *)
Theorem prepare_returns_unchecked_path
  (env : Env) (self : Dataset) (w w1 w2 w3 w4 : world) :
  prepared env self (w_fs w) = false →
  fetch_if_missing env self w = (Ok tt, w1) →
  _verify env self w1 = (Ok tt, w2) →
  _extract env self w2 = (Ok tt, w3) →
  _write_manifest env self w3 = (Ok tt, w4) →
  prepare env self w = (Ok (extracted_path self), w4)
  ∧ lookup_node (w_fs w4) (key env (manifest_path self))
    = Some (File (manifest_bytes env self))
  ∧ (∀ k, k ≠ key env (manifest_path self) → w_fs w4 !! k = w_fs w3 !! k)
  ∧ (node_exists (w_fs w3) (key env (extracted_path self)) = false →
     key env (manifest_path self) ≠ key env (extracted_path self) →
     node_exists (w_fs w4) (key env (extracted_path self)) = false
     ∧ node_exists (w_fs w4) (key env (manifest_path self)) = true
     ∧ ∀ env2, cwd env2 = cwd env →
               prepare env2 self w4 = pipeline env2 self w4).
Proof.
  intros Hprep Hfetch Hverify Hextract Hwrite.
  pose proof (_write_manifest_spec _ _ _ _ _ Hwrite)
    as (_ & [(_ & Hk & Hfs4)|[(? & _ & _ & [=] & _)|(? & [=] & _)]]).
  assert (lookup_node (w_fs w4) (key env (manifest_path self))
          = Some (File (manifest_bytes env self))) as Hm.
  { rewrite lookup_node_cons, Hfs4 by exact Hk. apply lookup_insert_eq. }
  split; [|split; [|split]].
  - rewrite prepare_eq, Hprep. unfold pipeline, verify_onwards.
    rewrite (bind_ok _ _ _ _ _ Hfetch), (bind_ok _ _ _ _ _ Hverify),
      (bind_ok _ _ _ _ _ Hextract), (bind_ok _ _ _ _ _ Hwrite).
    reflexivity.
  - exact Hm.
  - intros k Hne. rewrite Hfs4. apply lookup_insert_ne. congruence.
  - intros Hnone Hkm.
    set (ke := key env (extracted_path self)) in *.
    assert (ke ≠ []) as Hke by (intros E; rewrite E in Hnone; discriminate).
    assert (node_exists (w_fs w4) ke = false) as Hgone.
    { unfold node_exists in *. rewrite lookup_node_cons in * by exact Hke.
      rewrite Hfs4, lookup_insert_ne by exact Hkm. exact Hnone. }
    split; [exact Hgone|]. split.
    + unfold node_exists. rewrite Hm. reflexivity.
    + intros env2 Hcwd. rewrite prepare_eq. unfold prepared.
      rewrite (key_cwd env2 env) by exact Hcwd. fold ke.
      rewrite Hgone. reflexivity.
Qed.

(** The archive unpacks to a single file [readme]: the call succeeds,
    writes the manifest and returns the path of a directory [toy] that
    does not exist. *)
Lemma prepare_returns_unchecked_path_witness :
  prepare Toy.env_flat Toy.toy (World Toy.fs_archived [])
  = (Ok (extracted_path Toy.toy), Edge.w_flat_done)
  ∧ lookup_node (w_fs Edge.w_flat_done)
      (key Toy.env_flat (manifest_path Toy.toy))
    = Some (File (manifest_bytes Toy.env_flat Toy.toy))
  ∧ (∀ k, k ≠ key Toy.env_flat (manifest_path Toy.toy) →
          w_fs Edge.w_flat_done !! k = w_fs Edge.w_flat_extracted !! k)
  ∧ (node_exists (w_fs Edge.w_flat_extracted)
       (key Toy.env_flat (extracted_path Toy.toy)) = false →
     key Toy.env_flat (manifest_path Toy.toy)
     ≠ key Toy.env_flat (extracted_path Toy.toy) →
     node_exists (w_fs Edge.w_flat_done)
       (key Toy.env_flat (extracted_path Toy.toy)) = false
     ∧ node_exists (w_fs Edge.w_flat_done)
         (key Toy.env_flat (manifest_path Toy.toy)) = true
     ∧ ∀ env2, cwd env2 = cwd Toy.env_flat →
               prepare env2 Toy.toy Edge.w_flat_done
               = pipeline env2 Toy.toy Edge.w_flat_done).
Proof.
  refine (prepare_returns_unchecked_path Toy.env_flat Toy.toy
            (World Toy.fs_archived []) (World Toy.fs_archived [])
            (World Toy.fs_archived [Verify]) Edge.w_flat_extracted
            Edge.w_flat_done _ _ _ _ _);
    vm_compute; reflexivity.
Defined.

(** In that run nothing is at the returned path, and the manifest is
    there. *)
Example returned_path_is_missing :
  node_exists (w_fs Edge.w_flat_done)
    (key Toy.env_flat (extracted_path Toy.toy)) = false
  ∧ node_exists (w_fs Edge.w_flat_done)
      (key Toy.env_flat (manifest_path Toy.toy)) = true.
Proof. split; vm_compute; reflexivity. Qed.

(* ===================================================================== *)
(** * Further properties of the code                                      *)
(* ===================================================================== *)

(** ** [__init__]: the root directory *)

(** [makedirs] leaves every existing node alone; when it succeeds, every
    directory on the way is there. *)
Lemma makedirs_spec (ks pre : list string) (w w' : world) (r : result unit) :
  makedirs pre ks w = (r, w') →
  w_log w' = w_log w
  ∧ (∀ k, w_fs w !! k ≠ None → w_fs w' !! k = w_fs w !! k)
  ∧ r ≠ Fuel
  ∧ (r = Ok tt →
     ∀ ks1, ks1 ≠ [] → ks1 `prefix_of` ks →
            w_fs w' !! (pre ++ ks1) = Some Dir).
Proof.
  revert pre w. induction ks as [|c ks IH]; intros pre w H.
  - inversion H; subst. repeat split; try discriminate.
    intros _ ks1 Hne Hpre. apply prefix_nil_inv in Hpre. contradiction.
  - cbn [makedirs] in H. unfold bind at 1, get_fs in H.
    assert (∀ w0 : world,
              w_fs w0 !! (pre ++ [c]) = Some Dir →
              (∀ ks1, ks1 ≠ [] → ks1 `prefix_of` ks →
                      w_fs w0 !! ((pre ++ [c]) ++ ks1) = Some Dir) →
              ∀ ks1, ks1 ≠ [] → ks1 `prefix_of` c :: ks →
                     w_fs w0 !! (pre ++ ks1) = Some Dir) as Hall.
    { intros w0 H0 Hrest ks1 Hne Hpre.
      destruct ks1 as [|c1 ks1]; [congruence|].
      apply prefix_cons_inv_1 in Hpre as Hc. subst c1.
      apply prefix_cons_inv_2 in Hpre.
      destruct ks1 as [|c2 ks1]; [exact H0|].
      change (pre ++ c :: c2 :: ks1) with (pre ++ [c] ++ c2 :: ks1).
      rewrite app_assoc.
      apply Hrest; [discriminate | exact Hpre]. }
    destruct (w_fs w !! (pre ++ [c])) as [[data|]|] eqn:E.
    + inversion H; subst. repeat split; discriminate.
    + destruct (IH _ _ H) as (L & K & F & D).
      repeat split; try assumption.
      intros Hr. apply (Hall w'); [|apply D, Hr].
      rewrite K by congruence. exact E.
    + apply bind_inv in H as [(a & w1 & H1 & H2)|[(e & H1 & ->)|[H1 ->]]];
        [|inversion H1 | inversion H1].
      inversion H1; subst; clear H1.
      destruct (IH _ _ H2) as (L & K & F & D). cbn [w_fs w_log] in *.
      repeat split; try assumption.
      * intros k Hk. rewrite K.
        -- apply lookup_insert_ne. intros <-. congruence.
        -- rewrite lookup_insert_ne; [exact Hk | intros <-; congruence].
      * intros Hr. apply (Hall w'); [|apply D, Hr].
        rewrite K; rewrite lookup_insert_eq; [reflexivity | discriminate].
Qed.

(** Where the directories are there already, [makedirs] does nothing. *)
Lemma makedirs_noop (ks pre : list string) (w : world) :
  (∀ ks1, ks1 ≠ [] → ks1 `prefix_of` ks →
          w_fs w !! (pre ++ ks1) = Some Dir) →
  makedirs pre ks w = (Ok tt, w).
Proof.
  revert pre. induction ks as [|c ks IH]; intros pre H; [reflexivity|].
  cbn [makedirs]. unfold bind at 1, get_fs.
  rewrite (H [c]); [|discriminate|exists ks; reflexivity].
  apply IH. intros ks1 Hne Hpre.
  rewrite <- app_assoc. apply H; [discriminate|].
  apply prefix_cons, Hpre.
Qed.

(** All the ways [__init__] can end. *)
Lemma init_spec
  (env : Env) (c : DatasetClass) (root_arg : string)
  (w w' : world) (r : result Dataset) :
  __init__ env c root_arg w = (r, w') →
  w_log w' = w_log w
  ∧ (∀ k, w_fs w !! k ≠ None → w_fs w' !! k = w_fs w !! k)
  ∧ r ≠ Fuel
  ∧ (∀ d, r = Ok d →
          cls d = c
          ∧ root d = Pathlib.of_str root_arg
          ∧ manifest_path d = Pathlib.of_str root_arg // manifest_name c
          ∧ lookup_node (w_fs w') (key env (root d)) = Some Dir).
Proof.
  unfold __init__, mkdir_parents. intros H.
  apply bind_inv in H as [([] & w1 & H1 & H2)|[(e & H1 & ->)|[H1 ->]]];
    destruct (makedirs_spec _ _ _ _ _ H1) as (L & K & F & D).
  - inversion H2; subst.
    refine (conj L (conj K (conj _ _))); [discriminate|].
    intros d0 [= <-]. cbn [cls root manifest_path].
    split; [reflexivity|]. split; [reflexivity|]. split; [reflexivity|].
    destruct (key env (Pathlib.of_str root_arg)) as [|x ks] eqn:Ek;
      [reflexivity|].
    rewrite lookup_node_cons by discriminate.
    apply (D eq_refl (x :: ks)); [discriminate | reflexivity].
  - refine (conj L (conj K (conj _ _))); [discriminate|]. intros d0 [=].
  - congruence.
Qed.

(** X1.  A successful [__init__] returns the instance of the class rooted
    at the given directory, with the manifest path derived from the name;
    the root then exists as a directory; whatever the outcome, the call
    log is as it was and no node that existed before is changed or
    removed (the directories it creates are new ones). *)
Theorem init_creates_root_only
  (env : Env) (c : DatasetClass) (root_arg : string)
  (w w' : world) (r : result Dataset) :
  __init__ env c root_arg w = (r, w') →
  w_log w' = w_log w
  ∧ (∀ k, w_fs w !! k ≠ None → w_fs w' !! k = w_fs w !! k)
  ∧ r ≠ Fuel
  ∧ (∀ d, r = Ok d →
          cls d = c
          ∧ root d = Pathlib.of_str root_arg
          ∧ manifest_path d = Pathlib.of_str root_arg // manifest_name c
          ∧ lookup_node (w_fs w') (key env (root d)) = Some Dir).
Proof. apply init_spec. Qed.

(** The root [data] in a working directory that does not have it yet. *)
Lemma init_creates_root_only_witness :
  w_log (World Toy.fs_fresh []) = w_log (World Edge.fs_home [])
  ∧ (∀ k, w_fs (World Edge.fs_home []) !! k ≠ None →
          w_fs (World Toy.fs_fresh []) !! k = w_fs (World Edge.fs_home []) !! k)
  ∧ Ok Toy.toy ≠ Fuel
  ∧ (∀ d, Ok Toy.toy = Ok d →
          cls d = Toy.toy_class
          ∧ root d = Pathlib.of_str "data"
          ∧ manifest_path d
            = Pathlib.of_str "data" // manifest_name Toy.toy_class
          ∧ lookup_node (w_fs (World Toy.fs_fresh []))
              (key Toy.env_offline (root d)) = Some Dir).
Proof.
  refine (init_creates_root_only Toy.env_offline Toy.toy_class "data"
            (World Edge.fs_home []) (World Toy.fs_fresh []) (Ok Toy.toy) _).
  vm_compute. reflexivity.
Defined.

(** X2.  [__init__] is idempotent: run again, with the same arguments and
    working directory, in the world a successful run left, it returns the
    same instance and changes nothing. *)
Theorem init_idempotent
  (env env2 : Env) (c : DatasetClass) (root_arg : string)
  (w w' : world) (d : Dataset) :
  cwd env2 = cwd env →
  __init__ env c root_arg w = (Ok d, w') →
  __init__ env2 c root_arg w' = (Ok d, w').
Proof.
  intros Hcwd H. unfold __init__, mkdir_parents in *.
  rewrite (key_cwd env2 env) by exact Hcwd.
  apply bind_inv in H as [([] & w1 & H1 & H2)|[(e & _ & [=])|[_ [=]]]].
  inversion H2; subst.
  destruct (makedirs_spec _ _ _ _ _ H1) as (_ & _ & _ & D).
  rewrite (bind_ok _ _ _ _ _ (makedirs_noop _ [] w' (D eq_refl))).
  reflexivity.
Qed.

Lemma init_idempotent_witness :
  __init__ Toy.env_online Toy.toy_class "data" (World Toy.fs_fresh [])
  = (Ok Toy.toy, World Toy.fs_fresh []).
Proof.
  refine (init_idempotent Toy.env_offline Toy.env_online Toy.toy_class "data"
            (World Edge.fs_home []) (World Toy.fs_fresh []) Toy.toy _ _).
  - reflexivity.
  - vm_compute. reflexivity.
Defined.

(** X3.  Where the root path holds a regular file, [__init__] fails (with
    an exception, not a value) and the file is left as it was. *)
Theorem init_over_file_fails
  (env : Env) (c : DatasetClass) (root_arg : string)
  (w w' : world) (r : result Dataset) (data : list byte) :
  lookup_node (w_fs w) (key env (Pathlib.of_str root_arg)) = Some (File data) →
  __init__ env c root_arg w = (r, w') →
  (∃ e, r = Raise e)
  ∧ lookup_node (w_fs w') (key env (Pathlib.of_str root_arg))
    = Some (File data).
Proof.
  intros Hfile H.
  pose proof (file_key_nonempty _ _ _ Hfile) as Hk.
  rewrite lookup_node_cons in Hfile by exact Hk.
  destruct (init_spec _ _ _ _ _ _ H) as (_ & K & F & D).
  assert (w_fs w' !! key env (Pathlib.of_str root_arg) = Some (File data))
    as Hstill by (rewrite K; [exact Hfile | congruence]).
  split.
  - destruct r as [d|e|]; [|eauto|congruence].
    destruct (D d eq_refl) as (_ & Hr & _ & Hdir).
    rewrite Hr, lookup_node_cons, Hstill in Hdir by exact Hk. discriminate.
  - rewrite lookup_node_cons by exact Hk. exact Hstill.
Qed.

Lemma init_over_file_fails_witness :
  (∃ e, @Raise Dataset FileExistsError = Raise e)
  ∧ lookup_node (w_fs (World Edge.fs_root_is_file []))
      (key Toy.env_offline (Pathlib.of_str "data"))
    = Some (File (encode "x")).
Proof.
  refine (init_over_file_fails Toy.env_offline Toy.toy_class "data"
            (World Edge.fs_root_is_file []) (World Edge.fs_root_is_file [])
            (Raise FileExistsError) (encode "x") _ _);
    vm_compute; reflexivity.
Defined.

(** ** Where the three paths are *)

Section Layout.

Lemma split_no_slash (s : string) :
  has_slash s = false → Str.split_on "/" s = [s].
Proof.
  induction s as [|c s IH]; [reflexivity|].
  cbn [has_slash Str.split_on]. intros H.
  apply orb_false_elim in H as [Hc Hs].
  rewrite Hc, (IH Hs). reflexivity.
Qed.

Lemma of_str_plain (s : string) :
  plain_name s = true → Pathlib.of_str s = Pathlib.MkPath false [s].
Proof.
  unfold plain_name. intros H.
  apply andb_prop in H as [H Hdd]. apply andb_prop in H as [Hs Hk].
  apply negb_true_iff in Hs.
  unfold Pathlib.of_str. rewrite (split_no_slash s Hs).
  cbn [List.filter]. rewrite Hk. f_equal.
  destruct s as [|c s]; [reflexivity|].
  cbn [has_slash] in Hs. apply orb_false_elim in Hs as [Hc _].
  unfold Str.starts_with_slash.
  destruct (Ascii.eqb_spec c "/") as [->|Hne]; [discriminate|].
  destruct c as [[] [] [] [] [] [] [] []]; try reflexivity. congruence.
Qed.

Lemma collapse_snoc (ps acc : list string) (x : string) :
  String.eqb x ".." = false →
  Pathlib.collapse acc (ps ++ [x]) = Pathlib.collapse acc ps ++ [x].
Proof.
  intros Hx. revert acc. induction ps as [|p ps IH]; intros acc.
  - cbn [app Pathlib.collapse]. rewrite Hx. reflexivity.
  - cbn [app Pathlib.collapse]. destruct (String.eqb p ".."); apply IH.
Qed.

(** Joining a plain name adds one component to the key. *)
Lemma key_join_plain (env : Env) (p : Path) (s : string) :
  plain_name s = true → key env (p // s) = key env p ++ [s].
Proof.
  intros H. unfold key, Pathlib.joinpath. rewrite (of_str_plain s H).
  cbn [Pathlib.anchored Pathlib.parts Pathlib.resolve].
  unfold plain_name in H. apply andb_prop in H as [_ Hdd].
  apply negb_true_iff in Hdd.
  destruct (Pathlib.anchored p).
  - apply collapse_snoc, Hdd.
  - rewrite app_assoc. apply collapse_snoc, Hdd.
Qed.

Lemma has_slash_append (a b : string) :
  has_slash (a +:+ b) = has_slash a || has_slash b.
Proof.
  induction a as [|c a IH]; [reflexivity|].
  rewrite JsonFacts.append_cons. cbn [has_slash].
  rewrite IH, orb_assoc. reflexivity.
Qed.

Lemma has_slash_map (f : ascii → ascii) (s : string) :
  (∀ c, Ascii.eqb (f c) "/" = Ascii.eqb c "/") →
  has_slash (Str.map_chars f s) = has_slash s.
Proof.
  intros Hf. induction s as [|c s IH]; [reflexivity|].
  cbn [Str.map_chars has_slash]. rewrite Hf, IH. reflexivity.
Qed.

(** A name of more than two characters without a slash is plain. *)
Lemma long_name_plain (s : string) :
  has_slash s = false → 2 < String.length s → plain_name s = true.
Proof.
  intros Hs Hlen. unfold plain_name, Pathlib.keep_part. rewrite Hs.
  destruct s as [|a [|b [|c s]]]; cbn [String.length] in Hlen; try lia.
  assert (String.eqb (String a (String b (String c s))) EmptyString = false)
    as -> by reflexivity.
  assert (String.eqb (String a (String b (String c s))) "." = false) as ->.
  { apply String.eqb_neq. intros [=]. }
  assert (String.eqb (String a (String b (String c s))) ".." = false) as ->.
  { apply String.eqb_neq. intros [=]. }
  reflexivity.
Qed.

Lemma manifest_name_plain (c : DatasetClass) :
  has_slash (name c) = false → plain_name (manifest_name c) = true.
Proof.
  intros H. unfold manifest_name. apply long_name_plain.
  - rewrite has_slash_append. unfold Str.replace_char, Str.lower.
    rewrite !has_slash_map, H; [reflexivity | |].
    + intros x. destruct x as [[] [] [] [] [] [] [] []]; reflexivity.
    + intros x. destruct x as [[] [] [] [] [] [] [] []]; reflexivity.
  - rewrite JsonFacts.length_append. cbn [String.length]. lia.
Qed.

End Layout.

(** X4.  When the archive name and the extracted directory name are plain
    file names and the name of the data set has no slash, the archive, the
    extracted directory and the manifest of an instance built by
    [__init__] are entries of the root directory, under the names
    [archive_name], [extracted_dir] and the derived manifest name. *)
Theorem paths_are_children_of_root (env : Env) (self : Dataset) :
  plain_name (archive_name (cls self)) = true →
  plain_name (extracted_dir (cls self)) = true →
  has_slash (name (cls self)) = false →
  manifest_path self = root self // manifest_name (cls self) →
  key env (archive_path self)
  = key env (root self) ++ [archive_name (cls self)]
  ∧ key env (extracted_path self)
    = key env (root self) ++ [extracted_dir (cls self)]
  ∧ key env (manifest_path self)
    = key env (root self) ++ [manifest_name (cls self)].
Proof.
  intros Ha He Hn Hm. unfold archive_path, extracted_path. rewrite Hm.
  rewrite !key_join_plain; auto using manifest_name_plain.
Qed.

Lemma paths_are_children_of_root_witness :
  key Toy.env_offline (archive_path Toy.toy)
  = key Toy.env_offline (root Toy.toy) ++ [archive_name (cls Toy.toy)]
  ∧ key Toy.env_offline (extracted_path Toy.toy)
    = key Toy.env_offline (root Toy.toy) ++ [extracted_dir (cls Toy.toy)]
  ∧ key Toy.env_offline (manifest_path Toy.toy)
    = key Toy.env_offline (root Toy.toy) ++ [manifest_name (cls Toy.toy)].
Proof.
  refine (paths_are_children_of_root Toy.env_offline Toy.toy _ _ _ _);
    reflexivity.
Defined.
(** ** [_download]: what reaches the disk *)

(** X5.  [_download], started where nothing is at the archive path, the
    directory it goes into exists and the path has no [..] in it, ends as
    follows.  With no connection it raises and the file system is as it
    was.  With a response whose [content-length] header [int] cannot read,
    it raises [ValueError] before the archive is opened: again the file
    system is as it was, and no empty archive is left.  Otherwise the
    archive file holds the chunks of the body in the order they came, as
    many bytes as the device takes; the call succeeds when the body was
    complete and fitted, raises [OSError] when it did not fit, and raises
    the transport error when the body was cut short, leaving the bytes
    received. *)
Theorem download_closed_form (env : Env) (self : Dataset) (w : world) :
  dotdot_free (archive_path self) = true →
  lookup_node (w_fs w) (key env (archive_path self)) = None →
  lookup_node (w_fs w) (removelast (key env (archive_path self))) = Some Dir →
  _download env self w =
  match http_get env (url (cls self)) with
  | ConnectionFailed =>
      (Raise RequestException, World (w_fs w) (w_log w ++ [Download]))
  | Response content_length chunks complete =>
      if length_readable env content_length
      then (download_result (quota env (key env (archive_path self)))
              chunks complete,
            World (<[key env (archive_path self) :=
                       File (kept (quota env (key env (archive_path self)))
                               (concat chunks))]> (w_fs w))
                  (w_log w ++ [Download]))
      else (Raise ValueError, World (w_fs w) (w_log w ++ [Download]))
  end.
Proof. intros _. apply _download_closed_form. Qed.

(** The server sends a [content-length] that is no number. *)
Lemma download_closed_form_witness :
  _download Toy.env_bad_length Toy.toy (World Toy.fs_fresh []) =
  match http_get Toy.env_bad_length (url (cls Toy.toy)) with
  | ConnectionFailed =>
      (Raise RequestException,
       World (w_fs (World Toy.fs_fresh []))
             (w_log (World Toy.fs_fresh []) ++ [Download]))
  | Response content_length chunks complete =>
      if length_readable Toy.env_bad_length content_length
      then (download_result
              (quota Toy.env_bad_length
                 (key Toy.env_bad_length (archive_path Toy.toy)))
              chunks complete,
            World (<[key Toy.env_bad_length (archive_path Toy.toy) :=
                       File (kept (quota Toy.env_bad_length
                                     (key Toy.env_bad_length
                                        (archive_path Toy.toy)))
                               (concat chunks))]>
                     (w_fs (World Toy.fs_fresh [])))
                  (w_log (World Toy.fs_fresh []) ++ [Download]))
      else (Raise ValueError,
            World (w_fs (World Toy.fs_fresh []))
                  (w_log (World Toy.fs_fresh []) ++ [Download]))
  end.
Proof.
  refine (download_closed_form Toy.env_bad_length Toy.toy
            (World Toy.fs_fresh []) _ _ _); vm_compute; reflexivity.
Defined.

(** X6.  Whenever [_download] returns normally, the [content-length]
    header was missing or readable, the response was complete, and the
    archive path holds a regular file whose content is the concatenation
    of the chunks of the body; no other path has changed. *)
Theorem download_success_stores_body
  (env : Env) (self : Dataset) (w w' : world) :
  _download env self w = (Ok tt, w') →
  ∃ header chunks,
    http_get env (url (cls self)) = Response header chunks true
    ∧ length_readable env header = true
    ∧ lookup_node (w_fs w') (key env (archive_path self))
      = Some (File (concat chunks))
    ∧ (∀ k, k ≠ key env (archive_path self) → w_fs w' !! k = w_fs w !! k).
Proof. apply _download_ok_inv. Qed.

Lemma download_success_stores_body_witness :
  ∃ header chunks,
    http_get Toy.env_online (url (cls Toy.toy)) = Response header chunks true
    ∧ length_readable Toy.env_online header = true
    ∧ lookup_node (w_fs (World Toy.fs_archived [Download]))
        (key Toy.env_online (archive_path Toy.toy))
      = Some (File (concat chunks))
    ∧ (∀ k, k ≠ key Toy.env_online (archive_path Toy.toy) →
            w_fs (World Toy.fs_archived [Download]) !! k
            = w_fs (World Toy.fs_fresh []) !! k).
Proof.
  refine (download_success_stores_body Toy.env_online Toy.toy
            (World Toy.fs_fresh []) (World Toy.fs_archived [Download]) _).
  vm_compute. reflexivity.
Defined.

(** ** [_md5] and [_verify]: the digest *)

Section DigestShape.

Import MD5.

Lemma length_le_encode (n : nat) (x : Z) : length (le_encode n x) = n.
Proof.
  revert x. induction n as [|n IH]; intros x; [reflexivity|].
  cbn [le_encode].
  destruct (Byte.of_N (Z.to_N (x mod 256))) as [b|] eqn:E.
  - cbn [length]. rewrite IH. reflexivity.
  - apply Byte.of_N_None_iff in E.
    pose proof (Z.mod_pos_bound x 256 ltac:(lia)). lia.
Qed.

Lemma length_digest (s : state) : length (digest s) = 16.
Proof.
  unfold digest.
  destruct (absorb (st_regs s) (st_buffer s ++ padding (st_count s))) as [r ?].
  rewrite !length_app, !length_le_encode. reflexivity.
Qed.

Lemma hex_digit_is_hex (n : Z) : is_hex_lower (hex_digit n) = true.
Proof.
  unfold hex_digit. generalize (Z.to_nat n) as i. intros i.
  do 16 (destruct i as [|i]; [reflexivity|]).
  destruct i; reflexivity.
Qed.

Lemma hex_shape (bs : list byte) :
  String.length (hex bs) = 2 * length bs
  ∧ all_chars is_hex_lower (hex bs) = true.
Proof.
  induction bs as [|b bs [IHl IHc]]; [split; reflexivity|].
  cbn [hex fold_right]. fold (hex bs).
  unfold hex_of_byte. rewrite !JsonFacts.append_cons, JsonFacts.append_nil.
  cbn [String.length all_chars length]. rewrite IHl, IHc, !hex_digit_is_hex.
  split; [lia | reflexivity].
Qed.

(** [hexdigest] is thirty-two lowercase hexadecimal digits. *)
Lemma hexdigest_shape (s : state) :
  String.length (hexdigest s) = 32
  ∧ all_chars is_hex_lower (hexdigest s) = true.
Proof.
  unfold hexdigest. destruct (hex_shape (digest s)) as [Hl Hc].
  rewrite Hl, length_digest. split; [reflexivity | exact Hc].
Qed.

End DigestShape.

(** How [_md5] ends: it reads, and never writes. *)
Lemma _md5_inv (env : Env) (p : Path) (w w' : world) (r : result string) :
  _md5 env p w = (r, w') →
  w' = w
  ∧ match lookup_node (w_fs w) (key env p) with
    | Some (File data) => r = Ok (MD5.md5_hex data)
    | Some Dir => r = Raise IsADirectoryError
    | None => r = Raise FileNotFoundError
    end.
Proof.
  destruct (lookup_node (w_fs w) (key env p)) as [[data|]|] eqn:E.
  - rewrite (_md5_file env p w data E). intros [= <- <-]. auto.
  - rewrite (_md5_dir env p w E). intros [= <- <-]. auto.
  - rewrite (_md5_missing env p w E). intros [= <- <-]. auto.
Qed.

(** X7.  The digest [_md5] computes does not depend on the size of the
    chunks: read in chunks of any positive size, a file hashes to the
    digest of its whole content, and the read loop ends within one round
    per byte plus one. *)
Theorem md5_chunk_size_irrelevant (n : nat) (data : list byte) :
  0 < n →
  md5_loop (S (length data)) n (Reader data 0) MD5.new
  = Some (MD5.update MD5.new data).
Proof.
  intros Hn. rewrite (md5_loop_spec n data Hn).
  - reflexivity.
  - apply MD5Facts.wf_new.
  - lia.
Qed.

(** A file of two chunks and five bytes, read three bytes at a time. *)
Lemma md5_chunk_size_irrelevant_witness :
  md5_loop (S (length Toy.big_file)) 3 (Reader Toy.big_file 0) MD5.new
  = Some (MD5.update MD5.new Toy.big_file).
Proof.
  refine (md5_chunk_size_irrelevant 3 Toy.big_file _). lia.
Defined.

(** X8.  Whatever [_md5] returns is a string of exactly thirty-two
    lowercase hexadecimal digits, the file was a regular file, and the
    world is as it was: hashing reads and never writes.  On a directory
    [_md5] raises [IsADirectoryError], on a missing file
    [FileNotFoundError], again without changing anything. *)
Theorem md5_result_shape
  (env : Env) (p : Path) (w w' : world) (r : result string) :
  _md5 env p w = (r, w') →
  w' = w
  ∧ (∀ d, r = Ok d →
          String.length d = 32 ∧ all_chars is_hex_lower d = true
          ∧ ∃ data, lookup_node (w_fs w) (key env p) = Some (File data))
  ∧ (lookup_node (w_fs w) (key env p) = Some Dir →
     r = Raise IsADirectoryError)
  ∧ (lookup_node (w_fs w) (key env p) = None →
     r = Raise FileNotFoundError).
Proof.
  intros H. apply _md5_inv in H as [-> H]. split; [reflexivity|].
  destruct (lookup_node (w_fs w) (key env p)) as [[data|]|];
    subst r; (split; [intros d0 E | split; intros E]);
    try discriminate; try reflexivity.
  injection E as <-.
  destruct (hexdigest_shape (MD5.update MD5.new data)) as [Hl Hc].
  split; [exact Hl|]. split; [exact Hc|]. eauto.
Qed.

Lemma md5_result_shape_witness :
  World Toy.fs_archived [] = World Toy.fs_archived []
  ∧ (∀ d, Ok (MD5.md5_hex Toy.archive) = Ok d →
          String.length d = 32 ∧ all_chars is_hex_lower d = true
          ∧ ∃ data,
              lookup_node (w_fs (World Toy.fs_archived []))
                (key Toy.env_offline (archive_path Toy.toy))
              = Some (File data))
  ∧ (lookup_node (w_fs (World Toy.fs_archived []))
       (key Toy.env_offline (archive_path Toy.toy)) = Some Dir →
     Ok (MD5.md5_hex Toy.archive) = Raise IsADirectoryError)
  ∧ (lookup_node (w_fs (World Toy.fs_archived []))
       (key Toy.env_offline (archive_path Toy.toy)) = None →
     Ok (MD5.md5_hex Toy.archive) = Raise FileNotFoundError).
Proof.
  refine (md5_result_shape Toy.env_offline (archive_path Toy.toy)
            (World Toy.fs_archived []) (World Toy.fs_archived [])
            (Ok (MD5.md5_hex Toy.archive)) _).
  vm_compute. reflexivity.
Defined.

(** X9.  When [_verify] passes, the archive path holds a regular file
    whose digest is the expected checksum, the file system is exactly as
    it was, and the checksum of the class is a string of thirty-two
    lowercase hexadecimal digits: with a checksum of any other form,
    verification cannot pass. *)
Theorem verify_pass_is_pure
  (env : Env) (self : Dataset) (w w' : world) :
  _verify env self w = (Ok tt, w') →
  w_fs w' = w_fs w
  ∧ w_log w' = w_log w ++ [Verify]
  ∧ (∃ data, lookup_node (w_fs w) (key env (archive_path self))
             = Some (File data)
             ∧ MD5.md5_hex data = checksum (cls self))
  ∧ String.length (checksum (cls self)) = 32
  ∧ all_chars is_hex_lower (checksum (cls self)) = true.
Proof.
  intros H.
  apply _verify_spec in H
    as (L & [(data & Hf & Hd & _ & Hfs)
            |[(? & _ & _ & [=] & _)|(? & _ & [=] & _)]]).
  destruct (hexdigest_shape (MD5.update MD5.new data)) as [Hl Hc].
  fold (MD5.md5_hex data) in Hl, Hc. rewrite Hd in Hl, Hc.
  repeat split; try assumption. eauto.
Qed.

Lemma verify_pass_is_pure_witness :
  w_fs (World Toy.fs_archived [Verify]) = w_fs (World Toy.fs_archived [])
  ∧ w_log (World Toy.fs_archived [Verify])
    = w_log (World Toy.fs_archived []) ++ [Verify]
  ∧ (∃ data, lookup_node (w_fs (World Toy.fs_archived []))
               (key Toy.env_offline (archive_path Toy.toy))
             = Some (File data)
             ∧ MD5.md5_hex data = checksum (cls Toy.toy))
  ∧ String.length (checksum (cls Toy.toy)) = 32
  ∧ all_chars is_hex_lower (checksum (cls Toy.toy)) = true.
Proof.
  refine (verify_pass_is_pure Toy.env_offline Toy.toy
            (World Toy.fs_archived []) (World Toy.fs_archived [Verify]) _).
  vm_compute. reflexivity.
Defined.

(** X10.  Where the archive path is a directory (and step 1 does not
    short-circuit), [prepare] downloads nothing, raises
    [IsADirectoryError] out of the verify step, not the integrity error,
    and removes nothing. *)
Theorem prepare_archive_is_directory
  (env : Env) (self : Dataset) (w : world) :
  prepared env self (w_fs w) = false →
  lookup_node (w_fs w) (key env (archive_path self)) = Some Dir →
  prepare env self w
  = (Raise IsADirectoryError, World (w_fs w) (w_log w ++ [Verify])).
Proof.
  intros Hprep Hdir. rewrite prepare_eq, Hprep.
  unfold pipeline, bind at 1. rewrite fetch_if_missing_eq.
  unfold node_exists. rewrite Hdir.
  unfold verify_onwards. apply bind_raise, _verify_dir, Hdir.
Qed.

Lemma prepare_archive_is_directory_witness :
  prepare Toy.env_online Toy.toy (World Edge.fs_archive_is_dir [])
  = (Raise IsADirectoryError,
     World (w_fs (World Edge.fs_archive_is_dir []))
           (w_log (World Edge.fs_archive_is_dir []) ++ [Verify])).
Proof.
  refine (prepare_archive_is_directory Toy.env_online Toy.toy
            (World Edge.fs_archive_is_dir []) _ _);
    vm_compute; reflexivity.
Defined.

(** ** The order of the steps *)

Section Order.

Variable env : Env.
Variable self : Dataset.

(** The download step logs [Download] exactly when the archive is
    missing. *)
Lemma fetch_if_missing_log (w w1 : world) (r : result unit) :
  fetch_if_missing env self w = (r, w1) →
  w_log w1 = w_log w
             ++ (if node_exists (w_fs w) (key env (archive_path self))
                 then [] else [Download]).
Proof.
  rewrite fetch_if_missing_eq.
  destruct (node_exists (w_fs w) (key env (archive_path self))).
  - intros [= <- <-]. rewrite app_nil_r. reflexivity.
  - intros H. apply _download_spec in H as (L & _). exact L.
Qed.

(** From the verify step on: the log grows by a non-empty prefix of
    verify, extract, write; the manifest step is entered only after the
    two steps before it succeeded, and a value is returned only after all
    three. *)
Lemma verify_onwards_trace (w w' : world) (r : result Path) :
  verify_onwards env self w = (r, w') →
  ∃ l, w_log w' = w_log w ++ l
       ∧ l ≠ []
       ∧ l `prefix_of` [Verify; Extract; WriteManifest]
       ∧ (WriteManifest ∈ l →
          ∃ w1 w2, _verify env self w = (Ok tt, w1)
                   ∧ _extract env self w1 = (Ok tt, w2))
       ∧ (∀ p, r = Ok p →
               p = extracted_path self
               ∧ l = [Verify; Extract; WriteManifest]).
Proof.
  unfold verify_onwards. intros H.
  assert (∀ x y : event, x ≠ y → x ∉ [y]) as Hnot1.
  { intros x y Hxy Hin. apply list_elem_of_In in Hin.
    destruct Hin as [?|[]]. congruence. }
  apply bind_inv in H as [([] & w1 & H1 & H2)|[(e & H1 & ->)|[H1 ->]]];
    pose proof (_verify_spec _ _ _ _ _ H1) as (L1 & C1).
  - apply bind_inv in H2 as [([] & w2 & H2 & H3)|[(e & H2 & ->)|[H2 ->]]];
      pose proof (_extract_spec _ _ _ _ _ H2) as (L2 & _ & F2 & _).
    + assert (w_log w' = w_log w ++ [Verify; Extract; WriteManifest]
              ∧ ∀ p, r = Ok p → p = extracted_path self) as [L3 Hp].
      { apply bind_inv in H3 as [([] & w3 & H3 & H4)|[(e & H3 & ->)|[H3 ->]]];
          pose proof (_write_manifest_spec _ _ _ _ _ H3) as (L3 & C3).
        - inversion H4; subst.
          split; [rewrite L3, L2, L1, <- !app_assoc; reflexivity|].
          intros p [= <-]. reflexivity.
        - split; [rewrite L3, L2, L1, <- !app_assoc; reflexivity|].
          intros p [=].
        - destruct C3 as [(? & ?)|[(? & ? & ? & ? & ?)|(? & ? & ?)]];
            discriminate. }
      exists [Verify; Extract; WriteManifest].
      split; [exact L3|]. split; [discriminate|]. split; [reflexivity|].
      split; [eauto|]. intros p Hr. split; [apply Hp, Hr | reflexivity].
    + exists [Verify; Extract].
      split; [rewrite L2, L1, <- app_assoc; reflexivity|].
      split; [discriminate|].
      split; [exists [WriteManifest]; reflexivity|].
      split; [|intros p [=]].
      intros Hin. apply list_elem_of_In in Hin.
      destruct Hin as [?|[?|[]]]; discriminate.
    + congruence.
  - exists [Verify].
    split; [exact L1|]. split; [discriminate|].
    split; [exists [Extract; WriteManifest]; reflexivity|].
    split; [|intros p [=]].
    intros Hin. destruct (Hnot1 WriteManifest Verify); [discriminate | exact Hin].
  - destruct C1 as [(? & ? & ? & ? & ?)|[(? & ? & ? & ? & ?)|(? & ? & ? & ?)]];
      discriminate.
Qed.

(** All the ways [prepare] can go, by the log. *)
Lemma prepare_trace (w w' : world) (r : result Path) :
  prepare env self w = (r, w') →
  ∃ l, w_log w' = w_log w ++ l
       ∧ (if prepared env self (w_fs w)
          then l = []
          else l ≠ []
               ∧ l `prefix_of`
                   (if node_exists (w_fs w) (key env (archive_path self))
                    then [] else [Download])
                   ++ [Verify; Extract; WriteManifest])
       ∧ (WriteManifest ∈ l →
          ∃ w1 w2 w3, fetch_if_missing env self w = (Ok tt, w1)
                      ∧ _verify env self w1 = (Ok tt, w2)
                      ∧ _extract env self w2 = (Ok tt, w3))
       ∧ (∀ p, r = Ok p → p = extracted_path self).
Proof.
  rewrite prepare_eq.
  destruct (prepared env self (w_fs w)).
  - intros [= <- <-]. exists []. rewrite app_nil_r.
    split; [reflexivity|]. split; [reflexivity|].
    split; [|intros p [= <-]; reflexivity].
    intros Hin. apply list_elem_of_In in Hin. destruct Hin.
  - unfold pipeline. intros H.
    apply bind_inv in H as [([] & w1 & H1 & H2)|[(e & H1 & ->)|[H1 ->]]];
      pose proof (fetch_if_missing_log _ _ _ H1) as L1.
    + apply verify_onwards_trace in H2 as (l & L & Hne & Hpre & Hm & Hok).
      exists ((if node_exists (w_fs w) (key env (archive_path self))
               then [] else [Download]) ++ l).
      split; [rewrite L, L1, <- app_assoc; reflexivity|].
      split; [split|].
      * destruct (node_exists _ _); cbn [app]; [exact Hne | discriminate].
      * apply prefix_app, Hpre.
      * split; [|intros p Hp; apply (Hok p Hp)].
        intros Hin. apply elem_of_app in Hin as [Hin|Hin].
        -- destruct (node_exists _ _); apply list_elem_of_In in Hin;
             [destruct Hin | destruct Hin as [?|[]]; discriminate].
        -- destruct (Hm Hin) as (w2 & w3 & ? & ?). eauto 6.
    + rewrite fetch_if_missing_eq in H1.
      destruct (node_exists (w_fs w) (key env (archive_path self)));
        [discriminate|].
      exists [Download].
      split; [exact L1|]. split; [split; [discriminate|]|].
      * exists [Verify; Extract; WriteManifest]. reflexivity.
      * split; [|intros p [=]].
        intros Hin. apply list_elem_of_In in Hin.
        destruct Hin as [?|[]]; discriminate.
    + apply fetch_if_missing_spec in H1 as (_ & _ & F & _). congruence.
Qed.

End Order.

(** Membership of an event in a log that is written out. *)
Ltac in_log :=
  first
    [ solve [ rewrite ?elem_of_app, ?elem_of_cons; auto 10 ]
    | solve [ let Hin := fresh in
              intros Hin;
              rewrite ?elem_of_app, ?elem_of_cons, ?elem_of_nil in Hin;
              intuition discriminate ] ].

(** X11.  Every call to [prepare] goes through its steps in one order.
    When step 1 short-circuits, no step is entered and the world is as it
    was.  Otherwise the call log grows by a non-empty prefix of
    [_download] (present if and only if nothing is at the archive path),
    [_verify], [_extract], [_write_manifest], so each step is entered at
    most once; a step is entered if and only if every step before it
    returned; a path is returned if and only if all the steps returned,
    and it is the extracted path; and when the call raises, the exception
    is the one of the last step entered, and the world is the one that
    step left: nothing is done after the first step that raises. *)
Theorem prepare_step_order
  (env : Env) (self : Dataset) (w w' : world) (r : result Path) :
  prepare env self w = (r, w') →
  ∃ l, w_log w' = w_log w ++ l
       ∧ (prepared env self (w_fs w) = true →
          l = [] ∧ r = Ok (extracted_path self) ∧ w' = w)
       ∧ (prepared env self (w_fs w) = false →
          l ≠ []
          ∧ l `prefix_of`
              (if node_exists (w_fs w) (key env (archive_path self))
               then [] else [Download])
              ++ [Verify; Extract; WriteManifest]
          ∧ (Verify ∈ l ↔ ∃ w1, fetch_if_missing env self w = (Ok tt, w1))
          ∧ (Extract ∈ l ↔
             ∃ w1 w2, fetch_if_missing env self w = (Ok tt, w1)
                      ∧ _verify env self w1 = (Ok tt, w2))
          ∧ (WriteManifest ∈ l ↔
             ∃ w1 w2 w3, fetch_if_missing env self w = (Ok tt, w1)
                         ∧ _verify env self w1 = (Ok tt, w2)
                         ∧ _extract env self w2 = (Ok tt, w3))
          ∧ (∀ p, r = Ok p ↔
                  p = extracted_path self
                  ∧ ∃ w1 w2 w3, fetch_if_missing env self w = (Ok tt, w1)
                                ∧ _verify env self w1 = (Ok tt, w2)
                                ∧ _extract env self w2 = (Ok tt, w3)
                                ∧ _write_manifest env self w3 = (Ok tt, w'))
          ∧ (∀ e, r = Raise e →
                  fetch_if_missing env self w = (Raise e, w')
                  ∨ (∃ w1, fetch_if_missing env self w = (Ok tt, w1)
                           ∧ _verify env self w1 = (Raise e, w'))
                  ∨ (∃ w1 w2, fetch_if_missing env self w = (Ok tt, w1)
                              ∧ _verify env self w1 = (Ok tt, w2)
                              ∧ _extract env self w2 = (Raise e, w'))
                  ∨ (∃ w1 w2 w3, fetch_if_missing env self w = (Ok tt, w1)
                                 ∧ _verify env self w1 = (Ok tt, w2)
                                 ∧ _extract env self w2 = (Ok tt, w3)
                                 ∧ _write_manifest env self w3
                                   = (Raise e, w')))
          ∧ r ≠ Fuel).
Proof.
  rewrite prepare_eq.
  destruct (prepared env self (w_fs w)) eqn:P.
  { intros [= <- <-]. exists []. rewrite app_nil_r.
    split; [reflexivity|]. split; [auto | discriminate]. }
  unfold pipeline, verify_onwards. intros H.
  destruct (fetch_if_missing env self w) as [r1 w1] eqn:F.
  pose proof (fetch_if_missing_log _ _ _ _ _ F) as L1.
  pose proof (fetch_if_missing_spec _ _ _ _ _ F) as (_ & _ & F1 & _).
  set (d := if node_exists (w_fs w) (key env (archive_path self))
            then [] else [Download]) in *.
  assert (d = [] ∨ d = [Download]) as Hd
    by (unfold d; destruct (node_exists _ _); auto).
  destruct r1 as [[]|e1|]; [|clear F1|destruct (F1 eq_refl)].
  2:{ rewrite (bind_raise _ _ _ _ _ F) in H. injection H as <- <-.
      assert (d = [Download]) as Hd'.
      { unfold d. rewrite fetch_if_missing_eq in F.
        destruct (node_exists _ _); [discriminate | reflexivity]. }
      exists d. split; [exact L1|]. split; [discriminate|]. intros _.
      rewrite Hd'.
      split; [discriminate|].
      split; [exists [Verify; Extract; WriteManifest]; reflexivity|].
      split; [split; [in_log | intros (? & [=])]|].
      split; [split; [in_log | intros (? & ? & [=] & _)]|].
      split; [split; [in_log | intros (? & ? & ? & [=] & _)]|].
      split; [intros p; split; [discriminate | intros (_ & ? & ? & ? & [=] & _)]|].
      split; [|discriminate].
      intros e [= <-]. left. reflexivity. }
  rewrite (bind_ok _ _ _ _ _ F) in H.
  destruct (_verify env self w1) as [r2 w2] eqn:V.
  pose proof (_verify_spec _ _ _ _ _ V) as (L2 & C2).
  assert (r2 ≠ Fuel) as F2.
  { destruct C2 as [(? & ? & ? & -> & ?)|[(? & ? & ? & -> & ?)|(? & ? & -> & ?)]];
      discriminate. }
  clear C2.
  destruct r2 as [[]|e2|]; [|clear F2|destruct (F2 eq_refl)].
  2:{ rewrite (bind_raise _ _ _ _ _ V) in H. injection H as <- <-.
      exists (d ++ [Verify]).
      split; [rewrite L2, L1, <- app_assoc; reflexivity|].
      split; [discriminate|]. intros _.
      split; [destruct Hd as [-> | ->]; discriminate|].
      split; [apply prefix_app; exists [Extract; WriteManifest]; reflexivity|].
      split; [split; [eauto 10 | in_log]|].
      split; [split; [destruct Hd as [-> | ->]; in_log
                     | intros (? & ? & [= <-] & E); rewrite V in E;
                       discriminate]|].
      split; [split; [destruct Hd as [-> | ->]; in_log
                     | intros (? & ? & ? & [= <-] & E & _); rewrite V in E;
                       discriminate]|].
      split; [intros p; split;
              [discriminate
              | intros (_ & ? & ? & ? & [= <-] & E & _); rewrite V in E;
                discriminate]|].
      split; [|discriminate].
      intros e [= <-]. right. left. eauto. }
  rewrite (bind_ok _ _ _ _ _ V) in H.
  destruct (_extract env self w2) as [r3 w3] eqn:X.
  pose proof (_extract_spec _ _ _ _ _ X) as (L3 & _ & F3 & _).
  destruct r3 as [[]|e3|]; [|clear F3|destruct (F3 eq_refl)].
  2:{ rewrite (bind_raise _ _ _ _ _ X) in H. injection H as <- <-.
      exists (d ++ [Verify; Extract]).
      split; [rewrite L3, L2, L1, <- !app_assoc; reflexivity|].
      split; [discriminate|]. intros _.
      split; [destruct Hd as [-> | ->]; discriminate|].
      split; [apply prefix_app; exists [WriteManifest]; reflexivity|].
      split; [split; [eauto 10 | in_log]|].
      split; [split; [eauto 10 | in_log]|].
      split; [split; [destruct Hd as [-> | ->]; in_log
                     | intros (? & ? & ? & [= <-] & E1 & E2);
                       rewrite V in E1; injection E1 as <-;
                       rewrite X in E2; discriminate]|].
      split; [intros p; split;
              [discriminate
              | intros (_ & ? & ? & ? & [= <-] & E1 & E2 & _);
                rewrite V in E1; injection E1 as <-;
                rewrite X in E2; discriminate]|].
      split; [|discriminate].
      intros e [= <-]. right. right. left. eauto. }
  rewrite (bind_ok _ _ _ _ _ X) in H.
  destruct (_write_manifest env self w3) as [r4 w4] eqn:W.
  pose proof (_write_manifest_spec _ _ _ _ _ W) as (L4 & C4).
  assert (r4 ≠ Fuel) as F4.
  { destruct C4 as [(-> & _)|[(? & _ & _ & -> & _)|(? & -> & _)]];
      discriminate. }
  clear C4.
  exists (d ++ [Verify; Extract; WriteManifest]).
  assert (w' = w4 ∧ r = match r4 with
                        | Ok _ => Ok (extracted_path self)
                        | Raise e => Raise e
                        | Fuel => Fuel
                        end) as [-> Hr].
  { unfold bind in H. rewrite W in H.
    destruct r4 as [[]|e4|]; inversion H; auto. }
  split; [rewrite L4, L3, L2, L1, <- !app_assoc; reflexivity|].
  split; [discriminate|]. intros _.
  split; [destruct Hd as [-> | ->]; discriminate|].
  split; [reflexivity|].
  split; [split; [eauto 10 | in_log]|].
  split; [split; [eauto 10 | in_log]|].
  split; [split; [eauto 10 | in_log]|].
  destruct r4 as [[]|e4|]; [| |destruct (F4 eq_refl)]; subst r.
  - split; [intros p; split; [intros [= <-]; eauto 8 | intros [-> _]; reflexivity]|].
    split; discriminate.
  - split; [intros p; split;
            [discriminate
            | intros (_ & ? & ? & ? & [= <-] & E1 & E2 & E3);
              rewrite V in E1; injection E1 as <-;
              rewrite X in E2; injection E2 as <-;
              rewrite W in E3; discriminate]|].
    split; [|discriminate].
    intros e [= <-]. right. right. right. eauto 8.
Qed.

Lemma prepare_step_order_witness :
  ∃ l, w_log Edge.w_done = w_log (World Toy.fs_fresh []) ++ l
       ∧ (prepared Toy.env_online Toy.toy (w_fs (World Toy.fs_fresh [])) = true →
          l = [] ∧ Ok (extracted_path Toy.toy) = Ok (extracted_path Toy.toy)
          ∧ Edge.w_done = World Toy.fs_fresh [])
       ∧ (prepared Toy.env_online Toy.toy (w_fs (World Toy.fs_fresh []))
          = false →
          l ≠ []
          ∧ l `prefix_of`
              (if node_exists (w_fs (World Toy.fs_fresh []))
                    (key Toy.env_online (archive_path Toy.toy))
               then [] else [Download])
              ++ [Verify; Extract; WriteManifest]
          ∧ (Verify ∈ l ↔
             ∃ w1, fetch_if_missing Toy.env_online Toy.toy
                     (World Toy.fs_fresh []) = (Ok tt, w1))
          ∧ (Extract ∈ l ↔
             ∃ w1 w2, fetch_if_missing Toy.env_online Toy.toy
                        (World Toy.fs_fresh []) = (Ok tt, w1)
                      ∧ _verify Toy.env_online Toy.toy w1 = (Ok tt, w2))
          ∧ (WriteManifest ∈ l ↔
             ∃ w1 w2 w3, fetch_if_missing Toy.env_online Toy.toy
                           (World Toy.fs_fresh []) = (Ok tt, w1)
                         ∧ _verify Toy.env_online Toy.toy w1 = (Ok tt, w2)
                         ∧ _extract Toy.env_online Toy.toy w2 = (Ok tt, w3))
          ∧ (∀ p, Ok (extracted_path Toy.toy) = Ok p ↔
                  p = extracted_path Toy.toy
                  ∧ ∃ w1 w2 w3,
                      fetch_if_missing Toy.env_online Toy.toy
                        (World Toy.fs_fresh []) = (Ok tt, w1)
                      ∧ _verify Toy.env_online Toy.toy w1 = (Ok tt, w2)
                      ∧ _extract Toy.env_online Toy.toy w2 = (Ok tt, w3)
                      ∧ _write_manifest Toy.env_online Toy.toy w3
                        = (Ok tt, Edge.w_done))
          ∧ (∀ e, Ok (extracted_path Toy.toy) = Raise e →
                  fetch_if_missing Toy.env_online Toy.toy
                    (World Toy.fs_fresh []) = (Raise e, Edge.w_done)
                  ∨ (∃ w1, fetch_if_missing Toy.env_online Toy.toy
                             (World Toy.fs_fresh []) = (Ok tt, w1)
                           ∧ _verify Toy.env_online Toy.toy w1
                             = (Raise e, Edge.w_done))
                  ∨ (∃ w1 w2, fetch_if_missing Toy.env_online Toy.toy
                                (World Toy.fs_fresh []) = (Ok tt, w1)
                              ∧ _verify Toy.env_online Toy.toy w1 = (Ok tt, w2)
                              ∧ _extract Toy.env_online Toy.toy w2
                                = (Raise e, Edge.w_done))
                  ∨ (∃ w1 w2 w3,
                       fetch_if_missing Toy.env_online Toy.toy
                         (World Toy.fs_fresh []) = (Ok tt, w1)
                       ∧ _verify Toy.env_online Toy.toy w1 = (Ok tt, w2)
                       ∧ _extract Toy.env_online Toy.toy w2 = (Ok tt, w3)
                       ∧ _write_manifest Toy.env_online Toy.toy w3
                         = (Raise e, Edge.w_done)))
          ∧ Ok (extracted_path Toy.toy) ≠ Fuel).
Proof.
  refine (prepare_step_order Toy.env_online Toy.toy (World Toy.fs_fresh [])
            Edge.w_done (Ok (extracted_path Toy.toy)) _).
  vm_compute. reflexivity.
Defined.

(** X12.  [prepare] enters [_write_manifest] only for an archive that
    passed verification and was extracted without error: if the call
    entered that step, then after the download step the archive path held
    a regular file whose digest is the expected checksum. *)
Theorem manifest_only_after_verification
  (env : Env) (self : Dataset) (w w' : world) (r : result Path)
  (l : list event) :
  prepare env self w = (r, w') →
  w_log w' = w_log w ++ l →
  WriteManifest ∈ l →
  ∃ w1 data,
    fetch_if_missing env self w = (Ok tt, w1)
    ∧ lookup_node (w_fs w1) (key env (archive_path self)) = Some (File data)
    ∧ MD5.md5_hex data = checksum (cls self)
    ∧ ∃ w3, _extract env self (World (w_fs w1) (w_log w1 ++ [Verify]))
            = (Ok tt, w3).
Proof.
  intros H L Hin.
  destruct (prepare_trace _ _ _ _ _ H) as (l' & L' & _ & M & _).
  rewrite L in L'. apply app_inv_head in L'. subst l'.
  destruct (M Hin) as (w1 & w2 & w3 & Hf & Hv & He).
  pose proof (_verify_spec _ _ _ _ _ Hv)
    as (Lv & [(data & Hfile & Hd & _ & Hfs)
             |[(? & _ & _ & [=] & _)|(? & _ & [=] & _)]]).
  exists w1, data. repeat split; try assumption.
  exists w3. destruct w2 as [fs2 log2]. cbn [w_fs w_log] in *.
  subst. exact He.
Qed.

Lemma manifest_only_after_verification_witness :
  ∃ w1 data,
    fetch_if_missing Toy.env_online Toy.toy (World Toy.fs_fresh [])
    = (Ok tt, w1)
    ∧ lookup_node (w_fs w1) (key Toy.env_online (archive_path Toy.toy))
      = Some (File data)
    ∧ MD5.md5_hex data = checksum (cls Toy.toy)
    ∧ ∃ w3, _extract Toy.env_online Toy.toy
              (World (w_fs w1) (w_log w1 ++ [Verify]))
            = (Ok tt, w3).
Proof.
  refine (manifest_only_after_verification Toy.env_online Toy.toy
            (World Toy.fs_fresh []) Edge.w_done (Ok (extracted_path Toy.toy))
            [Download; Verify; Extract; WriteManifest] _ _ _).
  - vm_compute. reflexivity.
  - vm_compute. reflexivity.
  - apply list_elem_of_In. simpl. auto.
Defined.
(** ** What is extracted, and the second call *)

Lemma node_exists_insert (fs : filesystem) (k : list string) (v : node) :
  node_exists (<[k := v]> fs) k = true.
Proof.
  unfold node_exists, lookup_node. destruct k; [reflexivity|].
  rewrite lookup_insert_eq. reflexivity.
Qed.

(** An insertion removes nothing. *)
Lemma node_exists_insert_mono (fs : filesystem) (k k' : list string) (v : node) :
  node_exists fs k' = true → node_exists (<[k := v]> fs) k' = true.
Proof.
  intros H. destruct (decide (k = k')) as [<-|Hne].
  - apply node_exists_insert.
  - unfold node_exists, lookup_node in *. destruct k'; [reflexivity|].
    rewrite lookup_insert_ne by exact Hne. exact H.
Qed.

(** X13.  What [prepare] hands to the archive library is what it
    verified: when [_verify] has passed, the archive path holds a regular
    file whose digest is the expected checksum, [_extract] opens it
    without fail and calls the library on those very bytes and the root
    directory, in the file system [_verify] found; how [_extract] ends and
    the file system it leaves are the library's. *)
Theorem extract_gets_verified_bytes
  (env : Env) (self : Dataset) (w1 w2 w3 : world) (r : result unit) :
  _verify env self w1 = (Ok tt, w2) →
  _extract env self w2 = (r, w3) →
  ∃ data,
    lookup_node (w_fs w1) (key env (archive_path self)) = Some (File data)
    ∧ MD5.md5_hex data = checksum (cls self)
    ∧ r = match fst (tar_extractall env data (key env (root self)) (w_fs w1))
          with
          | None => Ok tt
          | Some e => Raise e
          end
    ∧ w_fs w3 = snd (tar_extractall env data (key env (root self)) (w_fs w1))
    ∧ w_log w3 = w_log w1 ++ [Verify; Extract].
Proof.
  intros Hv He.
  apply _verify_spec in Hv
    as (L2 & [(data & Hfile & Hsum & _ & Hfs2)
             |[(? & _ & _ & [=] & _)|(? & _ & [=] & _)]]).
  exists data. split; [exact Hfile|]. split; [exact Hsum|].
  rewrite <- Hfs2 in Hfile. rewrite (_extract_file env self w2 data Hfile) in He.
  injection He as <- <-. rewrite Hfs2, L2, <- app_assoc. auto.
Qed.

Lemma extract_gets_verified_bytes_witness :
  ∃ data,
    lookup_node (w_fs (World Toy.fs_stale []))
      (key Toy.env_small (archive_path Toy.toy)) = Some (File data)
    ∧ MD5.md5_hex data = checksum (cls Toy.toy)
    ∧ Raise OSError
      = match fst (tar_extractall Toy.env_small data
                     (key Toy.env_small (root Toy.toy))
                     (w_fs (World Toy.fs_stale [])))
        with
        | None => Ok tt
        | Some e => Raise e
        end
    ∧ w_fs Toy.w_half
      = snd (tar_extractall Toy.env_small data
               (key Toy.env_small (root Toy.toy))
               (w_fs (World Toy.fs_stale [])))
    ∧ w_log Toy.w_half = w_log (World Toy.fs_stale []) ++ [Verify; Extract].
Proof.
  refine (extract_gets_verified_bytes Toy.env_small Toy.toy
            (World Toy.fs_stale []) (World Toy.fs_stale [Verify]) Toy.w_half
            (Raise OSError) _ _);
    vm_compute; reflexivity.
Defined.

Section SecondCall.

Variables env env2 : Env.
Variable self : Dataset.
Hypothesis Hcwd : cwd env2 = cwd env.

(** A call that returned a path returned the extracted path, and left a
    manifest. *)
Lemma prepare_ok_inv (w w' : world) (p : Path) :
  prepare env self w = (Ok p, w') →
  p = extracted_path self
  ∧ node_exists (w_fs w') (key env (manifest_path self)) = true.
Proof.
  intros H. rewrite prepare_eq in H.
  destruct (prepared env self (w_fs w)) eqn:P.
  - inversion H; subst. split; [reflexivity|].
    unfold prepared in P. apply andb_prop in P as [_ P]. exact P.
  - apply pipeline_ok_inv in H as (w1 & w2 & w3 & _ & _ & _ & Hw & ->).
    split; [reflexivity|].
    apply _write_manifest_spec in Hw
      as (_ & [(_ & _ & Hfs)|[(? & _ & _ & [=] & _)|(? & [=] & _)]]).
    rewrite Hfs. apply node_exists_insert.
Qed.

Lemma second_call_noop (w w' : world) (p : Path) :
  prepare env self w = (Ok p, w') →
  node_exists (w_fs w') (key env (extracted_path self)) = true →
  prepare env2 self w' = (Ok p, w').
Proof.
  intros H Hex. apply prepare_ok_inv in H as [-> Hm].
  rewrite prepare_eq. unfold prepared.
  rewrite !(key_cwd env2 env) by exact Hcwd. rewrite Hex, Hm. reflexivity.
Qed.

End SecondCall.

(** X14.  [prepare] is idempotent once the data set is there: after a
    call that returned a path, if the extracted path exists, a second call
    (same working directory; any network, clock, archive reader and
    device) returns the same path and leaves the world exactly as it is:
    no download, no verification, no extraction, no new manifest. *)
Theorem prepare_twice_is_noop
  (env env2 : Env) (self : Dataset) (w w' : world) (p : Path) :
  cwd env2 = cwd env →
  prepare env self w = (Ok p, w') →
  node_exists (w_fs w') (key env (extracted_path self)) = true →
  prepare env2 self w' = (Ok p, w').
Proof.
  intros Hcwd. exact (second_call_noop env env2 self Hcwd w w' p).
Qed.

(** A first run with a connection, a second one without. *)
Lemma prepare_twice_is_noop_witness :
  prepare Toy.env_offline Toy.toy Edge.w_done
  = (Ok (extracted_path Toy.toy), Edge.w_done).
Proof.
  refine (prepare_twice_is_noop Toy.env_online Toy.env_offline Toy.toy
            (World Toy.fs_fresh []) Edge.w_done (extracted_path Toy.toy)
            _ _ _).
  - reflexivity.
  - vm_compute. reflexivity.
  - vm_compute. reflexivity.
Defined.

(** X15.  When the extraction leaves an entry at the extracted path, a
    call to [prepare] that returns leaves the data set prepared: writing
    the manifest removes nothing, so the extracted path and the manifest
    path both exist afterwards, and the next call (same working
    directory) short-circuits. *)
Theorem prepare_leaves_prepared
  (env env2 : Env) (self : Dataset) (w w1 w2 w3 w' : world) (p : Path) :
  cwd env2 = cwd env →
  prepared env self (w_fs w) = false →
  fetch_if_missing env self w = (Ok tt, w1) →
  _verify env self w1 = (Ok tt, w2) →
  _extract env self w2 = (Ok tt, w3) →
  node_exists (w_fs w3) (key env (extracted_path self)) = true →
  prepare env self w = (Ok p, w') →
  node_exists (w_fs w') (key env (extracted_path self)) = true
  ∧ node_exists (w_fs w') (key env (manifest_path self)) = true
  ∧ prepared env2 self (w_fs w') = true
  ∧ prepare env2 self w' = (Ok p, w').
Proof.
  intros Hcwd Hprep Hfetch Hverify Hextract Hthere H.
  assert (node_exists (w_fs w') (key env (extracted_path self)) = true) as Hex.
  { pose proof H as H0. rewrite prepare_eq, Hprep in H0.
    unfold pipeline, verify_onwards in H0.
    rewrite (bind_ok _ _ _ _ _ Hfetch), (bind_ok _ _ _ _ _ Hverify),
      (bind_ok _ _ _ _ _ Hextract) in H0.
    apply bind_inv in H0 as [([] & w4 & Hw & H0)|[(e & _ & [=])|[_ [=]]]].
    inversion H0; subst.
    apply _write_manifest_spec in Hw
      as (_ & [(_ & _ & Hfs)|[(? & _ & _ & [=] & _)|(? & [=] & _)]]).
    rewrite Hfs. apply node_exists_insert_mono, Hthere. }
  pose proof (prepare_ok_inv env self _ _ _ H) as [_ Hm].
  split; [exact Hex|]. split; [exact Hm|]. split.
  - unfold prepared. rewrite !(key_cwd env2 env) by exact Hcwd.
    rewrite Hex, Hm. reflexivity.
  - apply (second_call_noop env env2 self Hcwd _ _ _ H Hex).
Qed.

Lemma prepare_leaves_prepared_witness :
  node_exists (w_fs Edge.w_done) (key Toy.env_online (extracted_path Toy.toy))
  = true
  ∧ node_exists (w_fs Edge.w_done) (key Toy.env_online (manifest_path Toy.toy))
    = true
  ∧ prepared Toy.env_offline Toy.toy (w_fs Edge.w_done) = true
  ∧ prepare Toy.env_offline Toy.toy Edge.w_done
    = (Ok (extracted_path Toy.toy), Edge.w_done).
Proof.
  refine (prepare_leaves_prepared Toy.env_online Toy.env_offline Toy.toy
            (World Toy.fs_fresh []) (World Toy.fs_archived [Download])
            (World Toy.fs_archived [Download; Verify]) Edge.w_extracted
            Edge.w_done (extracted_path Toy.toy) _ _ _ _ _ _ _);
    vm_compute; reflexivity.
Defined.

(** ** The manifest is plain ASCII *)

Section Ascii.

Import Json JsonFacts.

Lemma all_chars_append (f : ascii → bool) (a b : string) :
  all_chars f (a +:+ b) = all_chars f a && all_chars f b.
Proof.
  induction a as [|c a IH]; [reflexivity|].
  rewrite append_cons. cbn [all_chars]. rewrite IH, andb_assoc. reflexivity.
Qed.

Lemma escape_char_ascii (c : ascii) :
  all_chars is_plain_ascii (escape_char c) = true.
Proof. destruct c as [[] [] [] [] [] [] [] []]; reflexivity. Qed.

Lemma escape_ascii (s : string) : all_chars is_plain_ascii (escape s) = true.
Proof.
  induction s as [|c s IH]; [reflexivity|].
  cbn [escape]. rewrite all_chars_append, escape_char_ascii, IH. reflexivity.
Qed.

Lemma quote_ascii (s : string) : all_chars is_plain_ascii (quote s) = true.
Proof.
  unfold quote. cbn [all_chars].
  rewrite all_chars_append, escape_ascii. reflexivity.
Qed.

Lemma member_ascii (kv : string * string) :
  all_chars is_plain_ascii (member kv) = true.
Proof.
  unfold member. rewrite !all_chars_append, !quote_ascii. reflexivity.
Qed.

Lemma members_ascii (d : dict) : all_chars is_plain_ascii (members d) = true.
Proof.
  induction d as [|kv d IH]; [reflexivity|].
  destruct d as [|kv' d]; [apply member_ascii|].
  rewrite members_cons, !all_chars_append, member_ascii, IH. reflexivity.
Qed.

End Ascii.

(** X16.  Whatever the strings of a dictionary hold (quotes, backslashes,
    control characters, characters above 127), the text [json.dump]
    writes for it consists of printable ASCII characters and newlines
    only; in particular the manifest does. *)
Theorem dumps_is_plain_ascii (d : Json.dict) :
  all_chars is_plain_ascii (Json.dumps d) = true.
Proof.
  destruct d as [|kv d]; [reflexivity|].
  change (Json.dumps (kv :: d))
    with ("{" +:+ Json.newline +:+ "  " +:+ Json.members (kv :: d)
          +:+ Json.newline +:+ "}").
  rewrite !all_chars_append, members_ascii. reflexivity.
Qed.

(** ** A download that fails verification *)

(** X17.  A call to [prepare] that downloads a complete body whose digest
    is not the expected checksum raises the integrity error and leaves the
    file system exactly as it was before the call: the archive it wrote is
    removed again and nothing else was touched.  (Nothing was at the
    archive path, the directory it goes into existed, the
    [content-length] header was missing or readable and the device had
    room for the body.) *)
Theorem corrupt_download_is_rolled_back
  (env : Env) (self : Dataset) (w : world) (header : option string)
  (chunks : list (list byte)) :
  prepared env self (w_fs w) = false →
  lookup_node (w_fs w) (key env (archive_path self)) = None →
  lookup_node (w_fs w) (removelast (key env (archive_path self))) = Some Dir →
  http_get env (url (cls self)) = Response header chunks true →
  length_readable env header = true →
  fits (quota env (key env (archive_path self))) (length (concat chunks))
  = true →
  MD5.md5_hex (concat chunks) ≠ checksum (cls self) →
  prepare env self w
  = (Raise (RuntimeError (mismatch_message self)),
     World (w_fs w) (w_log w ++ [Download; Verify])).
Proof.
  intros Hprep Hnone Hparent Hget Hhead Hfit Hne.
  set (ka := key env (archive_path self)) in *.
  assert (ka ≠ []) as Hka by (intros E; rewrite E in Hnone; discriminate).
  assert (kept (quota env ka) (concat chunks) = concat chunks) as Hkept.
  { unfold kept, fits in *. destruct (quota env ka); [|reflexivity].
    apply Nat.leb_le in Hfit. apply firstn_all2, Hfit. }
  rewrite prepare_eq, Hprep. unfold pipeline, bind at 1.
  rewrite fetch_if_missing_eq. fold ka. unfold node_exists. rewrite Hnone.
  rewrite (_download_closed_form env self w Hnone Hparent), Hget, Hhead.
  fold ka. unfold download_result. rewrite Hfit, Hkept.
  unfold verify_onwards.
  erewrite bind_raise; [reflexivity|].
  rewrite (_verify_file env self _ (concat chunks)).
  - destruct (String.eqb_spec (MD5.md5_hex (concat chunks))
                (checksum (cls self))); [contradiction|].
    cbn [w_fs w_log]. fold ka.
    rewrite delete_insert_eq, delete_id, <- app_assoc.
    + reflexivity.
    + rewrite <- (lookup_node_cons _ _ Hka). exact Hnone.
  - cbn [w_fs]. fold ka. rewrite lookup_node_cons by exact Hka.
    apply lookup_insert_eq.
Qed.

(** The server delivers other bytes than those of the checksum. *)
Lemma corrupt_download_is_rolled_back_witness :
  prepare Edge.env_corrupt Toy.toy (World Toy.fs_fresh [])
  = (Raise (RuntimeError (mismatch_message Toy.toy)),
     World (w_fs (World Toy.fs_fresh []))
           (w_log (World Toy.fs_fresh []) ++ [Download; Verify])).
Proof.
  refine (corrupt_download_is_rolled_back Edge.env_corrupt Toy.toy
            (World Toy.fs_fresh []) None [encode "tox"] _ _ _ _ _ _ _);
    solve [vm_compute; reflexivity | vm_compute; discriminate].
Defined.

(** ** Test vectors

    The digests [hashlib.md5] gives for messages around the block size,
    where the padding spills into one more block. *)

Example md5_abc :
  MD5.md5_hex (encode "abc") = "900150983cd24fb0d6963f7d28e17f72".
Proof. vm_compute. reflexivity. Qed.

Example md5_55_bytes :
  MD5.md5_hex (repeat "a"%byte 55) = "ef1772b6dff9a122358552954ad0df65".
Proof. vm_compute. reflexivity. Qed.

Example md5_56_bytes :
  MD5.md5_hex (repeat "a"%byte 56) = "3b0c8ac703f828b04c6c197006d17218".
Proof. vm_compute. reflexivity. Qed.

Example md5_64_bytes :
  MD5.md5_hex (repeat "a"%byte 64) = "014842d480b571495a4a0363793f7367".
Proof. vm_compute. reflexivity. Qed.

Example md5_120_bytes :
  MD5.md5_hex (repeat "a"%byte 120) = "5f61c0ccad4cac44c75ff505e1f1e537".
Proof. vm_compute. reflexivity. Qed.

(** The digests [hashlib.md5] gives for files of zero bytes of the four
    sizes of C6, computed here by the chunked loop of [_md5]. *)

Example md5_empty_file :
  Toy.md5_of_zeros 0 = Ok "d41d8cd98f00b204e9800998ecf8427e".
Proof. vm_compute. reflexivity. Qed.

Example md5_one_byte :
  Toy.md5_of_zeros 1 = Ok "93b885adfe0da089cdf634904fd59f71".
Proof. vm_compute. reflexivity. Qed.

Example md5_one_chunk :
  Toy.md5_of_zeros CHUNK_SIZE = Ok "0829f71740aab1ab98b33eae21dee122".
Proof. vm_compute. reflexivity. Qed.

Example md5_chunks_and_remainder :
  Toy.md5_of_zeros (2 * CHUNK_SIZE + 5) = Ok "3b2f8edc111145c772d05ccd5f66644c".
Proof. vm_compute. reflexivity. Qed.

(** [__init__] creates the root directory in the working directory and
    derives the manifest path from the name. *)
Example init_toy :
  __init__ Toy.env_offline Toy.toy_class "data" (World Edge.fs_home [])
  = (Ok Toy.toy, World Toy.fs_fresh []).
Proof. vm_compute. reflexivity. Qed.

(** The manifest of the toy data set, as [_write_manifest] serializes it,
    read back. *)
Example manifest_toy :
  Json.loads (Json.dumps (manifest Toy.env_online Toy.toy))
  = Some [ ("name", "Toy Set");
           ("source_url", "http://example.org/toy.tar.gz");
           ("archive_name", "toy.tar.gz");
           ("checksum", "10016b6ed5a5b09be08133fa2d282636");
           ("prepared_at", "2026-11-04T09:05:03.000120+00:00");
           ("dataset_path", "/home/u/data/toy");
           ("archive_path", "/home/u/data/toy.tar.gz") ].
Proof. vm_compute. reflexivity. Qed.

(** A name with a capital letter outside ASCII: [str.lower] lowers it
    too. *)
Example manifest_name_ecole :
  manifest_name
    {| name := String (ascii_of_nat 201) "COLE Set";
       url := "http://example.org/e.tar.gz";
       checksum := "10016b6ed5a5b09be08133fa2d282636";
       archive_name := "e.tar.gz";
       extracted_dir := "e" |}
  = String (ascii_of_nat 233) "cole_set.manifest.json".
Proof. vm_compute. reflexivity. Qed.

(** [int] on [content-length] headers. *)
Example int_of_headers :
  map (Str.to_int 4300) [ "3"; " 1_000 "; "+7"; "-7"; "3 bytes"; "1__0"; "_1";
                          EmptyString; "12, 12" ]
  = [ Some 3%Z; Some 1000%Z; Some 7%Z; Some (-7)%Z; None; None; None;
      None; None ].
Proof. vm_compute. reflexivity. Qed.
